(** * SRAMPlatform: chain protocol engine and zForth VM

    A shallow embedding of the device firmware
    ([Core/Src/sramplatform.c], [Core/Src/main.c], [Core/Src/zforth.c],
    [Core/Inc/zforth.h], [Core/Inc/sramconf.h]) and the properties of its
    packet codec, its command dispatcher and its bytecode interpreter.

    Conventions.  A byte is a [Z] in [0, 256); a [uint32_t] is a [Z] in
    [0, 2^32) and a [zf_cell] ([int32_t]) a [Z] in [-2^31, 2^31), with the
    conversions of C written out ([u8], [u16], [u32], [s8], [s16], [s32]).
    The target is a little-endian 32-bit ARM core. *)

From Stdlib Require Import Ascii String.
From Stdlib Require Import ZArith List Lia Bool.
Import ListNotations.
Open Scope Z_scope.

(** ** Machine integers *)

Definition u8 (x : Z) : Z := x mod 2 ^ 8.
Definition u16 (x : Z) : Z := x mod 2 ^ 16.
Definition u32 (x : Z) : Z := x mod 2 ^ 32.

(** Conversion to a signed type of [w] bits: the value with the same low
    [w] bits (what the ARM compilers do; ISO C leaves it to the
    implementation). *)
Definition sint (w : Z) (x : Z) : Z :=
  let m := x mod 2 ^ w in
  if m <? 2 ^ (w - 1) then m else m - 2 ^ w.

Definition s8 : Z -> Z := sint 8.
Definition s16 : Z -> Z := sint 16.
Definition s32 : Z -> Z := sint 32.

Definition is_byte (b : Z) : Prop := 0 <= b < 256.
Definition is_cell (v : Z) : Prop := - 2 ^ 31 <= v < 2 ^ 31.

(** The object representation of an integer of [n] bytes, least significant
    byte first, and its inverse. *)
Fixpoint le_bytes (n : nat) (v : Z) : list Z :=
  match n with
  | O => []
  | S k => v mod 256 :: le_bytes k (v / 256)
  end.

Fixpoint le_value (bs : list Z) : Z :=
  match bs with
  | [] => 0
  | b :: tl => b + 256 * le_value tl
  end.

(** ** Arrays of bytes *)

(** The characters of a string literal, without the final NUL. *)
Definition str (s : string) : list Z :=
  map (fun a => Z.of_nat (nat_of_ascii a)) (list_ascii_of_string s).

Arguments str s%_string.

(** [a[i]] for an index known to be inside the array. *)
Definition byte_at (a : list Z) (i : Z) : Z := nth (Z.to_nat i) a 0.

(** [a[i]]: [None] when [i] is not an index of the array. *)
Fixpoint load (a : list Z) (i : Z) : option Z :=
  match a with
  | [] => None
  | x :: tl =>
      if i <? 0 then None
      else if i =? 0 then Some x
      else load tl (i - 1)
  end.

(** [memcpy(dst, a + off, len)]: [None] when the range leaves the array. *)
Fixpoint slice (a : list Z) (off len : Z) : option (list Z) :=
  match a with
  | [] => if (off =? 0) && (len =? 0) then Some [] else None
  | x :: tl =>
      if (off <? 0) || (len <? 0) then None
      else if 0 <? off then slice tl (off - 1) len
      else if len =? 0 then Some []
      else option_map (cons x) (slice tl 0 (len - 1))
  end.

(** [memcpy(a + off, src, |src|)]: [None] when the range leaves the array. *)
Fixpoint splice (a : list Z) (off : Z) (src : list Z) : option (list Z) :=
  match a with
  | [] =>
      match src with
      | [] => if off =? 0 then Some [] else None
      | _ :: _ => None
      end
  | x :: tl =>
      if off <? 0 then None
      else if 0 <? off then option_map (cons x) (splice tl (off - 1) src)
      else
        match src with
        | [] => Some a
        | b :: bs => option_map (cons b) (splice tl 0 bs)
        end
  end.

(** [a[i] = v]. *)
Definition store (a : list Z) (i : Z) (v : Z) : option (list Z) :=
  splice a i [v].

(** The same on a range that is known to be inside the array. *)
Definition sub (a : list Z) (off len : nat) : list Z :=
  firstn len (skipn off a).

Definition overwrite (a : list Z) (off : nat) (src : list Z) : list Z :=
  firstn off a ++ src ++ skipn (off + length src) a.

(** ** Packets ([sramplatform.h], [sramplatform.c]) *)

(** Modelled from the spec: [UID_SIZE] of [sramplatform.h], the 25 bytes of
    a uid; [parse_packet] copies that many from offset 6 and takes the data
    from offset 31. *)
Definition UID_SIZE : Z := 25.

Record packet_t : Type := mkPacket {
  command : Z;        (* uint8_t *)
  pic : Z;            (* uint8_t *)
  options : Z;        (* uint32_t *)
  uid : list Z;       (* char [UID_SIZE] *)
  data : list Z;      (* uint8_t [DATA_SIZE] *)
  checksum : Z        (* uint16_t *)
}.

Definition set_command (c : Z) (p : packet_t) : packet_t :=
  mkPacket c (pic p) (options p) (uid p) (data p) (checksum p).
Definition set_pic (c : Z) (p : packet_t) : packet_t :=
  mkPacket (command p) c (options p) (uid p) (data p) (checksum p).
Definition set_options (o : Z) (p : packet_t) : packet_t :=
  mkPacket (command p) (pic p) o (uid p) (data p) (checksum p).
Definition set_uid (u : list Z) (p : packet_t) : packet_t :=
  mkPacket (command p) (pic p) (options p) u (data p) (checksum p).
Definition set_data (d : list Z) (p : packet_t) : packet_t :=
  mkPacket (command p) (pic p) (options p) (uid p) d (checksum p).
Definition set_checksum (c : Z) (p : packet_t) : packet_t :=
  mkPacket (command p) (pic p) (options p) (uid p) (data p) c.

Section Codec.

(** Modelled from the spec: [DATA_SIZE], the payload size D of
    [sramplatform.h]; the packet size is P = 31 + D + 2. *)
Variable DATA_SIZE : Z.

Definition PACKET_SIZE : Z := 1 + 1 + 4 + UID_SIZE + DATA_SIZE + 2.

(** The fields hold values of their C types. *)
Definition packet_wf (p : packet_t) : Prop :=
  0 <= command p < 2 ^ 8 /\ 0 <= pic p < 2 ^ 8 /\
  0 <= options p < 2 ^ 32 /\
  Z.of_nat (length (uid p)) = UID_SIZE /\
  Z.of_nat (length (data p)) = DATA_SIZE /\
  0 <= checksum p < 2 ^ 16.

(** [parse_packet]. *)
Definition parse_packet (buffer : list Z) : packet_t :=
  {| command := byte_at buffer 0;
     pic := byte_at buffer 1;
     options :=
       u32 (Z.lor (Z.lor (Z.lor (Z.shiftl (byte_at buffer 5) 24)
                                (Z.shiftl (byte_at buffer 4) 16))
                         (Z.shiftl (byte_at buffer 3) 8))
                  (byte_at buffer 2));
     uid := sub buffer 6 25;
     data := sub buffer 31 (Z.to_nat DATA_SIZE);
     checksum :=
       u16 (Z.lor (Z.shiftl (byte_at buffer (PACKET_SIZE - 1)) 8)
                  (byte_at buffer (PACKET_SIZE - 2))) |}.

(** [send_packet]: the bytes handed to [HAL_UART_Transmit] by the six
    calls, in order; each field is sent as it lies in memory. *)
Definition send_packet (p : packet_t) : list Z :=
  le_bytes 1 (command p) ++ le_bytes 1 (pic p) ++ le_bytes 4 (options p)
  ++ firstn (Z.to_nat UID_SIZE) (uid p)
  ++ firstn (Z.to_nat DATA_SIZE) (data p)
  ++ le_bytes 2 (checksum p).

End Codec.



(** ** zForth: configuration and types ([zforth.h], [zforth.c]) *)

Definition ZF_ENABLE_BOUNDARY_CHECKS : bool := false.
Definition ZF_DICT_SIZE : Z := 2 ^ 12.
Definition ZF_DSTACK_SIZE : Z := 32.
Definition ZF_RSTACK_SIZE : Z := 32.

Inductive zf_result : Type :=
| ZF_OK
| ZF_ABORT_INTERNAL_ERROR
| ZF_ABORT_OUTSIDE_MEM
| ZF_ABORT_DSTACK_UNDERRUN
| ZF_ABORT_DSTACK_OVERRUN
| ZF_ABORT_RSTACK_UNDERRUN
| ZF_ABORT_RSTACK_OVERRUN
| ZF_ABORT_NOT_A_WORD
| ZF_ABORT_COMPILE_ONLY_WORD
| ZF_ABORT_INVALID_SIZE
| ZF_ABORT_DIVISION_BY_ZERO
| ZF_ABORT_INVALID_USERVAR
| ZF_ABORT_EXTERNAL.

(** The value of the enumerator, as [eval_cmd] returns it. *)
Definition zf_result_code (r : zf_result) : Z :=
  match r with
  | ZF_OK => 0
  | ZF_ABORT_INTERNAL_ERROR => 1
  | ZF_ABORT_OUTSIDE_MEM => 2
  | ZF_ABORT_DSTACK_UNDERRUN => 3
  | ZF_ABORT_DSTACK_OVERRUN => 4
  | ZF_ABORT_RSTACK_UNDERRUN => 5
  | ZF_ABORT_RSTACK_OVERRUN => 6
  | ZF_ABORT_NOT_A_WORD => 7
  | ZF_ABORT_COMPILE_ONLY_WORD => 8
  | ZF_ABORT_INVALID_SIZE => 9
  | ZF_ABORT_DIVISION_BY_ZERO => 10
  | ZF_ABORT_INVALID_USERVAR => 11
  | ZF_ABORT_EXTERNAL => 12
  end.

Inductive zf_input_state : Type :=
| ZF_INPUT_INTERPRET
| ZF_INPUT_PASS_CHAR
| ZF_INPUT_PASS_WORD.

Definition ZF_USERVAR_HERE : Z := 0.
Definition ZF_USERVAR_LATEST : Z := 1.
Definition ZF_USERVAR_TRACE : Z := 2.
Definition ZF_USERVAR_COMPILING : Z := 3.
Definition ZF_USERVAR_POSTPONE : Z := 4.
Definition ZF_USERVAR_COUNT : Z := 5.

Definition ZF_FLAG_IMMEDIATE : Z := Z.shiftl 1 6.
Definition ZF_FLAG_PRIM : Z := Z.shiftl 1 5.
Definition ZF_FLAG_LEN (v : Z) : Z := Z.land v 31.

(** [zf_mem_size]; a selector reaches the typed accessors through a cast
    of a cell popped from the stack, so it is kept as a number. *)
Definition ZF_MEM_SIZE_VAR : Z := 0.
Definition ZF_MEM_SIZE_CELL : Z := 1.
Definition ZF_MEM_SIZE_U8 : Z := 2.
Definition ZF_MEM_SIZE_U16 : Z := 3.
Definition ZF_MEM_SIZE_U32 : Z := 4.
Definition ZF_MEM_SIZE_S8 : Z := 5.
Definition ZF_MEM_SIZE_S16 : Z := 6.
Definition ZF_MEM_SIZE_S32 : Z := 7.

Inductive zf_prim : Type :=
| PRIM_EXIT | PRIM_LIT | PRIM_LTZ | PRIM_COL | PRIM_SEMICOL | PRIM_ADD
| PRIM_SUB | PRIM_MUL | PRIM_DIV | PRIM_MOD | PRIM_DROP | PRIM_DUP
| PRIM_PICKR | PRIM_IMMEDIATE | PRIM_PEEK | PRIM_POKE | PRIM_SWAP | PRIM_ROT
| PRIM_JMP | PRIM_JMP0 | PRIM_TICK | PRIM_COMMENT | PRIM_PUSHR | PRIM_POPR
| PRIM_EQUAL | PRIM_SYS | PRIM_PICK | PRIM_COMMA | PRIM_KEY | PRIM_LITS
| PRIM_LEN | PRIM_AND | PRIM_OR | PRIM_XOR | PRIM_SHL | PRIM_SHR
| PRIM_EMIT | PRIM_DEVREAD | PRIM_DEVWRITE | PRIM_DEVTEMP | PRIM_DEVVDD.

(** The enumerators in declaration order; [PRIM_COUNT] follows the last. *)
Definition prim_table : list zf_prim :=
  [ PRIM_EXIT; PRIM_LIT; PRIM_LTZ; PRIM_COL; PRIM_SEMICOL; PRIM_ADD;
    PRIM_SUB; PRIM_MUL; PRIM_DIV; PRIM_MOD; PRIM_DROP; PRIM_DUP;
    PRIM_PICKR; PRIM_IMMEDIATE; PRIM_PEEK; PRIM_POKE; PRIM_SWAP; PRIM_ROT;
    PRIM_JMP; PRIM_JMP0; PRIM_TICK; PRIM_COMMENT; PRIM_PUSHR; PRIM_POPR;
    PRIM_EQUAL; PRIM_SYS; PRIM_PICK; PRIM_COMMA; PRIM_KEY; PRIM_LITS;
    PRIM_LEN; PRIM_AND; PRIM_OR; PRIM_XOR; PRIM_SHL; PRIM_SHR;
    PRIM_EMIT; PRIM_DEVREAD; PRIM_DEVWRITE; PRIM_DEVTEMP; PRIM_DEVVDD ].

Definition PRIM_COUNT : Z := 41.

(** The cast [(zf_prim) code] of a non-negative code. *)
Definition prim_of_code (code : Z) : option zf_prim :=
  nth_error prim_table (Z.to_nat code).

Definition prim_code (p : zf_prim) : Z :=
  match p with
  | PRIM_EXIT => 0 | PRIM_LIT => 1 | PRIM_LTZ => 2 | PRIM_COL => 3
  | PRIM_SEMICOL => 4 | PRIM_ADD => 5 | PRIM_SUB => 6 | PRIM_MUL => 7
  | PRIM_DIV => 8 | PRIM_MOD => 9 | PRIM_DROP => 10 | PRIM_DUP => 11
  | PRIM_PICKR => 12 | PRIM_IMMEDIATE => 13 | PRIM_PEEK => 14
  | PRIM_POKE => 15 | PRIM_SWAP => 16 | PRIM_ROT => 17 | PRIM_JMP => 18
  | PRIM_JMP0 => 19 | PRIM_TICK => 20 | PRIM_COMMENT => 21
  | PRIM_PUSHR => 22 | PRIM_POPR => 23 | PRIM_EQUAL => 24 | PRIM_SYS => 25
  | PRIM_PICK => 26 | PRIM_COMMA => 27 | PRIM_KEY => 28 | PRIM_LITS => 29
  | PRIM_LEN => 30 | PRIM_AND => 31 | PRIM_OR => 32 | PRIM_XOR => 33
  | PRIM_SHL => 34 | PRIM_SHR => 35 | PRIM_EMIT => 36 | PRIM_DEVREAD => 37
  | PRIM_DEVWRITE => 38 | PRIM_DEVTEMP => 39 | PRIM_DEVVDD => 40
  end.

(** ** The state of the firmware *)

(** The two serial links: [huart1] leads up to the controller, [huart3]
    down to the next node. *)
Inductive uart : Type := huart1 | huart3.

(** Modelled from the spec: the macros [RESET_UPWARDS] and
    [RESET_DOWNWARDS] of [sramplatform.h] re-arm the reception on the
    up-link and on the down-link; they are recorded as events, next to
    the transmissions. *)
Inductive event : Type :=
| Transmit (u : uart) (bytes : list Z)
| RESET_UPWARDS
| RESET_DOWNWARDS.

(** The variables of [main.c] and [zforth.c].  The memory surface [sram]
    is the byte array that starts at [SRAM_START]; the variables below are
    kept apart from it (where the linker puts them inside the RAM is not
    part of the embedding).  The static buffer [buf] of [handle_char] and
    its length [len] are the list [tok]. *)
Record state : Type := mkState {
  dict : list Z;    (* uint8_t dict[ZF_DICT_SIZE] *)
  rstack : list Z;    (* zf_cell rstack[ZF_RSTACK_SIZE] *)
  dstack : list Z;    (* zf_cell dstack[ZF_DSTACK_SIZE] *)
  input_state : zf_input_state;
  dsp : Z;    (* zf_addr *)
  rsp : Z;    (* zf_addr *)
  ip : Z;    (* zf_addr *)
  tok : list Z;    (* buf[0 .. len) of handle_char *)
  sram : list Z;    (* the bytes from SRAM_START on *)
  write_pos : Z;    (* uint32_t *)
  sensors : Z * Z;    (* uint32_t sensors[2] *)
  packet : packet_t;
  buffer : list Z;    (* uint8_t buffer[PACKET_SIZE] *)
  checksum_var : Z;    (* uint16_t checksum *)
  bytes_rx : Z;    (* int *)
  trace : list event    (* what the two UARTs were asked to do, oldest first *)
}.

Definition set_dict (x : list Z) (s : state) : state :=
  mkState x (rstack s) (dstack s) (input_state s) (dsp s) (rsp s) (ip s)
    (tok s) (sram s) (write_pos s) (sensors s) (packet s) (buffer s)
    (checksum_var s) (bytes_rx s) (trace s).
Definition set_rstack (x : list Z) (s : state) : state :=
  mkState (dict s) x (dstack s) (input_state s) (dsp s) (rsp s) (ip s) (tok
    s) (sram s) (write_pos s) (sensors s) (packet s) (buffer s)
    (checksum_var s) (bytes_rx s) (trace s).
Definition set_dstack (x : list Z) (s : state) : state :=
  mkState (dict s) (rstack s) x (input_state s) (dsp s) (rsp s) (ip s) (tok
    s) (sram s) (write_pos s) (sensors s) (packet s) (buffer s)
    (checksum_var s) (bytes_rx s) (trace s).
Definition set_input_state (x : zf_input_state) (s : state) : state :=
  mkState (dict s) (rstack s) (dstack s) x (dsp s) (rsp s) (ip s) (tok s)
    (sram s) (write_pos s) (sensors s) (packet s) (buffer s) (checksum_var
    s) (bytes_rx s) (trace s).
Definition set_dsp (x : Z) (s : state) : state :=
  mkState (dict s) (rstack s) (dstack s) (input_state s) x (rsp s) (ip s)
    (tok s) (sram s) (write_pos s) (sensors s) (packet s) (buffer s)
    (checksum_var s) (bytes_rx s) (trace s).
Definition set_rsp (x : Z) (s : state) : state :=
  mkState (dict s) (rstack s) (dstack s) (input_state s) (dsp s) x (ip s)
    (tok s) (sram s) (write_pos s) (sensors s) (packet s) (buffer s)
    (checksum_var s) (bytes_rx s) (trace s).
Definition set_ip (x : Z) (s : state) : state :=
  mkState (dict s) (rstack s) (dstack s) (input_state s) (dsp s) (rsp s) x
    (tok s) (sram s) (write_pos s) (sensors s) (packet s) (buffer s)
    (checksum_var s) (bytes_rx s) (trace s).
Definition set_tok (x : list Z) (s : state) : state :=
  mkState (dict s) (rstack s) (dstack s) (input_state s) (dsp s) (rsp s) (ip
    s) x (sram s) (write_pos s) (sensors s) (packet s) (buffer s)
    (checksum_var s) (bytes_rx s) (trace s).
Definition set_sram (x : list Z) (s : state) : state :=
  mkState (dict s) (rstack s) (dstack s) (input_state s) (dsp s) (rsp s) (ip
    s) (tok s) x (write_pos s) (sensors s) (packet s) (buffer s)
    (checksum_var s) (bytes_rx s) (trace s).
Definition set_write_pos (x : Z) (s : state) : state :=
  mkState (dict s) (rstack s) (dstack s) (input_state s) (dsp s) (rsp s) (ip
    s) (tok s) (sram s) x (sensors s) (packet s) (buffer s) (checksum_var s)
    (bytes_rx s) (trace s).
Definition set_sensors (x : Z * Z) (s : state) : state :=
  mkState (dict s) (rstack s) (dstack s) (input_state s) (dsp s) (rsp s) (ip
    s) (tok s) (sram s) (write_pos s) x (packet s) (buffer s) (checksum_var
    s) (bytes_rx s) (trace s).
Definition set_packet (x : packet_t) (s : state) : state :=
  mkState (dict s) (rstack s) (dstack s) (input_state s) (dsp s) (rsp s) (ip
    s) (tok s) (sram s) (write_pos s) (sensors s) x (buffer s) (checksum_var
    s) (bytes_rx s) (trace s).
Definition set_buffer (x : list Z) (s : state) : state :=
  mkState (dict s) (rstack s) (dstack s) (input_state s) (dsp s) (rsp s) (ip
    s) (tok s) (sram s) (write_pos s) (sensors s) (packet s) x (checksum_var
    s) (bytes_rx s) (trace s).
Definition set_checksum_var (x : Z) (s : state) : state :=
  mkState (dict s) (rstack s) (dstack s) (input_state s) (dsp s) (rsp s) (ip
    s) (tok s) (sram s) (write_pos s) (sensors s) (packet s) (buffer s) x
    (bytes_rx s) (trace s).
Definition set_bytes_rx (x : Z) (s : state) : state :=
  mkState (dict s) (rstack s) (dstack s) (input_state s) (dsp s) (rsp s) (ip
    s) (tok s) (sram s) (write_pos s) (sensors s) (packet s) (buffer s)
    (checksum_var s) x (trace s).
Definition set_trace (x : list event) (s : state) : state :=
  mkState (dict s) (rstack s) (dstack s) (input_state s) (dsp s) (rsp s) (ip
    s) (tok s) (sram s) (write_pos s) (sensors s) (packet s) (buffer s)
    (checksum_var s) (bytes_rx s) x.

(** ** Computations of the firmware *)

(** A call returns ([Ok]), leaves through [zf_abort], that is through
    [longjmp] ([Abort]; the variables keep what was written before), does
    something C gives no meaning to, such as an access outside an array
    ([Undefined]), or is still running when the fuel is spent ([Timeout]). *)
Inductive result (A : Type) : Type :=
| Ok (a : A) (s : state)
| Abort (r : zf_result) (s : state)
| Undefined
| Timeout.

Arguments Ok {A} a s.
Arguments Abort {A} r s.
Arguments Undefined {A}.
Arguments Timeout {A}.

Definition M (A : Type) : Type := state -> result A.

Definition ret {A : Type} (a : A) : M A := fun s => Ok a s.

Definition bind {A B : Type} (m : M A) (k : A -> M B) : M B :=
  fun s =>
    match m s with
    | Ok a s' => k a s'
    | Abort r s' => Abort r s'
    | Undefined => Undefined
    | Timeout => Timeout
    end.

Notation "x <- m ;; k" := (bind m (fun x => k))
  (at level 61, m at next level, right associativity).
Notation "m ;; k" := (bind m (fun _ => k))
  (at level 61, right associativity).

Definition gets {A : Type} (f : state -> A) : M A := fun s => Ok (f s) s.
Definition modify (f : state -> state) : M unit := fun s => Ok tt (f s).
Definition undefined {A : Type} : M A := fun _ => Undefined.
Definition timeout {A : Type} : M A := fun _ => Timeout.

(** [zf_abort]. *)
Definition zf_abort {A : Type} (reason : zf_result) : M A :=
  fun s => Abort reason s.

(** The value of an access that stays inside its array. *)
Definition defined {A : Type} (o : option A) : M A :=
  match o with
  | Some a => ret a
  | None => undefined
  end.

(** The macro [CHECK]: compiled in only with [ZF_ENABLE_BOUNDARY_CHECKS]. *)
Definition CHECK (exp : bool) (abort : zf_result) : M unit :=
  if ZF_ENABLE_BOUNDARY_CHECKS
  then (if exp then ret tt else zf_abort abort)
  else ret tt.

(** *** Stack operations *)

Definition zf_push (v : Z) : M unit :=
  n <- gets dsp ;;
  CHECK (n <? ZF_DSTACK_SIZE) ZF_ABORT_DSTACK_OVERRUN ;;
  a <- gets dstack ;;
  a' <- defined (store a n v) ;;
  modify (set_dstack a') ;;
  modify (set_dsp (u32 (n + 1))).

Definition zf_pop : M Z :=
  n <- gets dsp ;;
  CHECK (0 <? n) ZF_ABORT_DSTACK_UNDERRUN ;;
  modify (set_dsp (u32 (n - 1))) ;;
  a <- gets dstack ;;
  defined (load a (u32 (n - 1))).

Definition zf_pick (n : Z) : M Z :=
  d <- gets dsp ;;
  CHECK (n <? d) ZF_ABORT_DSTACK_UNDERRUN ;;
  a <- gets dstack ;;
  defined (load a (u32 (d - n - 1))).

Definition zf_pushr (v : Z) : M unit :=
  n <- gets rsp ;;
  CHECK (n <? ZF_RSTACK_SIZE) ZF_ABORT_RSTACK_OVERRUN ;;
  a <- gets rstack ;;
  a' <- defined (store a n v) ;;
  modify (set_rstack a') ;;
  modify (set_rsp (u32 (n + 1))).

Definition zf_popr : M Z :=
  n <- gets rsp ;;
  CHECK (0 <? n) ZF_ABORT_RSTACK_UNDERRUN ;;
  modify (set_rsp (u32 (n - 1))) ;;
  a <- gets rstack ;;
  defined (load a (u32 (n - 1))).

Definition zf_pickr (n : Z) : M Z :=
  r <- gets rsp ;;
  CHECK (n <? r) ZF_ABORT_RSTACK_UNDERRUN ;;
  a <- gets rstack ;;
  defined (load a (u32 (r - n - 1))).

(** *** Access to the dictionary *)

Fixpoint put_bytes_loop (addr : Z) (bs : list Z) : M unit :=
  match bs with
  | [] => ret tt
  | b :: tl =>
      d <- gets dict ;;
      d' <- defined (store d addr b) ;;
      modify (set_dict d') ;;
      put_bytes_loop (u32 (addr + 1)) tl
  end.

(** [dict_put_bytes(addr, buf, len)], [bs] being the [len] bytes at [buf]. *)
Definition dict_put_bytes (addr : Z) (bs : list Z) : M Z :=
  let len := Z.of_nat (length bs) in
  CHECK (addr <? u32 (ZF_DICT_SIZE - len)) ZF_ABORT_OUTSIDE_MEM ;;
  put_bytes_loop addr bs ;;
  ret len.

Fixpoint get_bytes_loop (addr : Z) (len : nat) : M (list Z) :=
  match len with
  | O => ret []
  | S k =>
      d <- gets dict ;;
      b <- defined (load d addr) ;;
      tl <- get_bytes_loop (u32 (addr + 1)) k ;;
      ret (b :: tl)
  end.

(** [dict_get_bytes(addr, buf, len)]: the bytes left at [buf]. *)
Definition dict_get_bytes (addr : Z) (len : nat) : M (list Z) :=
  CHECK (addr <? u32 (ZF_DICT_SIZE - Z.of_nat len)) ZF_ABORT_OUTSIDE_MEM ;;
  get_bytes_loop addr len.

(** *** Cells in the dictionary

    [dict_put_cell_typed] and [dict_get_cell_typed].  The macros [PUT] and
    [GET] are compiled in ([ZF_ENABLE_TYPED_MEM_ACCESS] is 1); the reader
    returns the value stored through [v] together with the byte count. *)

Definition dict_put_cell_typed (addr v size : Z) : M Z :=
  let vi := u32 v in
  let raw :=
    n1 <- dict_put_bytes (u32 (addr + 0)) [255] ;;
    n2 <- dict_put_bytes (u32 (addr + 1)) (le_bytes 4 v) ;;
    ret (u32 (n1 + n2)) in
  if size =? ZF_MEM_SIZE_VAR then
    if u32 (v - vi) =? 0 then
      if vi <? 128 then dict_put_bytes addr [u8 vi]
      else if vi <? 16384 then
        dict_put_bytes addr [u8 (Z.lor (Z.shiftr vi 8) 128); u8 vi]
      else raw
    else raw
  else if size =? ZF_MEM_SIZE_CELL then dict_put_bytes addr (le_bytes 4 v)
  else if size =? ZF_MEM_SIZE_U8 then dict_put_bytes addr (le_bytes 1 (u8 vi))
  else if size =? ZF_MEM_SIZE_U16 then
    dict_put_bytes addr (le_bytes 2 (u16 vi))
  else if size =? ZF_MEM_SIZE_U32 then
    dict_put_bytes addr (le_bytes 4 (u32 vi))
  else if size =? ZF_MEM_SIZE_S8 then dict_put_bytes addr (le_bytes 1 (s8 vi))
  else if size =? ZF_MEM_SIZE_S16 then
    dict_put_bytes addr (le_bytes 2 (s16 vi))
  else if size =? ZF_MEM_SIZE_S32 then
    dict_put_bytes addr (le_bytes 4 (s32 vi))
  else zf_abort ZF_ABORT_INVALID_SIZE.

Definition dict_get_cell_typed (addr size : Z) : M (Z * Z) :=
  t <- dict_get_bytes addr 2 ;;
  let t0 := byte_at t 0 in
  let t1 := byte_at t 1 in
  if size =? ZF_MEM_SIZE_VAR then
    if negb (Z.land t0 128 =? 0) then
      if t0 =? 255 then
        bs <- dict_get_bytes (u32 (addr + 1)) 4 ;;
        ret (s32 (le_value bs), 1 + 4)
      else
        ret (Z.shiftl (Z.land t0 63) 8 + t1, 2)
    else ret (t0, 1)
  else if size =? ZF_MEM_SIZE_CELL then
    bs <- dict_get_bytes addr 4 ;; ret (s32 (le_value bs), 4)
  else if size =? ZF_MEM_SIZE_U8 then
    bs <- dict_get_bytes addr 1 ;; ret (u8 (le_value bs), 1)
  else if size =? ZF_MEM_SIZE_U16 then
    bs <- dict_get_bytes addr 2 ;; ret (u16 (le_value bs), 2)
  else if size =? ZF_MEM_SIZE_U32 then
    bs <- dict_get_bytes addr 4 ;; ret (s32 (u32 (le_value bs)), 4)
  else if size =? ZF_MEM_SIZE_S8 then
    bs <- dict_get_bytes addr 1 ;; ret (s8 (le_value bs), 1)
  else if size =? ZF_MEM_SIZE_S16 then
    bs <- dict_get_bytes addr 2 ;; ret (s16 (le_value bs), 2)
  else if size =? ZF_MEM_SIZE_S32 then
    bs <- dict_get_bytes addr 4 ;; ret (s32 (le_value bs), 4)
  else zf_abort ZF_ABORT_INVALID_SIZE.

Definition dict_put_cell (addr v : Z) : M Z :=
  dict_put_cell_typed addr v ZF_MEM_SIZE_VAR.

Definition dict_get_cell (addr : Z) : M (Z * Z) :=
  dict_get_cell_typed addr ZF_MEM_SIZE_VAR.

(** *** User variables

    [uservar] is the dictionary itself, read as an array of [zf_addr]:
    [uservar[i]] is the four bytes from [dict + 4 * i] on. *)

Definition uservar (i : Z) (s : state) : Z :=
  le_value (sub (dict s) (Z.to_nat (4 * i)) 4).

Definition set_uservar (i : Z) (v : Z) (s : state) : state :=
  set_dict (overwrite (dict s) (Z.to_nat (4 * i)) (le_bytes 4 v)) s.

Definition HERE : state -> Z := uservar ZF_USERVAR_HERE.
Definition LATEST : state -> Z := uservar ZF_USERVAR_LATEST.
Definition TRACE : state -> Z := uservar ZF_USERVAR_TRACE.
Definition COMPILING : state -> Z := uservar ZF_USERVAR_COMPILING.
Definition POSTPONE : state -> Z := uservar ZF_USERVAR_POSTPONE.

(** *** Adding to the dictionary at [HERE] *)

(** [HERE += dict_put_cell_typed(HERE, v, size)]; [HERE] is read again once
    the call has returned. *)
Definition dict_add_cell_typed (v size : Z) : M unit :=
  h <- gets HERE ;;
  n <- dict_put_cell_typed h v size ;;
  h' <- gets HERE ;;
  modify (set_uservar ZF_USERVAR_HERE (u32 (h' + n))).

Definition dict_add_cell (v : Z) : M unit :=
  dict_add_cell_typed v ZF_MEM_SIZE_VAR.

Definition dict_add_op (op : Z) : M unit := dict_add_cell (s32 op).

Definition dict_add_lit (v : Z) : M unit :=
  dict_add_op (prim_code PRIM_LIT) ;;
  dict_add_cell v.

(** [dict_add_str(s)], [s] being the characters before the NUL. *)
Definition dict_add_str (s : list Z) : M unit :=
  h <- gets HERE ;;
  n <- dict_put_bytes h s ;;
  h' <- gets HERE ;;
  modify (set_uservar ZF_USERVAR_HERE (u32 (h' + n))).

Definition create (name : list Z) (flags : Z) : M unit :=
  here_prev <- gets HERE ;;
  dict_add_cell (Z.lor (Z.of_nat (length name)) flags) ;;
  latest <- gets LATEST ;;
  dict_add_cell (s32 latest) ;;
  dict_add_str name ;;
  modify (set_uservar ZF_USERVAR_LATEST here_prev).

(** [memcmp(a, b, len) == 0] on two ranges of the same length. *)
Fixpoint bytes_eqb (a b : list Z) : bool :=
  match a, b with
  | [], [] => true
  | x :: a', y :: b' => (x =? y) && bytes_eqb a' b'
  | _, _ => false
  end.

(** [find_word(name, &word, &code)]: [Some (word, code)] when it returns 1.
    One unit of fuel is spent per word visited. *)
Fixpoint find_word_loop (fuel : nat) (name : list Z) (w : Z)
  : M (option (Z * Z)) :=
  match fuel with
  | O => timeout
  | S fuel' =>
      if w =? 0 then ret None
      else
        c1 <- dict_get_cell w ;;
        let p := u32 (w + snd c1) in
        c2 <- dict_get_cell p ;;
        let p := u32 (p + snd c2) in
        let len := ZF_FLAG_LEN (fst c1) in
        if len =? Z.of_nat (length name) then
          d <- gets dict ;;
          name2 <- defined (slice d p len) ;;
          if bytes_eqb name name2 then ret (Some (w, u32 (p + len)))
          else find_word_loop fuel' name (u32 (fst c2))
        else find_word_loop fuel' name (u32 (fst c2))
  end.

Definition find_word (fuel : nat) (name : list Z) : M (option (Z * Z)) :=
  w <- gets LATEST ;;
  find_word_loop fuel name w.

Definition make_immediate : M unit :=
  latest <- gets LATEST ;;
  c <- dict_get_cell latest ;;
  dict_put_cell latest (Z.lor (fst c) ZF_FLAG_IMMEDIATE) ;;
  ret tt.

(** [peek(addr, &val, len)]: the value left in [val] and the result. *)
Definition peek (addr len : Z) : M (Z * Z) :=
  if addr <? ZF_USERVAR_COUNT then
    v <- gets (uservar addr) ;;
    ret (s32 v, 1)
  else dict_get_cell_typed addr len.

(** *** The host's number parser

    [zf_host_parse_num] reads the token with [sscanf(buf, "%li%n", &v, &n)].
    [scan_li] is the conversion [%li] on a token (no white space): an
    optional sign, then [0x] and hexadecimal digits, or [0] and octal
    digits, or decimal digits; it gives the value and the number of
    characters read, and [None] when no number starts the token. *)

Definition digit_of (base c : Z) : option Z :=
  let d :=
    if (48 <=? c) && (c <=? 57) then c - 48
    else if (97 <=? c) && (c <=? 102) then c - 97 + 10
    else if (65 <=? c) && (c <=? 70) then c - 65 + 10
    else 99 in
  if d <? base then Some d else None.

Fixpoint scan_digits (base : Z) (l : list Z) (acc : Z) (n : nat) : Z * nat :=
  match l with
  | [] => (acc, n)
  | c :: tl =>
      match digit_of base c with
      | Some d => scan_digits base tl (acc * base + d) (S n)
      | None => (acc, n)
      end
  end.

Definition scan_unsigned (l : list Z) : option (Z * nat) :=
  match l with
  | [] => None
  | c :: tl =>
      if c =? 48 then
        match tl with
        | x :: h :: _ =>
            if ((x =? 120) || (x =? 88)) &&
               (match digit_of 16 h with Some _ => true | None => false end)
            then let r := scan_digits 16 (skipn 1 tl) 0 2 in Some r
            else Some (scan_digits 8 tl 0 1)
        | _ => Some (scan_digits 8 tl 0 1)
        end
      else
        match digit_of 10 c with
        | Some _ => Some (scan_digits 10 l 0 0)
        | None => None
        end
  end.

(** The value is a [long] of 32 bits: [strtol] saturates. *)
Definition clamp_long (v : Z) : Z :=
  Z.max (- 2 ^ 31) (Z.min (2 ^ 31 - 1) v).

Definition scan_li (l : list Z) : option (Z * nat) :=
  match l with
  | 45 :: tl =>
      match scan_unsigned tl with
      | Some (v, n) => Some (clamp_long (- v), S n)
      | None => None
      end
  | 43 :: tl =>
      match scan_unsigned tl with
      | Some (v, n) => Some (clamp_long v, S n)
      | None => None
      end
  | _ =>
      match scan_unsigned l with
      | Some (v, n) => Some (clamp_long v, n)
      | None => None
      end
  end.

Definition zf_host_parse_num (buf : list Z) : M Z :=
  match scan_li buf with
  | Some (v, n) =>
      if (n <? length buf)%nat then zf_abort ZF_ABORT_NOT_A_WORD else ret v
  | None => zf_abort ZF_ABORT_NOT_A_WORD
  end.

(** [isspace] in the C locale. *)
Definition isspace (c : Z) : bool :=
  (c =? 32) || ((9 <=? c) && (c <=? 13)).

(** ** The memory surface ([sramconf.h]) *)

Definition SRAM_ADDRESS : Z := 536870912.   (* 0x20000000 *)
Definition SRC_BUF_OFFSET : Z := 56.
Definition WRITE_BUF_OFFSET : Z := 58.

Section Firmware.

(** Modelled from the spec: [DATA_SIZE], the payload size D of
    [sramplatform.h]. *)
Variable DATA_SIZE : Z.

Definition WRITE_BUF_MAX : Z := DATA_SIZE.

(** [SRC_BUF] and [WRITE_BUF] as byte offsets from [SRAM_START]. *)
Definition SRC_BUF : Z := SRC_BUF_OFFSET * DATA_SIZE.
Definition WRITE_BUF : Z := WRITE_BUF_OFFSET * DATA_SIZE.

(** [p[i] = v] through a pointer [p] to [int32_t] that points [base] bytes
    after [SRAM_START]: four bytes at [base + 4 * i]. *)
Definition store_int32 (base i v : Z) : M unit :=
  m <- gets sram ;;
  m' <- defined (splice m (base + 4 * i) (le_bytes 4 v)) ;;
  modify (set_sram m').

(** ** zForth: the interpreter *)

Definition bool_cell (b : bool) : Z := if b then 1 else 0.

Definition input_eqb (a b : zf_input_state) : bool :=
  match a, b with
  | ZF_INPUT_INTERPRET, ZF_INPUT_INTERPRET => true
  | ZF_INPUT_PASS_CHAR, ZF_INPUT_PASS_CHAR => true
  | ZF_INPUT_PASS_WORD, ZF_INPUT_PASS_WORD => true
  | _, _ => false
  end.

(** [ip += dict_get_cell(ip, &d1)]: the cell [d1]. *)
Definition fetch_cell : M Z :=
  i <- gets ip ;;
  c <- dict_get_cell i ;;
  modify (set_ip (u32 (i + snd c))) ;;
  ret (fst c).

(** [do_prim(op, input)]; [input] is [None] for a null pointer, and
    [fuel] bounds the dictionary search of ['].  The switch has no case
    for [PRIM_SYS], which falls to [default] as the codes above
    [PRIM_DEVVDD] do. *)
Definition do_prim (fuel : nat) (op : Z) (input : option (list Z))
  : M unit :=
  match prim_of_code op with
  | Some PRIM_COL =>
      match input with
      | None => modify (set_input_state ZF_INPUT_PASS_WORD)
      | Some name =>
          create name 0 ;;
          modify (set_uservar ZF_USERVAR_COMPILING 1)
      end
  | Some PRIM_LTZ =>
      v <- zf_pop ;; zf_push (bool_cell (v <? 0))
  | Some PRIM_SEMICOL =>
      dict_add_op (prim_code PRIM_EXIT) ;;
      modify (set_uservar ZF_USERVAR_COMPILING 0)
  | Some PRIM_LIT =>
      d1 <- fetch_cell ;; zf_push d1
  | Some PRIM_EXIT =>
      v <- zf_popr ;; modify (set_ip (u32 v))
  | Some PRIM_LEN =>
      len <- zf_pop ;;
      addr <- zf_pop ;;
      r <- peek (u32 addr) (s32 (u32 len)) ;;
      zf_push (s32 (snd r))
  | Some PRIM_PEEK =>
      len <- zf_pop ;;
      addr <- zf_pop ;;
      r <- peek (u32 addr) (s32 (u32 len)) ;;
      zf_push (fst r)
  | Some PRIM_POKE =>
      d2 <- zf_pop ;;
      addr <- zf_pop ;;
      d1 <- zf_pop ;;
      if u32 addr <? ZF_USERVAR_COUNT then
        modify (set_uservar (u32 addr) d1)
      else
        dict_put_cell_typed (u32 addr) d1 d2 ;; ret tt
  | Some PRIM_SWAP =>
      d1 <- zf_pop ;; d2 <- zf_pop ;;
      zf_push d1 ;; zf_push d2
  | Some PRIM_ROT =>
      d1 <- zf_pop ;; d2 <- zf_pop ;; d3 <- zf_pop ;;
      zf_push d2 ;; zf_push d1 ;; zf_push d3
  | Some PRIM_DROP =>
      zf_pop ;; ret tt
  | Some PRIM_DUP =>
      d1 <- zf_pop ;;
      zf_push d1 ;; zf_push d1
  | Some PRIM_ADD =>
      d1 <- zf_pop ;; d2 <- zf_pop ;;
      zf_push (s32 (d1 + d2))
  | Some PRIM_PICK =>
      addr <- zf_pop ;;
      v <- zf_pick (u32 addr) ;;
      zf_push v
  | Some PRIM_PICKR =>
      addr <- zf_pop ;;
      v <- zf_pickr (u32 addr) ;;
      zf_push v
  | Some PRIM_SUB =>
      d1 <- zf_pop ;; d2 <- zf_pop ;;
      zf_push (s32 (d2 - d1))
  | Some PRIM_MUL =>
      a <- zf_pop ;; b <- zf_pop ;;
      zf_push (s32 (a * b))
  | Some PRIM_DIV =>
      d2 <- zf_pop ;;
      (if d2 =? 0 then zf_abort ZF_ABORT_DIVISION_BY_ZERO else ret tt) ;;
      d1 <- zf_pop ;;
      zf_push (s32 (Z.quot d1 d2))
  | Some PRIM_MOD =>
      d2 <- zf_pop ;;
      (if d2 =? 0 then zf_abort ZF_ABORT_DIVISION_BY_ZERO else ret tt) ;;
      d1 <- zf_pop ;;
      zf_push (s32 (Z.rem d1 d2))
  | Some PRIM_IMMEDIATE =>
      make_immediate
  | Some PRIM_JMP =>
      d1 <- fetch_cell ;;
      modify (set_ip (u32 d1))
  | Some PRIM_JMP0 =>
      d1 <- fetch_cell ;;
      v <- zf_pop ;;
      if v =? 0 then modify (set_ip (u32 d1)) else ret tt
  | Some PRIM_TICK =>
      c <- gets COMPILING ;;
      if negb (c =? 0) then
        d1 <- fetch_cell ;; zf_push d1
      else
        match input with
        | Some name =>
            f <- find_word fuel name ;;
            match f with
            | Some (_, code) => zf_push (s32 code)
            | None => zf_abort ZF_ABORT_INTERNAL_ERROR
            end
        | None => modify (set_input_state ZF_INPUT_PASS_WORD)
        end
  | Some PRIM_COMMA =>
      d2 <- zf_pop ;;
      d1 <- zf_pop ;;
      dict_add_cell_typed d1 d2
  | Some PRIM_COMMENT =>
      match input with
      | Some (c :: _) =>
          if c =? 41 then ret tt
          else modify (set_input_state ZF_INPUT_PASS_CHAR)
      | _ => modify (set_input_state ZF_INPUT_PASS_CHAR)
      end
  | Some PRIM_PUSHR =>
      v <- zf_pop ;; zf_pushr v
  | Some PRIM_POPR =>
      v <- zf_popr ;; zf_push v
  | Some PRIM_EQUAL =>
      a <- zf_pop ;; b <- zf_pop ;;
      zf_push (bool_cell (a =? b))
  | Some PRIM_KEY =>
      match input with
      | None => modify (set_input_state ZF_INPUT_PASS_CHAR)
      | Some l => zf_push (nth 0 l 0)
      end
  | Some PRIM_LITS =>
      d1 <- fetch_cell ;;
      i <- gets ip ;;
      zf_push (s32 i) ;;
      zf_push d1 ;;
      modify (set_ip (u32 (i + d1)))
  | Some PRIM_AND =>
      a <- zf_pop ;; b <- zf_pop ;;
      zf_push (Z.land a b)
  | Some PRIM_OR =>
      a <- zf_pop ;; b <- zf_pop ;;
      zf_push (Z.lor a b)
  | Some PRIM_XOR =>
      a <- zf_pop ;; b <- zf_pop ;;
      zf_push (Z.lxor a b)
  | Some PRIM_SHL =>
      d1 <- zf_pop ;;
      a <- zf_pop ;;
      if (0 <=? d1) && (d1 <? 32) then zf_push (s32 (Z.shiftl a d1))
      else undefined
  | Some PRIM_SHR =>
      d1 <- zf_pop ;;
      a <- zf_pop ;;
      if (0 <=? d1) && (d1 <? 32) then zf_push (Z.shiftr a d1)
      else undefined
  | Some PRIM_DEVREAD =>
      off <- zf_pop ;;
      m <- gets sram ;;
      b <- defined (load m off) ;;
      zf_push b
  | Some PRIM_EMIT =>
      d1 <- zf_pop ;;
      wp <- gets write_pos ;;
      store_int32 WRITE_BUF wp d1 ;;
      modify (set_write_pos (u32 (wp + 1))) ;;
      wp' <- gets write_pos ;;
      modify (set_write_pos (if wp' =? WRITE_BUF_MAX then 0 else wp'))
  | Some PRIM_DEVWRITE =>
      d1 <- zf_pop ;;
      d2 <- zf_pop ;;
      m <- gets sram ;;
      m' <- defined (store m d1 (u8 d2)) ;;
      modify (set_sram m')
  | Some PRIM_DEVTEMP =>
      t <- gets sensors ;; zf_push (s32 (fst t))
  | Some PRIM_DEVVDD =>
      t <- gets sensors ;; zf_push (s32 (snd t))
  | Some PRIM_SYS => zf_abort ZF_ABORT_INTERNAL_ERROR
  | None => zf_abort ZF_ABORT_INTERNAL_ERROR
  end.

(** [run(input)]: one unit of fuel per cell interpreted. *)
Fixpoint run (fuel : nat) (input : option (list Z)) : M unit :=
  match fuel with
  | O => timeout
  | S fuel' =>
      ip_org <- gets ip ;;
      if ip_org =? 0 then ret tt
      else
        c <- dict_get_cell ip_org ;;
        let code := u32 (fst c) in
        modify (set_ip (u32 (ip_org + snd c))) ;;
        if code <=? PRIM_COUNT then
          do_prim fuel' code input ;;
          st <- gets input_state ;;
          if negb (input_eqb st ZF_INPUT_INTERPRET) then
            modify (set_ip ip_org)
          else run fuel' None
        else
          i <- gets ip ;;
          zf_pushr (s32 i) ;;
          modify (set_ip code) ;;
          run fuel' None
  end.

Definition execute (fuel : nat) (addr : Z) : M unit :=
  modify (set_ip addr) ;;
  modify (set_rsp 0) ;;
  zf_pushr 0 ;;
  run fuel None.

Definition handle_word (fuel : nat) (buf : list Z) : M unit :=
  st <- gets input_state ;;
  if input_eqb st ZF_INPUT_PASS_WORD then
    modify (set_input_state ZF_INPUT_INTERPRET) ;;
    run fuel (Some buf)
  else
    found <- find_word fuel buf ;;
    match found with
    | Some (w, c) =>
        d <- dict_get_cell w ;;
        let flags := fst d in
        compiling <- gets COMPILING ;;
        postpone <- gets POSTPONE ;;
        if negb (compiling =? 0) &&
           (negb (postpone =? 0)
            || (Z.land flags ZF_FLAG_IMMEDIATE =? 0)) then
          (if negb (Z.land flags ZF_FLAG_PRIM =? 0) then
             d' <- dict_get_cell c ;;
             dict_add_op (u32 (fst d'))
           else dict_add_op c) ;;
          modify (set_uservar ZF_USERVAR_POSTPONE 0)
        else execute fuel c
    | None =>
        v <- zf_host_parse_num buf ;;
        compiling <- gets COMPILING ;;
        if negb (compiling =? 0) then dict_add_lit v else zf_push v
    end.

(** [handle_char(c)]; the token collected so far is [tok], of at most
    [sizeof(buf) - 1] characters. *)
Definition handle_char (fuel : nat) (c : Z) : M unit :=
  st <- gets input_state ;;
  if input_eqb st ZF_INPUT_PASS_CHAR then
    modify (set_input_state ZF_INPUT_INTERPRET) ;;
    run fuel (Some [c])
  else if negb (c =? 0) && negb (isspace c) then
    t <- gets tok ;;
    if Z.of_nat (length t) <? 32 - 1 then modify (set_tok (t ++ [c]))
    else ret tt
  else
    t <- gets tok ;;
    if 0 <? Z.of_nat (length t) then
      modify (set_tok []) ;;
      handle_word fuel t
    else ret tt.

(** The text handed to [zf_eval]: a string constant, or a string that
    lies in the memory surface, [addr] bytes after [SRAM_START]; the
    latter is read as it is when the interpreter comes to it. *)
Inductive source : Type :=
| Literal (text : list Z)
| InSram (addr : Z).

(** [buf[i]]. *)
Definition char_at (src : source) (i : Z) : M Z :=
  match src with
  | Literal text => ret (nth (Z.to_nat i) text 0)
  | InSram addr => m <- gets sram ;; defined (load m (addr + i))
  end.

Fixpoint zf_eval_loop (fuel : nat) (buf : source) (i : Z) : M unit :=
  match fuel with
  | O => timeout
  | S fuel' =>
      c <- char_at buf i ;;
      handle_char fuel' c ;;
      c' <- char_at buf i ;;
      if c' =? 0 then ret tt else zf_eval_loop fuel' buf (i + 1)
  end.

(** What [setjmp] returns after [longjmp(jmpbuf, reason)]: never 0. *)
Definition setjmp_value (reason : zf_result) : zf_result :=
  match reason with
  | ZF_OK => ZF_ABORT_INTERNAL_ERROR
  | r => r
  end.

(** [zf_eval(buf)]: the branch taken when [setjmp] returns a second time
    clears [COMPILING] and both stack pointers. *)
Definition zf_eval (fuel : nat) (buf : source) : M zf_result :=
  fun s =>
    match zf_eval_loop fuel buf 0 s with
    | Ok _ s' => Ok ZF_OK s'
    | Abort reason s' =>
        Ok (setjmp_value reason)
           (set_dsp 0 (set_rsp 0 (set_uservar ZF_USERVAR_COMPILING 0 s')))
    | Undefined => Undefined
    | Timeout => Timeout
    end.

(** *** Initialisation *)

Definition zf_init (enable_trace : Z) : M unit :=
  modify (set_uservar ZF_USERVAR_HERE (ZF_USERVAR_COUNT * 4)) ;;
  modify (set_uservar ZF_USERVAR_TRACE enable_trace) ;;
  modify (set_uservar ZF_USERVAR_LATEST 0) ;;
  modify (set_dsp 0) ;;
  modify (set_rsp 0) ;;
  modify (set_uservar ZF_USERVAR_COMPILING 0).

(** The names of the table [prim_names], one per primitive. *)
Definition prim_names : list (list Z) :=
  [ str "exit"; str "lit"; str "<0"; str ":"; str "_;"; str "+";
    str "-"; str "*"; str "/"; str "%"; str "drop"; str "dup";
    str "pickr"; str "_immediate"; str "@@"; str "!!"; str "swap";
    str "rot"; str "jmp"; str "jmp0"; str "'"; str "_("; str ">r";
    str "r>"; str "="; str "sys"; str "pick"; str ",,"; str "key";
    str "lits"; str "##"; str "&"; str "|"; str "^"; str "<<"; str ">>";
    str "."; str "@D"; str "!D"; str "@T"; str "@V" ].

Definition uservar_names : list (list Z) :=
  [ str "h"; str "latest"; str "trace"; str "compiling"; str "_postpone" ].

Definition add_prim (name : list Z) (op : Z) : M unit :=
  let imm := match name with c :: _ => c =? 95 | [] => false end in
  let name := if imm then skipn 1 name else name in
  create name ZF_FLAG_PRIM ;;
  dict_add_op op ;;
  dict_add_op (prim_code PRIM_EXIT) ;;
  if imm then make_immediate else ret tt.

Definition add_uservar (name : list Z) (addr : Z) : M unit :=
  create name 0 ;;
  dict_add_lit (s32 addr) ;;
  dict_add_op (prim_code PRIM_EXIT).

(** The two loops of [zf_bootstrap], [i] counting from 0. *)
Fixpoint add_all (add : list Z -> Z -> M unit) (names : list (list Z))
  (i : Z) : M unit :=
  match names with
  | [] => ret tt
  | p :: tl => add p i ;; add_all add tl (i + 1)
  end.

Definition zf_bootstrap : M unit :=
  add_all add_prim prim_names 0 ;;
  add_all add_uservar uservar_names 0.

(** *** The words defined in Forth at start-up ([std_lib]) *)

Definition std_lib : list Z :=
  concat [
    str ": .. dup . ; " ++ [10];
    str ": cr 10 . ; " ++ [10];
    str ": br 32 . ; " ++ [10];
    str ": !    0 !! ; " ++ [10];
    str ": @    0 @@ ; " ++ [10];
    str ": ,    0 ,, ; " ++ [10];
    str ": #    0 ## ; " ++ [10];
    str ": [ 0 compiling ! ; immediate " ++ [10];
    str ": ] 1 compiling ! ; " ++ [10];
    str ": postpone 1 _postpone ! ; immediate " ++ [10];
    str ": 1+ 1 + ; " ++ [10];
    str ": 1- 1 - ; " ++ [10];
    str ": over 1 pick ;" ++ [10];
    str ": +!   dup @ rot + swap ! ; " ++ [10];
    str ": inc  1 swap +! ; " ++ [10];
    str ": dec  -1 swap +! ; " ++ [10];
    str ": <    - <0 ; " ++ [10];
    str ": >    swap < ; " ++ [10];
    str ": <=   over over >r >r < r> r> = + ; " ++ [10];
    str ": >=   swap <= ; " ++ [10];
    str ": =0   0 = ; " ++ [10];
    str ": not  =0 ; " ++ [10];
    str ": !=   = not ; " ++ [10];
    str ": here h @ ; " ++ [10];
    str ": begin here ; immediate " ++ [10];
    str ": again ' jmp , , ; immediate " ++ [10];
    str ": until ' jmp0 , , ; immediate " ++ [10];
    str ": { ' lit , 0 , ' >r , here ; immediate " ++ [10];
    str ": x} ' r> , ' 1+ , ' dup , ' >r , ' = , postpone until ' r"
      ++ str "> , ' drop , ; immediate " ++ [10];
    str ": exe ' lit , here dup , ' >r , ' >r , ' exit , here swap "
      ++ str "! ; immediate " ++ [10];
    str ": times { >r dup >r exe r> r> dup x} drop drop ; " ++ [10];
    str ": if      ' jmp0 , here 999 , ; immediate " ++ [10];
    str ": unless  ' not , postpone if ; immediate " ++ [10];
    str ": else    ' jmp , here 999 , swap here swap ! ; immediate " ++ [10];
    str ": fi      here swap ! ; immediate " ++ [10];
    str ": i ' lit , 0 , ' pickr , ; immediate " ++ [10];
    str ": j ' lit , 2 , ' pickr , ; immediate " ++ [10];
    str ": do ' swap , ' >r , ' >r , here ; immediate " ++ [10];
    str ": loop+ ' r> , ' + , ' dup , ' >r , ' lit , 1 , ' pickr , "
      ++ str "' > , ' jmp0 , , ' r> , ' drop , ' r> , ' drop , ; immedia"
      ++ str "te " ++ [10];
    str ": loop ' lit , 1 , postpone loop+ ;  immediate " ++ [10];
    str ": s" ++ [34]
      ++ str " compiling @ if ' lits , here 0 , fi here begin key dup 34"
      ++ str " = if drop compiling @ if here swap - swap ! else dup here"
      ++ str " swap - fi exit else , fi again ; immediate " ++ [10] ].

Definition init_interpreter (fuel : nat) : M unit :=
  zf_init 0 ;;
  zf_bootstrap ;;
  zf_eval fuel (Literal std_lib) ;;
  ret tt.

Definition eval_cmd (fuel : nat) (cmd : source) : M Z :=
  res <- zf_eval fuel cmd ;;
  ret (zf_result_code res).

(** ** The node ([main.c], [sramplatform.c]) *)

(** The byte step of the CRC-16, a collaborator of the firmware. *)
Variable crc16_byte : Z -> Z -> Z.

(** Modelled from the spec: the command tags and the option selectors of
    [sramplatform.h], whose values are not fixed by the spec. *)
Variables PING READ WRITE SENSORS LOAD EXEC RETR ACK ERR : Z.
Variables OWN ALL TEMP VDD : Z.

(** The first entry of the vector table, which holds the end of the RAM,
    the three calibration words and the bytes of the identity region. *)
Variable g_pfnVectors0 : Z.
Variables vdd_cal temp30_cal temp110_cal : Z.
Variable chip_id : Z -> Z.

(** [crc16(crc, buffer, len)]; the running value is a [uint16_t]. *)
Definition crc16 (crc : Z) (buffer : list Z) (len : Z) : Z :=
  fold_left (fun c b => u16 (crc16_byte c b))
    (firstn (Z.to_nat len) buffer) crc.

(** *** The identity *)

Definition hex_digit (d : Z) : Z := if d <? 10 then 48 + d else 55 + d.

(** The conversion [%08X] of a [uint32_t]. *)
Fixpoint hex_digits (n : nat) (w : Z) : list Z :=
  match n with
  | O => []
  | S k => hex_digits k (w / 16) ++ [hex_digit (w mod 16)]
  end.

Definition id_word (p : Z) : Z :=
  u32 (Z.shiftl (u8 (chip_id p)) 24 + Z.shiftl (u8 (chip_id (p + 1))) 16
       + Z.shiftl (u8 (chip_id (p + 2))) 8 + u8 (chip_id (p + 3))).

(** [collect_bid(uid_buf)]: the [UID_SIZE] bytes left in [uid_buf] by
    [snprintf]. *)
Definition collect_bid : list Z :=
  let uid0 := id_word 536346832 in          (* 0x1FF800D0 *)
  let uid1 := id_word (536346832 + 4) in
  let uid2 := id_word 536346851 in          (* 0x1FF800E3 *)
  firstn (Z.to_nat UID_SIZE - 1)
    (hex_digits 8 uid0 ++ hex_digits 8 uid1 ++ hex_digits 8 uid2) ++ [0].

(** The array [UID], filled once by [collect_bid(UID)] before the loop. *)
Definition UID : list Z := collect_bid.

(** Modelled from the spec: the macro [STR_MATCH] of [sramplatform.h] is
    the equality of the [UID_SIZE] bytes of the two arrays. *)
Definition STR_MATCH (a b : list Z) : bool :=
  bytes_eqb (firstn (Z.to_nat UID_SIZE) a) (firstn (Z.to_nat UID_SIZE) b).

(** [strcpy(dst, src)] into an array [dst]: the characters of [src] up to
    its NUL and the NUL; [None] when [src] holds no NUL or [dst] is too
    short. *)
Fixpoint strcpy (dst src : list Z) : option (list Z) :=
  match src, dst with
  | c :: src', _ :: dst' =>
      if c =? 0 then Some (0 :: dst')
      else option_map (cons c) (strcpy dst' src')
  | _, _ => None
  end.

(** *** Packets in and out *)

(** Modelled from the spec: [packet_t] of [sramplatform.h] holds its fields
    in the order and widths of the wire, so the [PACKET_SIZE] bytes that
    [memcpy] takes from a packet are the ones [send_packet] transmits. *)
Definition packet_image (p : packet_t) : list Z := send_packet DATA_SIZE p.

Definition log (e : event) : M unit :=
  modify (fun s => set_trace (trace s ++ [e]) s).

(** [send_packet(uart, &packet)]: the six transmissions as one. *)
Definition send (u : uart) : M unit :=
  p <- gets packet ;;
  log (Transmit u (send_packet DATA_SIZE p)).

Definition update_packet (f : packet_t -> packet_t) : M unit :=
  modify (fun s => set_packet (f (packet s)) s).

(** [buffer[i] = 0] for the two checksum bytes. *)
Definition zero_checksum_bytes : M unit :=
  b <- gets buffer ;;
  b' <- defined (splice b (PACKET_SIZE DATA_SIZE - 2) [0; 0]) ;;
  modify (set_buffer b').

(** [packet.checksum = make_crc(&packet, buffer)]. *)
Definition make_crc : M Z :=
  p <- gets packet ;;
  modify (set_buffer (packet_image p)) ;;
  zero_checksum_bytes ;;
  b <- gets buffer ;;
  ret (crc16 0 b (PACKET_SIZE DATA_SIZE)).

Definition refresh_checksum : M unit :=
  c <- make_crc ;;
  update_packet (set_checksum c).

(** [read_sram] and [write_sram]; the offset is a [uint16_t]. *)
Definition read_sram (offset : Z) : M (list Z) :=
  m <- gets sram ;;
  defined (slice m (u16 offset * DATA_SIZE) DATA_SIZE).

Definition write_sram (offset : Z) (src : list Z) : M unit :=
  m <- gets sram ;;
  m' <- defined (splice m (u16 offset * DATA_SIZE)
                   (firstn (Z.to_nat DATA_SIZE) src)) ;;
  modify (set_sram m').

Definition sram_size : Z := u32 (u32 g_pfnVectors0 - SRAM_ADDRESS).

(** [packet.data[i] = ...] for the first bytes of the payload. *)
Definition fill_data (bs : list Z) : M unit :=
  p <- gets packet ;;
  d <- defined (splice (data p) 0 bs) ;;
  update_packet (set_data d).

Definition lo (w : Z) : Z := Z.land w 255.
Definition hi (w : Z) : Z := Z.land (Z.shiftr w 8) 255.

(** The branch every addressed command takes for a foreign uid. *)
Definition forward_down : M unit :=
  refresh_checksum ;;
  send huart3 ;;
  log RESET_DOWNWARDS ;;
  log RESET_UPWARDS.

Definition reply_up : M unit :=
  refresh_checksum ;;
  send huart1 ;;
  log RESET_UPWARDS.

(** *** The main loop *)

(** The reception of a packet on the up-link: the DMA fills [buffer] and
    [HAL_UART_RxCpltCallback] adds its length to [bytes_rx]. *)
Definition receive (rx : list Z) : M unit :=
  modify (set_buffer rx) ;;
  n <- gets bytes_rx ;;
  modify (set_bytes_rx (n + PACKET_SIZE DATA_SIZE)).

Definition ping : M unit :=
  p <- gets packet ;;
  if options p =? OWN then
    (if STR_MATCH UID (uid p) then
       update_packet (set_options sram_size) ;;
       update_packet (set_command (u8 ACK)) ;;
       refresh_checksum ;;
       send huart1
     else
       send huart3 ;;
       log RESET_DOWNWARDS) ;;
    log RESET_UPWARDS
  else if options p =? ALL then
    u <- defined (strcpy (uid p) UID) ;;
    update_packet (set_uid u) ;;
    update_packet (set_options sram_size) ;;
    update_packet (set_command (u8 ACK)) ;;
    refresh_checksum ;;
    send huart1 ;;
    log RESET_UPWARDS ;;
    update_packet (set_command (u8 PING)) ;;
    update_packet (set_options (u32 ALL)) ;;
    refresh_checksum ;;
    send huart3 ;;
    log RESET_DOWNWARDS
  else ret tt.

Definition sensors_payload (temp vdd : Z) : M unit :=
  p <- gets packet ;;
  if options p =? ALL then
    fill_data [ lo temp110_cal; hi temp110_cal; lo temp30_cal; hi temp30_cal;
                lo temp; hi temp; lo vdd_cal; hi vdd_cal; lo vdd; hi vdd ]
  else if options p =? TEMP then
    fill_data [ lo temp110_cal; hi temp110_cal; lo temp30_cal; hi temp30_cal;
                lo temp; hi temp ]
  else if options p =? VDD then
    fill_data [ lo vdd_cal; hi vdd_cal; lo vdd; hi vdd ]
  else ret tt.

(** [switch (packet.command)]. *)
Definition dispatch (fuel : nat) (temp vdd : Z) : M unit :=
  p <- gets packet ;;
  let local := STR_MATCH UID (uid p) in
  if command p =? PING then ping
  else if command p =? READ then
    if negb local then forward_down
    else
      update_packet (set_command (u8 ACK)) ;;
      d <- read_sram (options p) ;;
      update_packet (set_data d) ;;
      reply_up
  else if command p =? WRITE then
    if negb local then forward_down
    else
      write_sram (options p) (data p) ;;
      update_packet (set_command (u8 ACK)) ;;
      reply_up
  else if command p =? SENSORS then
    if negb local then forward_down
    else
      sensors_payload temp vdd ;;
      update_packet (set_command (u8 ACK)) ;;
      reply_up
  else if command p =? LOAD then
    if local then
      m <- gets sram ;;
      m' <- defined (splice m (u32 (SRC_BUF + u32 (DATA_SIZE * options p)))
                       (firstn (Z.to_nat DATA_SIZE) (data p))) ;;
      modify (set_sram m') ;;
      update_packet (set_command (u8 ACK)) ;;
      reply_up
    else forward_down
  else if command p =? EXEC then
    if local then
      (if options p =? 1 then modify (set_write_pos 0) else ret tt) ;;
      r <- eval_cmd fuel (InSram SRC_BUF) ;;
      update_packet (set_options (u32 r)) ;;
      update_packet (set_command (u8 ACK)) ;;
      reply_up
    else forward_down
  else if command p =? RETR then
    if local then
      m <- gets sram ;;
      d <- defined (slice m (u32 (WRITE_BUF + 4 * u32 (DATA_SIZE * options p)))
                      DATA_SIZE) ;;
      update_packet (set_data d) ;;
      update_packet (set_command (u8 ACK)) ;;
      reply_up
    else forward_down
  else
    (* case (ERR): default: *)
    reply_up.

(** The body of [while (1)] once [bytes_rx] has reached [PACKET_SIZE]. *)
Definition handle_packet (fuel : nat) : M unit :=
  modify (set_bytes_rx 0) ;;
  t <- gets sensors ;;
  let temp := u16 (fst t) in
  let vdd := u16 (snd t) in
  b <- gets buffer ;;
  modify (set_packet (parse_packet DATA_SIZE b)) ;;
  update_packet (fun p => set_pic (u8 (pic p + 1)) p) ;;
  zero_checksum_bytes ;;
  b0 <- gets buffer ;;
  modify (set_checksum_var (crc16 0 b0 (PACKET_SIZE DATA_SIZE))) ;;
  c <- gets checksum_var ;;
  p <- gets packet ;;
  (if negb (c =? checksum p) then
     update_packet (set_command (u8 ERR)) ;;
     update_packet (set_options 1) ;;
     refresh_checksum ;;
     send huart1 ;;
     log RESET_UPWARDS
   else ret tt) ;;
  dispatch fuel temp vdd.

(** One turn of the loop. *)
Definition main_loop (fuel : nat) : M unit :=
  n <- gets bytes_rx ;;
  if n <? PACKET_SIZE DATA_SIZE then ret tt else handle_packet fuel.

(** A packet arrives on the up-link and the loop takes it. *)
Definition serve (fuel : nat) (rx : list Z) : M unit :=
  receive rx ;;
  main_loop fuel.

End Firmware.

(** ** A sample platform

    Values for the parameters of the development, on which the properties
    are exercised: a payload of 31 bytes (the packet of 64 bytes of the
    spec), tags and selectors numbered in the order of the spec, the byte
    step of the CRC-16 with polynomial 0xA001, a RAM of 2 KiB and an
    arbitrary identity region. *)
Module Sample.

Definition DATA_SIZE : Z := 31.

Definition crc16_byte (crc data : Z) : Z :=
  Nat.iter 8
    (fun c => if Z.odd c then Z.lxor (Z.shiftr c 1) 40961 else Z.shiftr c 1)
    (Z.lxor crc data).

Definition PING : Z := 1.
Definition READ : Z := 2.
Definition WRITE : Z := 3.
Definition SENSORS : Z := 4.
Definition LOAD : Z := 5.
Definition EXEC : Z := 6.
Definition RETR : Z := 7.
Definition ACK : Z := 8.
Definition ERR : Z := 9.

Definition OWN : Z := 0.
Definition ALL : Z := 1.
Definition TEMP : Z := 2.
Definition VDD : Z := 3.

Definition g_pfnVectors0 : Z := SRAM_ADDRESS + 2048.
Definition vdd_cal : Z := 1650.
Definition temp30_cal : Z := 680.
Definition temp110_cal : Z := 856.
Definition chip_id (p : Z) : Z := (7 * p + 3) mod 256.

Definition UID : list Z := UID chip_id.

Definition foreign_uid : list Z := str "0123456789ABCDEF01234567" ++ [0].

(** The variables as the start-up code leaves them, the memory surface
    holding the bytes [m]. *)
Definition power_on (m : list Z) : state :=
  {| dict := repeat 0 (Z.to_nat ZF_DICT_SIZE);
     rstack := repeat 0 (Z.to_nat ZF_RSTACK_SIZE);
     dstack := repeat 0 (Z.to_nat ZF_DSTACK_SIZE);
     input_state := ZF_INPUT_INTERPRET;
     dsp := 0; rsp := 0; ip := 0;
     tok := [];
     sram := m;
     write_pos := 0;
     sensors := (1234, 1480);
     packet := mkPacket 0 0 0 (repeat 0 25) (repeat 0 (Z.to_nat DATA_SIZE)) 0;
     buffer := repeat 0 (Z.to_nat (PACKET_SIZE DATA_SIZE));
     checksum_var := 0;
     bytes_rx := 0;
     trace := [] |}.

(** A memory surface whose bytes differ from place to place. *)
Definition ramp : list Z :=
  map (fun i => Z.of_nat i mod 251) (seq 0 2048).

Definition fuel : nat := 100 * 1000.

(** The state in which a call returns. *)
Definition state_of {A : Type} (r : result A) (default : state) : state :=
  match r with
  | Ok _ s => s
  | _ => default
  end.

(** A request of the controller: the packet with its checksum in place. *)
Definition request (cmd opts : Z) (u d : list Z) : list Z :=
  let p := mkPacket cmd 0 opts u d 0 in
  let image := send_packet DATA_SIZE p in
  send_packet DATA_SIZE
    (set_checksum (crc16 crc16_byte 0 image (PACKET_SIZE DATA_SIZE)) p).

(** The node of the sample platform. *)
Definition serve (rx : list Z) : M unit :=
  serve DATA_SIZE crc16_byte PING READ WRITE SENSORS LOAD EXEC RETR ACK ERR
    OWN ALL TEMP VDD g_pfnVectors0 vdd_cal temp30_cal temp110_cal chip_id
    fuel rx.

(** The state after [zf_init] and [zf_bootstrap], and the state in which
    the main loop starts, after [init_interpreter]. *)
Definition bootstrapped : state := Eval vm_compute in
  state_of ((zf_init 0 ;; zf_bootstrap) (power_on ramp)) (power_on ramp).

Definition started : state := Eval vm_compute in
  state_of (init_interpreter DATA_SIZE fuel (power_on ramp)) (power_on ramp).

(** The state in which a call aborts. *)
Definition abort_state {A : Type} (r : result A) (default : state) : state :=
  match r with
  | Abort _ s => s
  | _ => default
  end.

(** Frames of the controller, and one damaged on the way. *)
Definition zeros : list Z := repeat 0 (Z.to_nat DATA_SIZE).

Definition read_for_other : list Z := request READ 0 foreign_uid zeros.
Definition ping_all : list Z := request PING ALL foreign_uid zeros.
Definition retr_block_1 : list Z := request RETR 1 UID zeros.
Definition exec_reset : list Z := request EXEC 1 UID zeros.

Definition program : list Z :=
  str ": inc 1 + ; 41 inc . " ++ repeat 0 10.

Definition load_program : list Z := request LOAD 0 UID program.
Definition retr_block_0 : list Z := request RETR 0 UID zeros.

Definition damaged : list Z :=
  match request SENSORS ALL UID zeros with
  | c :: h :: o :: tl => c :: h :: (o + 1) :: tl
  | l => l
  end.

(** A packet record, for the codec. *)
Definition some_packet : packet_t :=
  mkPacket READ 7 (2 ^ 31 + 5) foreign_uid
    (map (fun i => Z.of_nat i) (seq 100 31)) 4660.

(** The interpreter with cells on its data stack (the last one pushed is
    on top). *)
Definition with_stack (vs : list Z) : state :=
  state_of (fold_left (fun m v => m ;; zf_push v) vs (ret tt) bootstrapped)
    bootstrapped.

End Sample.

(** ** Vocabulary of the properties *)

(** The dictionary has the size of its declaration. *)
Definition dict_sized (s : state) : Prop :=
  length (dict s) = Z.to_nat ZF_DICT_SIZE.

(** A cell seen through a size selector: cut to the width of the selector
    and read back with its signedness. *)
Definition truncated (size v : Z) : Z :=
  if size =? ZF_MEM_SIZE_U8 then v mod 2 ^ 8
  else if size =? ZF_MEM_SIZE_U16 then v mod 2 ^ 16
  else if size =? ZF_MEM_SIZE_S8 then sint 8 v
  else if size =? ZF_MEM_SIZE_S16 then sint 16 v
  else v.

(** The number of bytes a cell takes under a size selector. *)
Definition stored_bytes (size v : Z) : Z :=
  if size =? ZF_MEM_SIZE_VAR then
    if (0 <=? v) && (v <? 128) then 1
    else if (0 <=? v) && (v <? 16384) then 2
    else 5
  else if (size =? ZF_MEM_SIZE_U8) || (size =? ZF_MEM_SIZE_S8) then 1
  else if (size =? ZF_MEM_SIZE_U16) || (size =? ZF_MEM_SIZE_S16) then 2
  else 4.

(** The state once the bytes [bs] lie in the dictionary from [addr] on. *)
Definition written (s : state) (addr : Z) (bs : list Z) : state :=
  set_dict (overwrite (dict s) (Z.to_nat addr) bs) s.

(** The reasons [zf_abort] is called with when the boundary checks are not
    compiled in. *)
Definition allowed (r : zf_result) : Prop :=
  r = ZF_ABORT_INTERNAL_ERROR \/ r = ZF_ABORT_NOT_A_WORD \/
  r = ZF_ABORT_INVALID_SIZE \/ r = ZF_ABORT_DIVISION_BY_ZERO.

(** A computation that aborts with an allowed reason only and leaves the
    dictionary with its size. *)
Definition safe {A : Type} (m : M A) : Prop :=
  forall s,
    match m s with
    | Ok _ s' => dict_sized s -> dict_sized s'
    | Abort r s' => allowed r /\ (dict_sized s -> dict_sized s')
    | Undefined => True
    | Timeout => True
    end.

(** The cells [vs] lie on top of the stack [a] whose pointer is [n], the
    first of them uppermost. *)
Fixpoint on_top (a : list Z) (n : Z) (vs : list Z) : Prop :=
  match vs with
  | [] => True
  | v :: tl => load a (n - 1) = Some v /\ on_top a (n - 1) tl
  end.

Definition dstack_top (s : state) (vs : list Z) : Prop :=
  Z.of_nat (length (dstack s)) = ZF_DSTACK_SIZE /\
  Z.of_nat (length vs) <= dsp s <= ZF_DSTACK_SIZE /\
  on_top (dstack s) (dsp s) vs.

(** The five results that report a stack or a dictionary bound. *)
Definition boundary_reasons : list zf_result :=
  [ ZF_ABORT_DSTACK_UNDERRUN; ZF_ABORT_DSTACK_OVERRUN;
    ZF_ABORT_RSTACK_UNDERRUN; ZF_ABORT_RSTACK_OVERRUN;
    ZF_ABORT_OUTSIDE_MEM ].

(** What the second return of [setjmp] in [zf_eval] does to the state. *)
Definition unwound (s : state) : state :=
  set_dsp 0 (set_rsp 0 (set_uservar ZF_USERVAR_COMPILING 0 s)).

(** The interpreter's variables, and the part of the state a command that
    is not for this node must leave alone: the memory surface (with
    [SRC_BUF] and [WRITE_BUF] inside), [write_pos] and the interpreter. *)
Definition vm_part (s : state)
  : list Z * list Z * list Z * zf_input_state * Z * Z * Z * list Z :=
  (dict s, rstack s, dstack s, input_state s, dsp s, rsp s, ip s, tok s).

Definition untouched (s s' : state) : Prop :=
  sram s' = sram s /\ write_pos s' = write_pos s /\ vm_part s' = vm_part s.

Section NodeVocabulary.

Variable DATA_SIZE : Z.
Variable crc16_byte : Z -> Z -> Z.

(** The CRC-16 of a received buffer, computed with the two checksum bytes
    at 0, and the frames whose checksum field holds it. *)
Definition frame_crc (rx : list Z) : Z :=
  crc16 crc16_byte 0
    (overwrite rx (Z.to_nat (PACKET_SIZE DATA_SIZE - 2)) [0; 0])
    (PACKET_SIZE DATA_SIZE).

Definition intact (rx : list Z) : Prop :=
  frame_crc rx = checksum (parse_packet DATA_SIZE rx).

(** The packet with the checksum [make_crc] computes for it. *)
Definition sealed (p : packet_t) : packet_t :=
  set_checksum (frame_crc (packet_image DATA_SIZE p)) p.

(** The packet as the node holds it after the reception: the hop counter
    is one up. *)
Definition hop (p : packet_t) : packet_t := set_pic (u8 (pic p + 1)) p.

(** The arrays of a packet have their sizes. *)
Definition packet_shaped (p : packet_t) : Prop :=
  length (uid p) = Z.to_nat UID_SIZE /\
  length (data p) = Z.to_nat DATA_SIZE.

End NodeVocabulary.

(** The tags are single bytes and the labels of [switch (packet.command)]
    differ from each other, as C asks of case labels. *)
Definition tags_ok (PING READ WRITE SENSORS LOAD EXEC RETR ACK ERR : Z)
  : Prop :=
  NoDup [PING; READ; WRITE; SENSORS; LOAD; EXEC; RETR; ERR] /\
  Forall is_byte [PING; READ; WRITE; SENSORS; LOAD; EXEC; RETR; ACK; ERR].

Section ArrivalVocabulary.

Variable DATA_SIZE : Z.
Variable crc16_byte : Z -> Z -> Z.

(** The variables once [handle_packet] has decoded the frame [rx] and
    computed its CRC. *)
Definition arrived (rx : list Z) (s : state) : state :=
  set_checksum_var (frame_crc DATA_SIZE crc16_byte rx)
    (set_buffer
       (overwrite rx (Z.to_nat (PACKET_SIZE DATA_SIZE - 2)) [0; 0])
       (set_packet (hop (parse_packet DATA_SIZE rx)) (set_bytes_rx 0 s))).

(** The variables once [make_crc] has run and the packet [p] carries the
    checksum. *)
Definition refreshed (p : packet_t) (s : state) : state :=
  set_packet (sealed DATA_SIZE crc16_byte p)
    (set_buffer
       (overwrite (packet_image DATA_SIZE p)
          (Z.to_nat (PACKET_SIZE DATA_SIZE - 2)) [0; 0]) s).

(** The events appended to the trace. *)
Definition logged (es : list event) (s : state) : state :=
  set_trace (trace s ++ es) s.

End ArrivalVocabulary.

(** ** The rest of the interface *)

(** [zf_uservar_set(uv, v)]; [uv] is the number of the enumerator, which
    the comparison takes as unsigned. *)
Definition zf_uservar_set (uv v : Z) : M zf_result :=
  if uv <? ZF_USERVAR_COUNT then
    modify (set_uservar uv v) ;;
    ret ZF_OK
  else ret ZF_ABORT_INVALID_USERVAR.

(** [zf_uservar_get(uv, v)]: the result and what is left in [*v];
    [v_given] tells that the pointer [v] is not null. *)
Definition zf_uservar_get (uv : Z) (v_given : bool)
  : M (zf_result * option Z) :=
  if uv <? ZF_USERVAR_COUNT then
    if v_given then
      x <- gets (uservar uv) ;;
      ret (ZF_OK, Some (s32 x))
    else ret (ZF_OK, None)
  else ret (ZF_ABORT_INVALID_USERVAR, None).

(** [send_buffer(uart, buffer, buf_len)]. *)
Definition send_buffer (u : uart) (buffer : list Z) (buf_len : Z) : M unit :=
  log (Transmit u (firstn (Z.to_nat buf_len) buffer)).

(** [HAL_UART_RxCpltCallback(huart)]: [huart1] is the handle whose instance
    is USART1 and [huart3] the one of USART3; [transport_buffer] holds what
    the DMA has received on the down-link, and the call of
    [HAL_UART_Receive_DMA] on [huart3] is the re-arming of the down-link. *)
Definition HAL_UART_RxCpltCallback (DATA_SIZE : Z) (huart : uart)
  (RxXferSize : Z) (transport_buffer : list Z) : M unit :=
  (match huart with
   | huart1 =>
       n <- gets bytes_rx ;;
       modify (set_bytes_rx (n + RxXferSize))
   | huart3 => ret tt
   end) ;;
  match huart with
  | huart3 =>
      send_buffer huart1 transport_buffer (PACKET_SIZE DATA_SIZE) ;;
      log RESET_DOWNWARDS
  | huart1 => ret tt
  end.

(** ** More vocabulary *)

(** The two digits of a byte under [%02X]. *)
Definition hex_byte (b : Z) : list Z :=
  [hex_digit (b / 16); hex_digit (b mod 16)].

(** The characters [0] to [9] and [A] to [F]. *)
Definition is_hex_digit (c : Z) : Prop :=
  48 <= c <= 57 \/ 65 <= c <= 70.

(** The addresses of the twelve identity bytes, in the order in which
    [collect_bid] prints them. *)
Definition identity_bytes : list Z :=
  map (fun i => 536346832 + Z.of_nat i) (seq 0 8)
  ++ map (fun i => 536346851 + Z.of_nat i) (seq 0 4).

(** The variables of [main.c] that no function of [zforth.c] writes. *)
Definition node_part (s : state)
  : packet_t * list Z * Z * Z * (Z * Z) * list event :=
  (packet s, buffer s, checksum_var s, bytes_rx s, sensors s, trace s).

(** A computation that leaves them as they are, however it ends. *)
Definition quiet {A : Type} (m : M A) : Prop :=
  forall s,
    match m s with
    | Ok _ s' => node_part s' = node_part s
    | Abort _ s' => node_part s' = node_part s
    | Undefined => True
    | Timeout => True
    end.

Section ReplyVocabulary.

Variable DATA_SIZE : Z.
Variable crc16_byte : Z -> Z -> Z.

(** The variables once the packet [a] has gone out on the up-link with
    its checksum and the reception has been re-armed. *)
Definition replied (a : packet_t) (s : state) : state :=
  logged [Transmit huart1 (send_packet DATA_SIZE (sealed DATA_SIZE crc16_byte a));
          RESET_UPWARDS]
    (refreshed DATA_SIZE crc16_byte a s).

(** A frame the loop takes and finds whole: [PACKET_SIZE] bytes whose
    checksum field holds their CRC, the byte count not being negative. *)
Definition taken (rx : list Z) (s : state) : Prop :=
  Z.of_nat (length rx) = PACKET_SIZE DATA_SIZE /\ 0 <= bytes_rx s /\
  intact DATA_SIZE crc16_byte rx.

End ReplyVocabulary.

(** ** Vocabulary of the dictionary *)

(** The bytes of a cell under the variable-length encoding: one byte for
    0 to 127, two for 128 to 16383, and the byte 255 with the four bytes
    of the cell for the rest. *)
Definition var_bytes (v : Z) : list Z :=
  if (0 <=? v) && (v <? 128) then [v]
  else if (0 <=? v) && (v <? 16384) then
    [Z.lor (Z.shiftr v 8) 128; v mod 256]
  else 255 :: le_bytes 4 v.

(** The bytes [bs] lie in the dictionary from the address [a] on. *)
Definition holds (s : state) (a : Z) (bs : list Z) : Prop :=
  sub (dict s) (Z.to_nat a) (length bs) = bs.

(** The first address after the user variables. *)
Definition ZF_USERVAR_END : Z := ZF_USERVAR_COUNT * 4.

(** The header of a word: the cell of length and flags, the link to the
    word defined before, the name. *)
Definition word_header (lenflags link : Z) (name : list Z) : list Z :=
  var_bytes lenflags ++ var_bytes link ++ name.

(** The state once the bytes [bs] have been added at [HERE]. *)
Definition appended (s : state) (bs : list Z) : state :=
  set_uservar ZF_USERVAR_HERE (HERE s + Z.of_nat (length bs))
    (written s (HERE s) bs).

(** Everything but the dictionary. *)
Definition beside_dict (s : state)
  : list Z * list Z * zf_input_state * Z * Z * Z * list Z * list Z * Z
    * (packet_t * list Z * Z * Z * (Z * Z) * list event) :=
  (rstack s, dstack s, input_state s, dsp s, rsp s, ip s, tok s, sram s,
   write_pos s, node_part s).

(** ** Vocabulary of the stacks *)

(** The cells [vs] lie on top of the return stack, the first of them
    uppermost. *)
Definition rstack_top (s : state) (vs : list Z) : Prop :=
  Z.of_nat (length (rstack s)) = ZF_RSTACK_SIZE /\
  Z.of_nat (length vs) <= rsp s <= ZF_RSTACK_SIZE /\
  on_top (rstack s) (rsp s) vs.

(** Everything but the data stack and its pointer. *)
Definition beside_dstack (s : state)
  : list Z * list Z * zf_input_state * Z * Z * list Z * list Z * Z
    * (packet_t * list Z * Z * Z * (Z * Z) * list event) :=
  (dict s, rstack s, input_state s, rsp s, ip s, tok s, sram s, write_pos s,
   node_part s).

Section PrimVocabulary.

Variable DATA_SIZE : Z.

(** The primitive [op] returns and turns the data stack [before] into the
    data stack [after] (uppermost cell first), whatever lies below, and
    changes nothing else. *)
Definition stack_effect (fuel : nat) (input : option (list Z))
  (op : zf_prim) (s : state) (before after : list Z) : Prop :=
  forall below,
    dstack_top s (before ++ below) ->
    exists s',
      do_prim DATA_SIZE fuel (prim_code op) input s = Ok tt s' /\
      dstack_top s' (after ++ below) /\
      dsp s' = dsp s - Z.of_nat (length before) + Z.of_nat (length after) /\
      beside_dstack s' = beside_dstack s.

End PrimVocabulary.

(** ** The interpreter at start-up *)

(** The variables of [zforth.c] as the C start-up code leaves them:
    objects of static storage are zeroed.  The variables of the node are
    free. *)
Definition cold (s : state) : Prop :=
  vm_part s
  = (repeat 0 (Z.to_nat ZF_DICT_SIZE), repeat 0 (Z.to_nat ZF_RSTACK_SIZE),
     repeat 0 (Z.to_nat ZF_DSTACK_SIZE), ZF_INPUT_INTERPRET, 0, 0, 0, []).

(** The variables of [zforth.c] taken from [v], the others from [s]. *)
Definition with_vm (v s : state) : state :=
  set_dict (dict v) (set_rstack (rstack v) (set_dstack (dstack v)
    (set_input_state (input_state v) (set_dsp (dsp v) (set_rsp (rsp v)
      (set_ip (ip v) (set_tok (tok v) s))))))).

(** The words that [zf_bootstrap] makes of the primitives: the name a text
    uses, the primitive, and whether the word is immediate. *)
Local Open Scope string_scope.

Definition primitive_words : list (string * zf_prim * bool) :=
  [ ("exit", PRIM_EXIT, false); ("lit", PRIM_LIT, false);
    ("<0", PRIM_LTZ, false); (":", PRIM_COL, false);
    (";", PRIM_SEMICOL, true); ("+", PRIM_ADD, false);
    ("-", PRIM_SUB, false); ("*", PRIM_MUL, false);
    ("/", PRIM_DIV, false); ("%", PRIM_MOD, false);
    ("drop", PRIM_DROP, false); ("dup", PRIM_DUP, false);
    ("pickr", PRIM_PICKR, false); ("immediate", PRIM_IMMEDIATE, true);
    ("@@", PRIM_PEEK, false); ("!!", PRIM_POKE, false);
    ("swap", PRIM_SWAP, false); ("rot", PRIM_ROT, false);
    ("jmp", PRIM_JMP, false); ("jmp0", PRIM_JMP0, false);
    ("'", PRIM_TICK, false); ("(", PRIM_COMMENT, true);
    (">r", PRIM_PUSHR, false); ("r>", PRIM_POPR, false);
    ("=", PRIM_EQUAL, false); ("sys", PRIM_SYS, false);
    ("pick", PRIM_PICK, false); (",,", PRIM_COMMA, false);
    ("key", PRIM_KEY, false); ("lits", PRIM_LITS, false);
    ("##", PRIM_LEN, false); ("&", PRIM_AND, false);
    ("|", PRIM_OR, false); ("^", PRIM_XOR, false);
    ("<<", PRIM_SHL, false); (">>", PRIM_SHR, false);
    (".", PRIM_EMIT, false); ("@D", PRIM_DEVREAD, false);
    ("!D", PRIM_DEVWRITE, false); ("@T", PRIM_DEVTEMP, false);
    ("@V", PRIM_DEVVDD, false) ].

Local Close Scope string_scope.

(** The dictionary of [s] has the word [name]: its header carries the
    flag [ZF_FLAG_PRIM], the flag [ZF_FLAG_IMMEDIATE] as [imm] tells, and
    its code is the one cell of the primitive [p], followed by that of
    [PRIM_EXIT]. *)
Definition names_primitive (fuel : nat) (s : state)
  (e : string * zf_prim * bool) : Prop :=
  let '(name, p, imm) := e in
  exists w c lenflags n,
    find_word fuel (str name) s = Ok (Some (w, c)) s
    /\ dict_get_cell w s = Ok (lenflags, n) s
    /\ Z.land lenflags ZF_FLAG_PRIM = ZF_FLAG_PRIM
    /\ Z.land lenflags ZF_FLAG_IMMEDIATE
       = (if imm : bool then ZF_FLAG_IMMEDIATE else 0)
    /\ dict_get_cell c s = Ok (prim_code p, 1) s
    /\ dict_get_cell (c + 1) s = Ok (prim_code PRIM_EXIT, 1) s.

(** ** Further inputs on the sample platform *)

Module Bench.

Import Sample.

Definition payload : list Z := map (fun i => Z.of_nat i) (seq 1 31).

(** Frames of the controller for this node. *)
Definition read_block_3 : list Z := request READ 3 UID zeros.
Definition sensors_all : list Z := request SENSORS ALL UID zeros.
Definition ping_own : list Z := request PING OWN UID zeros.
Definition ping_nothing : list Z := request PING 9 UID zeros.
Definition unknown_tag : list Z := request 77 5 foreign_uid payload.


(** A token of 40 characters. *)
Definition long_token : list Z := repeat 49 39 ++ [50].

End Bench.

(** * Properties *)

(** ** Machine integers and byte arrays *)

Lemma le_bytes_length n v : length (le_bytes n v) = n.
Proof. revert v; induction n; simpl; intros; auto. Qed.

Lemma le_value_le_bytes n v :
  le_value (le_bytes n v) = v mod 256 ^ Z.of_nat n.
Proof.
  revert v; induction n as [|n IH]; intros v.
  - simpl. now rewrite Z.mod_1_r.
  - cbn [le_bytes le_value]. rewrite IH.
    rewrite Nat2Z.inj_succ, Z.pow_succ_r by lia.
    rewrite Z.rem_mul_r by lia. lia.
Qed.

Lemma land_shiftl_small a b k :
  0 <= k -> 0 <= a < 2 ^ k -> Z.land (Z.shiftl b k) a = 0.
Proof.
  intros Hk Ha. apply Z.bits_inj'. intros n Hn.
  rewrite Z.land_spec, Z.bits_0.
  destruct (Z.ltb_spec n k).
  - rewrite Z.shiftl_spec_low by lia. reflexivity.
  - assert (Z.testbit a n = false) as ->.
    { destruct (Z.eq_dec a 0) as [->|]; [apply Z.bits_0|].
      apply Z.bits_above_log2; try lia.
      apply Z.log2_lt_pow2; try lia.
      assert (2 ^ k <= 2 ^ n) by (apply Z.pow_le_mono_r; lia). lia. }
    apply andb_false_r.
Qed.

Lemma lor_shiftl_add a b k :
  0 <= k -> 0 <= a < 2 ^ k -> Z.lor (Z.shiftl b k) a = b * 2 ^ k + a.
Proof.
  intros Hk Ha.
  rewrite <- Z.lxor_lor, <- Z.add_nocarry_lxor
    by (apply land_shiftl_small; lia).
  now rewrite Z.shiftl_mul_pow2.
Qed.

Lemma lor_mul_pow2_add x y k :
  0 <= k -> 0 <= y < 2 ^ k -> Z.lor (x * 2 ^ k) y = x * 2 ^ k + y.
Proof.
  intros Hk Hy. rewrite <- (lor_shiftl_add y x k) by lia.
  now rewrite Z.shiftl_mul_pow2.
Qed.

(** Bytes assembled with shifts and ors, as [parse_packet] does, make the
    little-endian value. *)
Lemma assemble_bytes4 b0 b1 b2 b3 :
  is_byte b0 -> is_byte b1 -> is_byte b2 -> is_byte b3 ->
  Z.lor (Z.lor (Z.lor (Z.shiftl b3 24) (Z.shiftl b2 16)) (Z.shiftl b1 8)) b0
  = le_value [b0; b1; b2; b3].
Proof.
  unfold is_byte. intros H0 H1 H2 H3.
  rewrite !Z.shiftl_mul_pow2 by lia.
  rewrite (lor_mul_pow2_add b3 (b2 * 2 ^ 16) 24) by lia.
  replace (b3 * 2 ^ 24 + b2 * 2 ^ 16) with ((b3 * 2 ^ 8 + b2) * 2 ^ 16)
    by lia.
  rewrite (lor_mul_pow2_add _ (b1 * 2 ^ 8) 16) by lia.
  replace ((b3 * 2 ^ 8 + b2) * 2 ^ 16 + b1 * 2 ^ 8)
    with (((b3 * 2 ^ 8 + b2) * 2 ^ 8 + b1) * 2 ^ 8) by lia.
  rewrite (lor_mul_pow2_add _ b0 8) by lia.
  cbn [le_value]. lia.
Qed.

Lemma is_byte_mod v : is_byte (v mod 256).
Proof. unfold is_byte. apply Z.mod_pos_bound. lia. Qed.

(** ** The packet codec *)

Section CodecFacts.

Variable DATA_SIZE : Z.

Lemma firstn_exact {A : Type} (l r : list A) n :
  length l = n -> firstn n (l ++ r) = l.
Proof.
  intros <-. rewrite firstn_app, Nat.sub_diag, firstn_all. simpl.
  apply app_nil_r.
Qed.

Lemma skipn_exact {A : Type} (l r : list A) n :
  length l = n -> skipn n (l ++ r) = r.
Proof.
  intros <-. rewrite skipn_app, Nat.sub_diag, skipn_all. reflexivity.
Qed.

(** C7.  [send_packet] transmits command (1 byte), pic (1), options (4,
    least significant byte first), uid (25), data ([DATA_SIZE]) and checksum
    (2, least significant byte first), in this order, and parsing these
    bytes gives back the command, the hop counter, the options, the uid and
    the data of the packet: every field but the checksum. *)
Theorem parse_send_packet (P : packet_t) :
  packet_wf DATA_SIZE P ->
  let Q := parse_packet DATA_SIZE (send_packet DATA_SIZE P) in
  send_packet DATA_SIZE P
  = [command P] ++ [pic P] ++ le_bytes 4 (options P) ++ uid P ++ data P
    ++ le_bytes 2 (checksum P) /\
  command Q = command P /\ pic Q = pic P /\ options Q = options P /\
  uid Q = uid P /\ data Q = data P.
Proof.
  destruct P as [c h o u d k]. unfold packet_wf; cbn [command pic options
    uid data checksum]. intros (Hc & Hh & Ho & Hu & Hd & Hk).
  assert (Lu : length u = 25%nat) by (unfold UID_SIZE in Hu; lia).
  assert (Ld : length d = Z.to_nat DATA_SIZE) by lia.
  unfold parse_packet, send_packet; cbn [command pic options uid data checksum].
  replace (Z.to_nat UID_SIZE) with 25%nat by reflexivity.
  rewrite <- Lu, <- Ld, !firstn_all.
  cbn [le_bytes app]. unfold byte_at, sub.
  change (Z.to_nat 0) with 0%nat. change (Z.to_nat 1) with 1%nat.
  change (Z.to_nat 2) with 2%nat. change (Z.to_nat 3) with 3%nat.
  change (Z.to_nat 4) with 4%nat. change (Z.to_nat 5) with 5%nat.
  cbn [nth skipn].
  assert (Ec : c mod 256 = c) by (apply Z.mod_small; lia).
  assert (Eh : h mod 256 = h) by (apply Z.mod_small; lia).
  rewrite Ec, Eh.
  repeat split.
  - rewrite assemble_bytes4 by apply is_byte_mod.
    change [o mod 256; o / 256 mod 256; o / 256 / 256 mod 256;
            o / 256 / 256 / 256 mod 256] with (le_bytes 4 o).
    rewrite le_value_le_bytes. unfold u32.
    change (256 ^ Z.of_nat 4) with (2 ^ 32).
    rewrite Z.mod_mod by lia. apply Z.mod_small; lia.
  - now apply firstn_exact.
  - rewrite skipn_exact by reflexivity. now apply firstn_exact.
Qed.

End CodecFacts.

(** ** Arrays *)

Lemma load_inside (a : list Z) i :
  0 <= i < Z.of_nat (length a) -> load a i = Some (nth (Z.to_nat i) a 0).
Proof.
  revert i; induction a as [|x tl IH]; intros i Hi; cbn [length] in Hi.
  - lia.
  - cbn [load]. destruct (Z.ltb_spec i 0); [lia|].
    destruct (Z.eqb_spec i 0) as [->|Hne]; [reflexivity|].
    rewrite IH by lia.
    replace (Z.to_nat i) with (S (Z.to_nat (i - 1))) by lia. reflexivity.
Qed.

Lemma load_outside (a : list Z) i :
  i < 0 \/ Z.of_nat (length a) <= i -> load a i = None.
Proof.
  revert i; induction a as [|x tl IH]; intros i Hi; cbn [length] in Hi.
  - reflexivity.
  - cbn [load]. destruct (Z.ltb_spec i 0); [reflexivity|].
    destruct (Z.eqb_spec i 0) as [->|Hne]; [lia|].
    apply IH. lia.
Qed.

Lemma overwrite_length (a : list Z) off src :
  (off + length src <= length a)%nat ->
  length (overwrite a off src) = length a.
Proof.
  intros H. unfold overwrite.
  rewrite !length_app, length_firstn, length_skipn. lia.
Qed.

Lemma overwrite_cons (a : list Z) x off src :
  overwrite (x :: a) (S off) src = x :: overwrite a off src.
Proof. reflexivity. Qed.

Lemma splice_inside (a : list Z) off src :
  0 <= off -> off + Z.of_nat (length src) <= Z.of_nat (length a) ->
  splice a off src = Some (overwrite a (Z.to_nat off) src).
Proof.
  revert off src; induction a as [|x tl IH]; intros off src H0 H;
    cbn [length] in H.
  - destruct src; cbn [length] in H; [|lia].
    replace off with 0 by lia. reflexivity.
  - cbn [splice]. destruct (Z.ltb_spec off 0); [lia|].
    destruct (Z.ltb_spec 0 off).
    + rewrite IH by lia.
      replace (Z.to_nat off) with (S (Z.to_nat (off - 1))) by lia.
      reflexivity.
    + replace off with 0 in * by lia. destruct src as [|b bs].
      * reflexivity.
      * cbn [length] in H. rewrite IH by lia. reflexivity.
Qed.

Lemma splice_length (a : list Z) off src a' :
  splice a off src = Some a' -> length a' = length a.
Proof.
  revert off src a'; induction a as [|x tl IH]; intros off src a'.
  - cbn [splice]. destruct src; [|discriminate].
    destruct (off =? 0); [|discriminate]. now intros [= <-].
  - cbn [splice]. destruct (off <? 0); [discriminate|].
    destruct (0 <? off).
    + destruct (splice tl (off - 1) src) eqn:E; [|discriminate].
      intros [= <-]. cbn [length]. f_equal. eauto.
    + destruct src as [|b bs]; [now intros [= <-]|].
      destruct (splice tl 0 bs) eqn:E; [|discriminate].
      intros [= <-]. cbn [length]. f_equal. eauto.
Qed.

Lemma slice_inside (a : list Z) off len :
  0 <= off -> 0 <= len -> off + len <= Z.of_nat (length a) ->
  slice a off len = Some (sub a (Z.to_nat off) (Z.to_nat len)).
Proof.
  revert off len; induction a as [|x tl IH]; intros off len H0 H1 H;
    cbn [length] in H.
  - replace off with 0 by lia. replace len with 0 by lia. reflexivity.
  - cbn [slice]. destruct (Z.ltb_spec off 0); [lia|].
    destruct (Z.ltb_spec len 0); [lia|]. cbn [orb].
    destruct (Z.ltb_spec 0 off).
    + rewrite IH by lia.
      replace (Z.to_nat off) with (S (Z.to_nat (off - 1))) by lia.
      reflexivity.
    + replace off with 0 in * by lia.
      destruct (Z.eqb_spec len 0) as [->|Hne]; [reflexivity|].
      rewrite (IH 0 (len - 1)) by lia.
      replace (Z.to_nat len) with (S (Z.to_nat (len - 1))) by lia.
      reflexivity.
Qed.

Lemma sub_overwrite_inner (d : list Z) a bs i n :
  (a + length bs <= length d)%nat -> (i + n <= length bs)%nat ->
  sub (overwrite d a bs) (a + i) n = sub bs i n.
Proof.
  intros Ha Hi. unfold sub, overwrite.
  rewrite skipn_app, length_firstn.
  replace (Nat.min a (length d)) with a by lia.
  rewrite (skipn_all2 (firstn a d)) by (rewrite length_firstn; lia).
  replace (a + i - a)%nat with i by lia. cbn [app].
  rewrite skipn_app, firstn_app, length_skipn.
  replace (n - (length bs - i))%nat with 0%nat by lia.
  cbn [firstn]. now rewrite app_nil_r.
Qed.

Lemma sub_overwrite_same (d : list Z) a bs :
  (a + length bs <= length d)%nat ->
  sub (overwrite d a bs) a (length bs) = bs.
Proof.
  intros H. rewrite <- (Nat.add_0_r a) at 2.
  rewrite sub_overwrite_inner by lia.
  unfold sub. cbn [skipn]. apply firstn_all.
Qed.

Lemma overwrite_overwrite_next (d : list Z) a b bs :
  (a + S (length bs) <= length d)%nat ->
  overwrite (overwrite d a [b]) (S a) bs = overwrite d a (b :: bs).
Proof.
  revert a; induction d as [|x tl IH]; intros a H; cbn [length] in H.
  - lia.
  - destruct a as [|a].
    + reflexivity.
    + rewrite !overwrite_cons. f_equal. apply IH. lia.
Qed.

Lemma sub_length (a : list Z) off n :
  (off + n <= length a)%nat -> length (sub a off n) = n.
Proof. intros H. unfold sub. rewrite length_firstn, length_skipn. lia. Qed.

(** ** Conversions between the integer types *)

Ltac pow2 :=
  change (2 ^ 8) with 256 in *; change (2 ^ 16) with 65536 in *;
  change (2 ^ 31) with 2147483648 in *;
  change (2 ^ 32) with 4294967296 in *.

Lemma s32_cell v : is_cell v -> s32 v = v.
Proof.
  unfold is_cell, s32, sint. pow2. change (2 ^ (32 - 1)) with 2147483648.
  intros H. destruct (Z.ltb_spec (v mod 4294967296) 2147483648);
    Z.div_mod_to_equations; lia.
Qed.

Lemma s32_is_cell v : is_cell (s32 v).
Proof.
  unfold is_cell, s32, sint. pow2. change (2 ^ (32 - 1)) with 2147483648.
  destruct (Z.ltb_spec (v mod 4294967296) 2147483648);
    Z.div_mod_to_equations; lia.
Qed.

Lemma sint_congr w x : 0 <= w -> sint w (x mod 2 ^ w) = sint w x.
Proof.
  intros Hw. unfold sint.
  assert (0 < 2 ^ w) by (apply Z.pow_pos_nonneg; lia).
  rewrite Z.mod_mod by lia. reflexivity.
Qed.

Lemma sint_mod w x : 0 <= w -> sint w x mod 2 ^ w = x mod 2 ^ w.
Proof.
  intros Hw. unfold sint.
  assert (0 < 2 ^ w) by (apply Z.pow_pos_nonneg; lia).
  destruct (_ <? _).
  - apply Z.mod_mod. lia.
  - rewrite <- (Z.mod_mod x (2 ^ w)) at 2 by lia.
    rewrite <- (Z.mod_add (x mod 2 ^ w - 2 ^ w) 1 (2 ^ w)) by lia.
    f_equal. lia.
Qed.

Lemma s32_u32 v : s32 (u32 v) = s32 v.
Proof. apply (sint_congr 32). lia. Qed.

Lemma u32_sub_self v : u32 (v - u32 v) = 0.
Proof.
  unfold u32. pow2. Z.div_mod_to_equations. lia.
Qed.

Lemma mod_mod_pow2 v a b :
  0 <= a <= b -> (v mod 2 ^ b) mod 2 ^ a = v mod 2 ^ a.
Proof.
  intros H. apply Z.mod_mod_divide.
  exists (2 ^ (b - a)). rewrite <- Z.pow_add_r by lia. f_equal. lia.
Qed.

(** ** Bytes of the dictionary *)

Lemma CHECK_off exp abort : CHECK exp abort = ret tt.
Proof. reflexivity. Qed.

Lemma set_dict_twice d d' s : set_dict d (set_dict d' s) = set_dict d s.
Proof. reflexivity. Qed.

Lemma put_bytes_loop_inside bs : forall addr s,
  dict_sized s -> 0 <= addr ->
  addr + Z.of_nat (length bs) <= ZF_DICT_SIZE ->
  put_bytes_loop addr bs s
  = Ok tt (match bs with
           | [] => s
           | _ => set_dict (overwrite (dict s) (Z.to_nat addr) bs) s
           end).
Proof.
  unfold dict_sized.
  induction bs as [|b tl IH]; intros addr s Hs H0 H; cbn [length] in H.
  - reflexivity.
  - cbn [put_bytes_loop]. unfold bind at 1. cbn [gets].
    unfold bind at 1. unfold store.
    rewrite splice_inside by (cbn [length]; lia).
    cbn [defined ret]. unfold bind at 1. cbn [modify].
    assert (Hu : u32 (addr + 1) = addr + 1).
    { unfold u32. apply Z.mod_small. unfold ZF_DICT_SIZE in H. pow2.
      change (2 ^ 12) with 4096 in H. lia. }
    rewrite Hu, IH; cbn [dict set_dict]; try lia.
    + f_equal. destruct tl as [|c tl']; [reflexivity|].
      rewrite set_dict_twice. f_equal.
      replace (Z.to_nat (addr + 1)) with (S (Z.to_nat addr)) by lia.
      apply overwrite_overwrite_next. cbn [length] in *. lia.
    + unfold dict_sized. rewrite overwrite_length; [assumption|].
      cbn [length]. lia.
Qed.

Lemma dict_put_bytes_inside addr bs s :
  dict_sized s -> 0 <= addr -> (0 < length bs)%nat ->
  addr + Z.of_nat (length bs) <= ZF_DICT_SIZE ->
  dict_put_bytes addr bs s = Ok (Z.of_nat (length bs)) (written s addr bs).
Proof.
  intros Hs H0 Hl H. unfold dict_put_bytes. rewrite CHECK_off.
  unfold bind, ret. rewrite put_bytes_loop_inside by assumption.
  destruct bs; [cbn [length] in Hl; lia|reflexivity].
Qed.

Lemma get_bytes_loop_inside n : forall addr s,
  dict_sized s -> 0 <= addr -> addr + Z.of_nat n <= ZF_DICT_SIZE ->
  get_bytes_loop addr n s = Ok (sub (dict s) (Z.to_nat addr) n) s.
Proof.
  unfold dict_sized.
  induction n as [|n IH]; intros addr s Hs H0 H.
  - reflexivity.
  - cbn [get_bytes_loop]. unfold bind at 1. cbn [gets].
    unfold bind at 1.
    rewrite load_inside by lia. cbn [defined ret]. unfold bind at 1.
    assert (Hu : u32 (addr + 1) = addr + 1).
    { unfold u32. apply Z.mod_small. unfold ZF_DICT_SIZE in H. pow2.
      change (2 ^ 12) with 4096 in H. lia. }
    rewrite Hu, IH by lia. unfold ret. f_equal.
    unfold sub.
    replace (Z.to_nat (addr + 1)) with (S (Z.to_nat addr)) by lia.
    assert (Hlt : (Z.to_nat addr < length (dict s))%nat) by lia.
    revert Hlt. generalize (Z.to_nat addr) (dict s). clear.
    intros k d; revert k; induction d as [|x d IHd]; intros k Hk.
    + cbn [length] in Hk. lia.
    + destruct k; [reflexivity|]. cbn [nth skipn].
      apply IHd. cbn [length] in Hk. lia.
Qed.

Lemma dict_get_bytes_inside addr n s :
  dict_sized s -> 0 <= addr -> addr + Z.of_nat n <= ZF_DICT_SIZE ->
  dict_get_bytes addr n s = Ok (sub (dict s) (Z.to_nat addr) n) s.
Proof.
  intros Hs H0 H. unfold dict_get_bytes. rewrite CHECK_off.
  unfold bind, ret. now apply get_bytes_loop_inside.
Qed.

Lemma dict_sized_written s addr bs :
  dict_sized s -> 0 <= addr ->
  addr + Z.of_nat (length bs) <= ZF_DICT_SIZE ->
  dict_sized (written s addr bs).
Proof.
  unfold dict_sized, written. intros Hs H0 H. cbn [dict set_dict].
  rewrite overwrite_length; [assumption|lia].
Qed.

Lemma written_next s addr b bs :
  dict_sized s -> 0 <= addr ->
  addr + 1 + Z.of_nat (length bs) <= ZF_DICT_SIZE ->
  written (written s addr [b]) (addr + 1) bs = written s addr (b :: bs).
Proof.
  unfold dict_sized, written. intros Hs H0 H. cbn [dict set_dict].
  rewrite set_dict_twice. f_equal.
  replace (Z.to_nat (addr + 1)) with (S (Z.to_nat addr)) by lia.
  apply overwrite_overwrite_next. lia.
Qed.

(** Bytes read back from inside a range just written. *)
Lemma get_written s addr bs i n :
  dict_sized s -> 0 <= addr ->
  addr + Z.of_nat (length bs) <= ZF_DICT_SIZE ->
  (i + n <= length bs)%nat ->
  dict_get_bytes (addr + Z.of_nat i) n (written s addr bs)
  = Ok (sub bs i n) (written s addr bs).
Proof.
  intros Hs H0 H Hi.
  rewrite dict_get_bytes_inside;
    [|now apply dict_sized_written|lia|lia].
  f_equal. unfold written. cbn [dict set_dict].
  replace (Z.to_nat (addr + Z.of_nat i)) with (Z.to_nat addr + i)%nat by lia.
  apply sub_overwrite_inner; [|assumption].
  unfold dict_sized in Hs. lia.
Qed.

(** The two bytes [t] that [dict_get_cell_typed] reads first, when one
    byte only has been written. *)
Lemma get_written_head s addr b :
  dict_sized s -> 0 <= addr -> addr + 2 <= ZF_DICT_SIZE ->
  exists t1,
    dict_get_bytes addr 2 (written s addr [b])
    = Ok [b; t1] (written s addr [b]).
Proof.
  intros Hs H0 H.
  rewrite dict_get_bytes_inside;
    [|apply dict_sized_written; cbn [length]; try assumption; lia|lia|lia].
  unfold written. cbn [dict set_dict].
  unfold dict_sized in Hs. unfold sub, overwrite.
  rewrite skipn_app, length_firstn.
  replace (Nat.min (Z.to_nat addr) (length (dict s))) with (Z.to_nat addr)
    by lia.
  rewrite (skipn_all2 (firstn _ _)) by (rewrite length_firstn; lia).
  rewrite Nat.sub_diag. cbn [app skipn firstn length].
  destruct (skipn (Z.to_nat addr + 1) (dict s)) as [|t1 tl] eqn:E.
  - apply (f_equal (@length Z)) in E. rewrite length_skipn in E.
    cbn [length] in E. lia.
  - now exists t1.
Qed.

Lemma lor_128 x :
  0 <= x < 64 ->
  Z.land (Z.lor x 128) 128 <> 0 /\ Z.lor x 128 <> 255 /\
  Z.land (Z.lor x 128) 63 = x /\ 0 <= Z.lor x 128 < 256.
Proof.
  intros H. replace x with (Z.of_nat (Z.to_nat x)) by lia.
  assert (Hk : (Z.to_nat x < 64)%nat) by lia.
  revert Hk. generalize (Z.to_nat x). clear. intros k Hk.
  do 64 (destruct k as [|k];
         [vm_compute; repeat split; congruence|]).
  lia.
Qed.

Lemma land_128_small x : 0 <= x < 128 -> Z.land x 128 = 0.
Proof.
  intros H. rewrite Z.land_comm. change 128 with (Z.shiftl 1 7).
  apply land_shiftl_small; [lia|]. change (2 ^ 7) with 128. lia.
Qed.

Lemma get_written_all s addr bs :
  dict_sized s -> 0 <= addr ->
  addr + Z.of_nat (length bs) <= ZF_DICT_SIZE ->
  dict_get_bytes addr (length bs) (written s addr bs)
  = Ok bs (written s addr bs).
Proof.
  intros Hs H0 H.
  replace addr with (addr + Z.of_nat 0) at 1 by lia.
  rewrite get_written by (assumption || lia).
  unfold sub. cbn [skipn]. now rewrite firstn_all.
Qed.

Lemma get_written_t s addr bs :
  dict_sized s -> 0 <= addr -> (0 < length bs)%nat ->
  addr + 2 <= ZF_DICT_SIZE ->
  addr + Z.of_nat (length bs) <= ZF_DICT_SIZE ->
  exists t,
    dict_get_bytes addr 2 (written s addr bs) = Ok t (written s addr bs) /\
    byte_at t 0 = nth 0 bs 0 /\
    ((2 <= length bs)%nat -> byte_at t 1 = nth 1 bs 0).
Proof.
  intros Hs H0 Hl H2 H.
  destruct bs as [|b tl]; [cbn [length] in Hl; lia|].
  destruct tl as [|c tl].
  - destruct (get_written_head s addr b) as (t1 & Ht); try assumption.
    exists [b; t1]. split; [assumption|]. split; [reflexivity|].
    cbn [length]. lia.
  - exists [b; c]. split; [|now split].
    replace addr with (addr + Z.of_nat 0) at 1 by lia.
    rewrite get_written; try assumption; try reflexivity;
      cbn [length] in *; lia.
Qed.

(** The selector-free part of the statement, for the bytes [bs] of a value
    of a fixed width. *)
Lemma fixed_width_roundtrip s addr bs :
  dict_sized s -> 0 <= addr -> (0 < length bs)%nat ->
  addr + 2 <= ZF_DICT_SIZE ->
  addr + Z.of_nat (length bs) <= ZF_DICT_SIZE ->
  dict_put_bytes addr bs s = Ok (Z.of_nat (length bs)) (written s addr bs) /\
  exists t,
    dict_get_bytes addr 2 (written s addr bs) = Ok t (written s addr bs) /\
    dict_get_bytes addr (length bs) (written s addr bs)
    = Ok bs (written s addr bs).
Proof.
  intros Hs H0 Hl H2 H. split.
  - now apply dict_put_bytes_inside.
  - destruct (get_written_t s addr bs) as (t & Ht & _); try assumption.
    exists t. split; [assumption|].
    now apply get_written_all.
Qed.

(** Decide the comparisons between size selectors. *)
Ltac eval_tests :=
  unfold ZF_MEM_SIZE_VAR, ZF_MEM_SIZE_CELL, ZF_MEM_SIZE_U8, ZF_MEM_SIZE_U16,
    ZF_MEM_SIZE_U32, ZF_MEM_SIZE_S8, ZF_MEM_SIZE_S16, ZF_MEM_SIZE_S32 in *;
  cbn [Z.eqb Pos.eqb orb andb negb] in *.

(** A case of [cell_roundtrip] with a value of [k] bytes. *)
Ltac fixed_width k x :=
  let bs := constr:(le_bytes k x) in
  match goal with
  | Hs : dict_sized ?s, H0 : 0 <= ?addr |- _ =>
      destruct (fixed_width_roundtrip s addr bs)
        as (Hput & t & Ht & Hget);
      [ assumption | assumption | rewrite le_bytes_length; lia
      | assumption
      | rewrite le_bytes_length; cbn [Z.of_nat Pos.of_succ_nat Pos.succ];
        assumption
      | rewrite le_bytes_length in Hput, Hget;
        exists (written s addr bs); split;
        [ exact Hput
        | unfold bind; rewrite Ht, Hget; unfold ret; f_equal; f_equal ] ]
  end.

(** C4.  A cell written with [dict_put_cell_typed] and read back with
    [dict_get_cell_typed] under the same size selector comes back cut to
    the width of the selector (unchanged for VAR and CELL, and for the
    selectors of 32 bits), and the reader reports the byte count the
    writer reported.  The address is one at which the bytes of the cell
    and the two bytes the reader always fetches lie inside the
    dictionary. *)
Theorem cell_roundtrip (s : state) (addr v size : Z) :
  dict_sized s -> is_cell v ->
  ZF_MEM_SIZE_VAR <= size <= ZF_MEM_SIZE_S32 ->
  0 <= addr -> addr + 2 <= ZF_DICT_SIZE ->
  addr + stored_bytes size v <= ZF_DICT_SIZE ->
  exists s',
    dict_put_cell_typed addr v size s = Ok (stored_bytes size v) s' /\
    dict_get_cell_typed addr size s'
    = Ok (truncated size v, stored_bytes size v) s'.
Proof.
  intros Hs Hv Hsize H0 Ht2 H.
  assert (Hcases : size = 0 \/ size = 1 \/ size = 2 \/ size = 3 \/ size = 4
                   \/ size = 5 \/ size = 6 \/ size = 7).
  { unfold ZF_MEM_SIZE_VAR, ZF_MEM_SIZE_S32 in Hsize. lia. }
  unfold stored_bytes, truncated, dict_put_cell_typed, dict_get_cell_typed
    in *.
  destruct Hcases as [->|[->|[->|[->|[->|[->|[->| ->]]]]]]]; eval_tests.
  - (* VAR *)
    rewrite u32_sub_self. cbn [Z.eqb].
    assert (Hu : u32 v = if v <? 0 then v + 2 ^ 32 else v).
    { unfold u32, is_cell in *. pow2. destruct (Z.ltb_spec v 0);
        Z.div_mod_to_equations; lia. }
    assert (Hrange : 0 <= v < 128 \/ 128 <= v < 16384
                     \/ (v < 0 \/ 16384 <= v)) by lia.
    destruct Hrange as [HA|[HB|HC]].
    + (* one byte *)
      assert (Hv' : u32 v = v).
      { rewrite Hu. destruct (Z.ltb_spec v 0); lia. }
      rewrite Hv'.
      destruct (Z.leb_spec 0 v); [|lia].
      destruct (Z.ltb_spec v 128); [|lia]. cbn [andb] in *.
      assert (Hb : u8 v = v) by (apply Z.mod_small; pow2; lia).
      rewrite Hb.
      destruct (get_written_t s addr [v]) as (t & Ht & Ht0 & _);
        try assumption; [cbn [length]; lia|].
      exists (written s addr [v]). split.
      * apply dict_put_bytes_inside; try assumption; cbn [length]; lia.
      * unfold bind. rewrite Ht, Ht0. cbn [nth].
        rewrite land_128_small by lia. reflexivity.
    + (* two bytes *)
      assert (Hv' : u32 v = v).
      { rewrite Hu. destruct (Z.ltb_spec v 0); lia. }
      rewrite Hv'.
      destruct (Z.leb_spec 0 v); [|lia].
      destruct (Z.ltb_spec v 128); [lia|].
      destruct (Z.ltb_spec v 16384); [|lia]. cbn [andb] in *.
      destruct (lor_128 (Z.shiftr v 8)) as (L1 & L2 & L3 & L4).
      { rewrite Z.shiftr_div_pow2 by lia. change (2 ^ 8) with 256.
        Z.div_mod_to_equations. lia. }
      set (b0 := Z.lor (Z.shiftr v 8) 128) in *.
      assert (Hb0 : u8 b0 = b0) by (apply Z.mod_small; pow2; lia).
      rewrite Hb0.
      destruct (get_written_t s addr [b0; u8 v])
        as (t & Ht & Ht0 & Ht1); try assumption; [cbn [length]; lia|].
      exists (written s addr [b0; u8 v]). split.
      * apply dict_put_bytes_inside; try assumption; cbn [length]; lia.
      * unfold bind. rewrite Ht, Ht0, Ht1 by (cbn [length]; lia).
        cbn [nth].
        destruct (Z.eqb_spec (Z.land b0 128) 0); [contradiction|].
        destruct (Z.eqb_spec b0 255); [contradiction|].
        cbn [negb]. unfold ret. f_equal. f_equal.
        rewrite L3, Z.shiftr_div_pow2, Z.shiftl_mul_pow2 by lia.
        unfold u8. pow2. Z.div_mod_to_equations. lia.
    + (* the escape byte and the raw cell *)
      assert (Hbig : 16384 <= u32 v).
      { rewrite Hu. destruct (Z.ltb_spec v 0); unfold is_cell in Hv;
          pow2; lia. }
      destruct (Z.ltb_spec (u32 v) 128); [lia|].
      destruct (Z.ltb_spec (u32 v) 16384); [lia|].
      assert (Hs1 : ((0 <=? v) && (v <? 128)) = false).
      { destruct (Z.leb_spec 0 v); destruct (Z.ltb_spec v 128);
          try reflexivity; lia. }
      assert (Hs2 : ((0 <=? v) && (v <? 16384)) = false).
      { destruct (Z.leb_spec 0 v); destruct (Z.ltb_spec v 16384);
          try reflexivity; lia. }
      rewrite Hs1, Hs2 in *.
      assert (Ha0 : u32 (addr + 0) = addr).
      { unfold u32. rewrite Z.add_0_r. apply Z.mod_small.
        change ZF_DICT_SIZE with 4096 in H. pow2. lia. }
      assert (Ha1 : u32 (addr + 1) = addr + 1).
      { unfold u32. apply Z.mod_small.
        change ZF_DICT_SIZE with 4096 in H. pow2. lia. }
      rewrite Ha0, Ha1.
      set (bs := 255 :: le_bytes 4 v).
      assert (Hlen : length bs = 5%nat) by reflexivity.
      exists (written s addr bs). split.
      * unfold bind.
        rewrite dict_put_bytes_inside; try assumption; [|cbn [length]; lia..].
        rewrite dict_put_bytes_inside;
          [ | apply dict_sized_written; try assumption; cbn [length]; lia
            | lia | rewrite le_bytes_length; lia
            | rewrite le_bytes_length; lia ].
        rewrite written_next;
          [|assumption|assumption|rewrite le_bytes_length; lia].
        rewrite le_bytes_length. reflexivity.
      * destruct (get_written_t s addr bs) as (t & Ht & Ht0 & _);
          try assumption; [rewrite Hlen; lia..|].
        unfold bind. rewrite Ht, Ht0. cbn [nth bs].
        change (Z.land 255 128 =? 0) with false.
        change (255 =? 255) with true. cbn [negb]. cbv beta.
        replace (addr + 1) with (addr + Z.of_nat 1) by lia.
        rewrite (get_written s addr bs 1 4);
          try assumption; [|rewrite Hlen; lia..].
        unfold ret. f_equal. f_equal.
        change (sub bs 1 4) with (firstn 4 (le_bytes 4 v)).
        rewrite <- (le_bytes_length 4 v) at 1. rewrite firstn_all.
        rewrite le_value_le_bytes. change (256 ^ Z.of_nat 4) with (2 ^ 32).
        change (s32 (v mod 2 ^ 32)) with (s32 (u32 v)).
        now rewrite s32_u32, s32_cell.
  - (* CELL *)
    fixed_width 4%nat v.
    rewrite le_value_le_bytes. change (256 ^ Z.of_nat 4) with (2 ^ 32).
    change (s32 (v mod 2 ^ 32)) with (s32 (u32 v)).
    now rewrite s32_u32, s32_cell.
  - (* U8 *)
    fixed_width 1%nat (u8 (u32 v)).
    rewrite le_value_le_bytes. change (256 ^ Z.of_nat 1) with (2 ^ 8).
    unfold u8, u32. rewrite !Z.mod_mod by lia.
    apply mod_mod_pow2. lia.
  - (* U16 *)
    fixed_width 2%nat (u16 (u32 v)).
    rewrite le_value_le_bytes. change (256 ^ Z.of_nat 2) with (2 ^ 16).
    unfold u16, u32. rewrite !Z.mod_mod by lia.
    apply mod_mod_pow2. lia.
  - (* U32 *)
    fixed_width 4%nat (u32 (u32 v)).
    rewrite le_value_le_bytes. change (256 ^ Z.of_nat 4) with (2 ^ 32).
    unfold u32. rewrite !Z.mod_mod by lia.
    change (s32 (v mod 2 ^ 32)) with (s32 (u32 v)).
    now rewrite s32_u32, s32_cell.
  - (* S8 *)
    fixed_width 1%nat (s8 (u32 v)).
    rewrite le_value_le_bytes. change (256 ^ Z.of_nat 1) with (2 ^ 8).
    unfold s8, u32. rewrite sint_mod, !sint_congr by lia.
    rewrite <- (sint_congr 8 v), <- (sint_congr 8 (v mod 2 ^ 32)) by lia.
    f_equal. apply mod_mod_pow2. lia.
  - (* S16 *)
    fixed_width 2%nat (s16 (u32 v)).
    rewrite le_value_le_bytes. change (256 ^ Z.of_nat 2) with (2 ^ 16).
    unfold s16, u32. rewrite sint_mod, !sint_congr by lia.
    rewrite <- (sint_congr 16 v), <- (sint_congr 16 (v mod 2 ^ 32)) by lia.
    f_equal. apply mod_mod_pow2. lia.
  - (* S32 *)
    fixed_width 4%nat (s32 (u32 v)).
    rewrite le_value_le_bytes. change (256 ^ Z.of_nat 4) with (2 ^ 32).
    unfold s32 at 1. rewrite sint_congr by lia.
    fold (s32 (s32 (u32 v))). rewrite s32_u32.
    rewrite (s32_cell (s32 v)) by apply s32_is_cell.
    now apply s32_cell.
Qed.

(** ** What every computation of the interpreter preserves *)

Lemma safe_ret {A : Type} (a : A) : safe (ret a).
Proof. intros s. unfold ret. auto. Qed.

Lemma safe_bind {A B : Type} (m : M A) (k : A -> M B) :
  safe m -> (forall a, safe (k a)) -> safe (bind m k).
Proof.
  intros Hm Hk s. unfold bind. specialize (Hm s).
  destruct (m s) as [a s1|r s1| |]; auto.
  specialize (Hk a s1). destruct (k a s1) as [b s2|r s2| |]; auto.
  destruct Hk as [Hr Hd]. auto.
Qed.

Lemma safe_gets {A : Type} (f : state -> A) : safe (gets f).
Proof. intros s. unfold gets. auto. Qed.

Lemma safe_modify (f : state -> state) :
  (forall s, dict_sized s -> dict_sized (f s)) -> safe (modify f).
Proof. intros H s. unfold modify. auto. Qed.

Lemma safe_defined {A : Type} (o : option A) : safe (defined o).
Proof. destruct o; intros s; cbn; auto. Qed.

Lemma safe_undefined {A : Type} : safe (@undefined A).
Proof. intros s. exact I. Qed.

Lemma safe_timeout {A : Type} : safe (@timeout A).
Proof. intros s. exact I. Qed.

Lemma safe_abort {A : Type} (r : zf_result) :
  allowed r -> safe (@zf_abort A r).
Proof. intros H s. unfold zf_abort. auto. Qed.

(** With [ZF_ENABLE_BOUNDARY_CHECKS] at 0 the macro expands to nothing. *)
Lemma safe_CHECK exp abort : safe (CHECK exp abort).
Proof. rewrite CHECK_off. apply safe_ret. Qed.

Lemma dict_sized_set_uservar i v s :
  0 <= i < ZF_USERVAR_COUNT -> dict_sized s ->
  dict_sized (set_uservar i v s).
Proof.
  unfold dict_sized, set_uservar, ZF_USERVAR_COUNT. intros Hi Hs.
  cbn [dict set_dict]. rewrite overwrite_length; [assumption|].
  rewrite le_bytes_length, Hs. change (Z.to_nat ZF_DICT_SIZE) with 4096%nat.
  lia.
Qed.

Create HintDb safe.

#[local] Hint Resolve safe_ret safe_gets safe_defined safe_undefined
  safe_timeout safe_CHECK : safe.

Ltac allowed_reason := unfold allowed; tauto.

Ltac keep_dict :=
  let s := fresh "s" in
  let H := fresh "H" in
  intros s H;
  first [ exact H
        | apply dict_sized_set_uservar;
          [unfold ZF_USERVAR_COUNT, ZF_USERVAR_HERE, ZF_USERVAR_LATEST,
             ZF_USERVAR_TRACE, ZF_USERVAR_COMPILING, ZF_USERVAR_POSTPONE;
           lia
          |exact H] ].

Ltac safe_step :=
  match goal with
  | |- safe (bind _ _) => apply safe_bind; [|intros]
  | |- safe (ret _) => apply safe_ret
  | |- safe (gets _) => apply safe_gets
  | |- safe (modify _) => apply safe_modify; keep_dict
  | |- safe (defined _) => apply safe_defined
  | |- safe undefined => apply safe_undefined
  | |- safe timeout => apply safe_timeout
  | |- safe (zf_abort _) => apply safe_abort; allowed_reason
  | |- safe (CHECK _ _) => apply safe_CHECK
  | |- safe (if ?b then _ else _) => destruct b eqn:?
  | |- safe (match ?x with _ => _ end) => destruct x eqn:?
  | |- safe (let (_, _) := ?x in _) => destruct x eqn:?
  | |- safe _ => solve [auto with safe]
  end.

Ltac safe_auto := repeat safe_step.

Lemma safe_zf_push v : safe (zf_push v).
Proof. unfold zf_push. safe_auto. Qed.

Lemma safe_zf_pop : safe zf_pop.
Proof. unfold zf_pop. safe_auto. Qed.

Lemma safe_zf_pick n : safe (zf_pick n).
Proof. unfold zf_pick. safe_auto. Qed.

Lemma safe_zf_pushr v : safe (zf_pushr v).
Proof. unfold zf_pushr. safe_auto. Qed.

Lemma safe_zf_popr : safe zf_popr.
Proof. unfold zf_popr. safe_auto. Qed.

Lemma safe_zf_pickr n : safe (zf_pickr n).
Proof. unfold zf_pickr. safe_auto. Qed.

#[local] Hint Resolve safe_zf_push safe_zf_pop safe_zf_pick safe_zf_pushr
  safe_zf_popr safe_zf_pickr : safe.

Lemma safe_put_bytes_loop bs : forall addr, safe (put_bytes_loop addr bs).
Proof.
  induction bs as [|b tl IH]; intros addr; cbn [put_bytes_loop].
  - apply safe_ret.
  - intros s. unfold bind at 1. cbn [gets]. unfold bind at 1.
    destruct (store (dict s) addr b) as [d'|] eqn:E; cbn [defined ret undefined];
      [|exact I].
    unfold bind at 1. cbn [modify].
    assert (Hlen : length d' = length (dict s))
      by (eapply splice_length; exact E).
    specialize (IH (u32 (addr + 1)) (set_dict d' s)).
    destruct (put_bytes_loop _ tl _) as [a s2|r s2| |]; auto.
    + intros Hs. apply IH. unfold dict_sized in *. cbn [dict set_dict].
      congruence.
    + destruct IH as [Hr Hd]. split; [assumption|].
      intros Hs. apply Hd. unfold dict_sized in *. cbn [dict set_dict].
      congruence.
Qed.

#[local] Hint Resolve safe_put_bytes_loop : safe.

Lemma safe_dict_put_bytes addr bs : safe (dict_put_bytes addr bs).
Proof. unfold dict_put_bytes. safe_auto. Qed.

Lemma safe_get_bytes_loop n : forall addr, safe (get_bytes_loop addr n).
Proof.
  induction n as [|n IH]; intros addr; cbn [get_bytes_loop]; safe_auto.
Qed.

#[local] Hint Resolve safe_dict_put_bytes safe_get_bytes_loop : safe.

Lemma safe_dict_get_bytes addr n : safe (dict_get_bytes addr n).
Proof. unfold dict_get_bytes. safe_auto. Qed.

#[local] Hint Resolve safe_dict_get_bytes : safe.

Lemma safe_dict_put_cell_typed addr v size :
  safe (dict_put_cell_typed addr v size).
Proof. unfold dict_put_cell_typed. safe_auto. Qed.

Lemma safe_dict_get_cell_typed addr size :
  safe (dict_get_cell_typed addr size).
Proof. unfold dict_get_cell_typed. safe_auto. Qed.

#[local] Hint Resolve safe_dict_put_cell_typed safe_dict_get_cell_typed : safe.

Lemma safe_dict_put_cell addr v : safe (dict_put_cell addr v).
Proof. unfold dict_put_cell. auto with safe. Qed.

Lemma safe_dict_get_cell addr : safe (dict_get_cell addr).
Proof. unfold dict_get_cell. auto with safe. Qed.

#[local] Hint Resolve safe_dict_put_cell safe_dict_get_cell : safe.

Lemma safe_dict_add_cell_typed v size : safe (dict_add_cell_typed v size).
Proof. unfold dict_add_cell_typed. safe_auto. Qed.

#[local] Hint Resolve safe_dict_add_cell_typed : safe.

Lemma safe_dict_add_cell v : safe (dict_add_cell v).
Proof. unfold dict_add_cell. auto with safe. Qed.

#[local] Hint Resolve safe_dict_add_cell : safe.

Lemma safe_dict_add_op op : safe (dict_add_op op).
Proof. unfold dict_add_op. auto with safe. Qed.

#[local] Hint Resolve safe_dict_add_op : safe.

Lemma safe_dict_add_lit v : safe (dict_add_lit v).
Proof. unfold dict_add_lit. safe_auto. Qed.

Lemma safe_dict_add_str str : safe (dict_add_str str).
Proof. unfold dict_add_str. safe_auto. Qed.

#[local] Hint Resolve safe_dict_add_lit safe_dict_add_str : safe.

Lemma safe_create name flags : safe (create name flags).
Proof. unfold create. safe_auto. Qed.

Lemma safe_find_word_loop fuel name : forall w,
  safe (find_word_loop fuel name w).
Proof.
  induction fuel as [|fuel IH]; intros w; cbn [find_word_loop]; safe_auto;
    apply IH.
Qed.

#[local] Hint Resolve safe_create safe_find_word_loop : safe.

Lemma safe_find_word fuel name : safe (find_word fuel name).
Proof. unfold find_word. safe_auto. Qed.

Lemma safe_make_immediate : safe make_immediate.
Proof. unfold make_immediate. safe_auto. Qed.

Lemma safe_peek addr len : safe (peek addr len).
Proof. unfold peek. safe_auto. Qed.

Lemma safe_zf_host_parse_num buf : safe (zf_host_parse_num buf).
Proof. unfold zf_host_parse_num. safe_auto. Qed.

#[local] Hint Resolve safe_find_word safe_make_immediate safe_peek
  safe_zf_host_parse_num : safe.

Section InterpreterFacts.

Variable DATA_SIZE : Z.

Lemma safe_store_int32 base i v : safe (store_int32 base i v).
Proof. unfold store_int32. safe_auto. Qed.

Lemma safe_fetch_cell : safe fetch_cell.
Proof. unfold fetch_cell. safe_auto. Qed.

#[local] Hint Resolve safe_store_int32 safe_fetch_cell : safe.

Lemma safe_poke_uservar a v :
  (u32 a <? ZF_USERVAR_COUNT) = true ->
  safe (modify (set_uservar (u32 a) v)).
Proof.
  intros H. apply safe_modify. intros s Hs.
  apply dict_sized_set_uservar; [|assumption].
  apply Z.ltb_lt in H. split; [|assumption].
  unfold u32. apply Z.mod_pos_bound. lia.
Qed.

Lemma safe_do_prim fuel op input : safe (do_prim DATA_SIZE fuel op input).
Proof.
  unfold do_prim.
  destruct (prim_of_code op) as [p|]; [destruct p|];
    try solve [safe_auto].
  (* PRIM_POKE *)
  do 3 (apply safe_bind; [auto with safe|intros]).
  destruct (u32 a0 <? ZF_USERVAR_COUNT) eqn:E.
  - now apply safe_poke_uservar.
  - safe_auto.
Qed.

#[local] Hint Resolve safe_do_prim : safe.

Lemma safe_run fuel : forall input, safe (run DATA_SIZE fuel input).
Proof.
  induction fuel as [|fuel IH]; intros input; cbn [run]; safe_auto.
Qed.

#[local] Hint Resolve safe_run : safe.

Lemma safe_execute fuel addr : safe (execute DATA_SIZE fuel addr).
Proof. unfold execute. safe_auto. Qed.

#[local] Hint Resolve safe_execute : safe.

Lemma safe_handle_word fuel buf : safe (handle_word DATA_SIZE fuel buf).
Proof. unfold handle_word. safe_auto. Qed.

#[local] Hint Resolve safe_handle_word : safe.

Lemma safe_handle_char fuel c : safe (handle_char DATA_SIZE fuel c).
Proof. unfold handle_char. safe_auto. Qed.

Lemma safe_char_at buf i : safe (char_at buf i).
Proof. unfold char_at. safe_auto. Qed.

#[local] Hint Resolve safe_handle_char safe_char_at : safe.

Lemma safe_zf_eval_loop fuel buf : forall i,
  safe (zf_eval_loop DATA_SIZE fuel buf i).
Proof.
  induction fuel as [|fuel IH]; intros i; cbn [zf_eval_loop]; safe_auto.
Qed.

End InterpreterFacts.

(** ** The stacks *)

Lemma zf_pop_top s v vs :
  dstack_top s (v :: vs) ->
  zf_pop s = Ok v (set_dsp (dsp s - 1) s) /\
  dstack_top (set_dsp (dsp s - 1) s) vs.
Proof.
  unfold dstack_top, ZF_DSTACK_SIZE. cbn [length on_top].
  intros (Hl & Hn & Hv & Htl).
  assert (Hu : u32 (dsp s - 1) = dsp s - 1).
  { unfold u32. apply Z.mod_small. pow2. lia. }
  split.
  - cbv beta iota delta [zf_pop CHECK ZF_ENABLE_BOUNDARY_CHECKS bind gets
                          ret modify].
    rewrite Hu. cbn [dstack set_dsp]. rewrite Hv. reflexivity.
  - cbn [dsp dstack set_dsp]. split; [assumption|]. split; [lia|assumption].
Qed.

Lemma load_overwrite_same (a : list Z) n v :
  0 <= n < Z.of_nat (length a) ->
  load (overwrite a (Z.to_nat n) [v]) n = Some v.
Proof.
  intros H. rewrite load_inside
    by (rewrite overwrite_length; cbn [length]; lia).
  f_equal. unfold overwrite.
  rewrite app_nth2; rewrite length_firstn; [|lia].
  replace (Z.to_nat n - Nat.min (Z.to_nat n) (length a))%nat with 0%nat
    by lia.
  reflexivity.
Qed.

Lemma load_overwrite_below (a : list Z) n v i :
  0 <= n < Z.of_nat (length a) -> i < n ->
  load (overwrite a (Z.to_nat n) [v]) i = load a i.
Proof.
  intros H Hi. destruct (Z.ltb_spec i 0).
  - rewrite !load_outside by lia. reflexivity.
  - rewrite !load_inside
      by (try rewrite overwrite_length; cbn [length]; lia).
    f_equal. unfold overwrite.
    rewrite app_nth1 by (rewrite length_firstn; lia).
    clear H. assert (Hk : (Z.to_nat i < Z.to_nat n)%nat) by lia.
    revert Hk. generalize (Z.to_nat i) (Z.to_nat n). clear.
    intros k n; revert k a; induction n as [|n IH]; intros k a Hk; [lia|].
    destruct a as [|x a]; [destruct k; reflexivity|].
    destruct k as [|k]; [reflexivity|]. cbn [firstn nth]. apply IH. lia.
Qed.

Lemma on_top_overwrite (a : list Z) n v vs m :
  0 <= n < Z.of_nat (length a) -> m <= n ->
  on_top a m vs -> on_top (overwrite a (Z.to_nat n) [v]) m vs.
Proof.
  revert m; induction vs as [|x vs IH]; intros m Hn Hm; cbn [on_top].
  - trivial.
  - intros [Hx Hvs]. split.
    + rewrite load_overwrite_below by lia. assumption.
    + apply IH; [assumption|lia|assumption].
Qed.

(** [zf_push] on a stack that is not full. *)
Lemma zf_push_top s v vs :
  dstack_top s vs -> dsp s < ZF_DSTACK_SIZE ->
  exists s',
    zf_push v s = Ok tt s' /\ dstack_top s' (v :: vs) /\
    dsp s' = dsp s + 1 /\
    s' = set_dsp (dsp s + 1)
           (set_dstack (overwrite (dstack s) (Z.to_nat (dsp s)) [v]) s).
Proof.
  unfold dstack_top, ZF_DSTACK_SIZE. intros (Hl & Hn & Htop) Hfull.
  assert (H0 : 0 <= dsp s) by lia.
  assert (Hu : u32 (dsp s + 1) = dsp s + 1).
  { unfold u32. apply Z.mod_small. pow2. lia. }
  eexists. split; [|split; [|split; [|reflexivity]]].
  - cbv beta iota delta [zf_push CHECK ZF_ENABLE_BOUNDARY_CHECKS bind gets
                          ret modify store].
    rewrite splice_inside by (cbn [length]; lia).
    cbn [defined ret]. rewrite Hu. reflexivity.
  - cbn [dsp dstack set_dsp set_dstack length on_top].
    rewrite overwrite_length by (cbn [length]; lia).
    split; [assumption|]. split; [lia|].
    replace (dsp s + 1 - 1) with (dsp s) by lia. split.
    + apply load_overwrite_same. lia.
    + apply on_top_overwrite; [lia|lia|assumption].
  - reflexivity.
Qed.

Lemma zf_pop_empty s :
  dsp s = 0 -> Z.of_nat (length (dstack s)) = ZF_DSTACK_SIZE ->
  zf_pop s = Undefined.
Proof.
  intros Hn Hl.
  cbv beta iota delta [zf_pop CHECK ZF_ENABLE_BOUNDARY_CHECKS bind gets
                        ret modify].
  rewrite Hn. cbn [dstack set_dsp].
  rewrite load_outside; [reflexivity|].
  right. rewrite Hl. unfold u32, ZF_DSTACK_SIZE. pow2.
  Z.div_mod_to_equations. lia.
Qed.

(** ** User variables *)

Lemma uservar_set_uservar i v s :
  dict_sized s -> 0 <= i < ZF_USERVAR_COUNT ->
  uservar i (set_uservar i v s) = u32 v.
Proof.
  unfold dict_sized, uservar, set_uservar, ZF_USERVAR_COUNT. intros Hs Hi.
  cbn [dict set_dict].
  change 4%nat with (length (le_bytes 4 v)) at 2.
  rewrite sub_overwrite_same.
  - rewrite le_value_le_bytes. reflexivity.
  - rewrite le_bytes_length, Hs.
    change (Z.to_nat ZF_DICT_SIZE) with 4096%nat. lia.
Qed.

Lemma prim_of_code_prim_code p : prim_of_code (prim_code p) = Some p.
Proof. destruct p; reflexivity. Qed.

Section EvalFacts.

Variable DATA_SIZE : Z.

Lemma allowed_not_ok r : allowed r -> setjmp_value r = r.
Proof. unfold allowed. intros [->|[->|[->| ->]]]; reflexivity. Qed.

Lemma allowed_not_boundary r : allowed r -> ~ In r boundary_reasons.
Proof.
  unfold allowed, boundary_reasons. cbn [In].
  intros [->|[->|[->| ->]]] H; intuition discriminate.
Qed.

(** C9.  With [ZF_ENABLE_BOUNDARY_CHECKS] at 0 the macro [CHECK] of the
    stack operations and of the dictionary accessors expands to nothing:
    whatever the program, the result of [zf_eval] is none of
    DSTACK_UNDERRUN, DSTACK_OVERRUN, RSTACK_UNDERRUN, RSTACK_OVERRUN and
    OUTSIDE_MEM, and a pop from the empty stack is an access outside the
    array, not an abort. *)
Theorem no_boundary_abort (fuel : nat) (buf : source) (s s' : state)
  (r : zf_result) :
  zf_eval DATA_SIZE fuel buf s = Ok r s' ->
  ZF_ENABLE_BOUNDARY_CHECKS = false /\
  (forall exp abort, CHECK exp abort = ret tt) /\
  ~ In r boundary_reasons /\
  (forall s0, dsp s0 = 0 ->
     Z.of_nat (length (dstack s0)) = ZF_DSTACK_SIZE ->
     zf_pop s0 = Undefined).
Proof.
  intros H. split; [reflexivity|]. split; [exact CHECK_off|].
  split; [|exact zf_pop_empty].
  unfold zf_eval in H.
  pose proof (safe_zf_eval_loop DATA_SIZE fuel buf 0 s) as Hsafe.
  destruct (zf_eval_loop DATA_SIZE fuel buf 0 s) as [a s1|r1 s1| |];
    try discriminate.
  - injection H as <- _. unfold boundary_reasons. cbn [In].
    intuition discriminate.
  - injection H as <- _. destruct Hsafe as [Hr _].
    rewrite allowed_not_ok by assumption.
    now apply allowed_not_boundary.
Qed.

Lemma prim_div_by_zero fuel input s vs :
  dstack_top s (0 :: vs) ->
  do_prim DATA_SIZE fuel (prim_code PRIM_DIV) input s
  = Abort ZF_ABORT_DIVISION_BY_ZERO (set_dsp (dsp s - 1) s).
Proof.
  intros Htop. destruct (zf_pop_top s 0 vs Htop) as [Hpop _].
  unfold do_prim. rewrite prim_of_code_prim_code.
  unfold bind at 1. rewrite Hpop. reflexivity.
Qed.

(** C5.  When the evaluation of a source string aborts, [zf_eval] returns
    the reason of the abort with [COMPILING] and both stack pointers at 0,
    and those are what an evaluation that follows starts from; the
    primitive [/] aborts in this way, with DIVISION_BY_ZERO, when it pops a
    zero divisor. *)
Theorem abort_returns_to_eval (fuel : nat) (buf : source) (s s1 : state)
  (reason : zf_result) :
  dict_sized s ->
  zf_eval_loop DATA_SIZE fuel buf 0 s = Abort reason s1 ->
  zf_eval DATA_SIZE fuel buf s = Ok reason (unwound s1) /\
  COMPILING (unwound s1) = 0 /\ dsp (unwound s1) = 0 /\
  rsp (unwound s1) = 0 /\
  (forall fuel' buf',
     (zf_eval DATA_SIZE fuel buf ;; zf_eval DATA_SIZE fuel' buf') s
     = zf_eval DATA_SIZE fuel' buf' (unwound s1)) /\
  (forall fuel' input s0 vs,
     dstack_top s0 (0 :: vs) ->
     do_prim DATA_SIZE fuel' (prim_code PRIM_DIV) input s0
     = Abort ZF_ABORT_DIVISION_BY_ZERO (set_dsp (dsp s0 - 1) s0)).
Proof.
  intros Hs Hloop.
  pose proof (safe_zf_eval_loop DATA_SIZE fuel buf 0 s) as Hsafe.
  rewrite Hloop in Hsafe. destruct Hsafe as [Hr Hd].
  assert (Heval : zf_eval DATA_SIZE fuel buf s = Ok reason (unwound s1)).
  { unfold zf_eval. rewrite Hloop. now rewrite allowed_not_ok. }
  split; [exact Heval|].
  split.
  { unfold COMPILING, unwound. 
    change (uservar ZF_USERVAR_COMPILING
              (set_dsp 0 (set_rsp 0 (set_uservar ZF_USERVAR_COMPILING 0 s1))))
      with (uservar ZF_USERVAR_COMPILING
              (set_uservar ZF_USERVAR_COMPILING 0 s1)).
    rewrite uservar_set_uservar; [reflexivity|auto|].
    unfold ZF_USERVAR_COMPILING, ZF_USERVAR_COUNT. lia. }
  split; [reflexivity|]. split; [reflexivity|].
  split.
  - intros fuel' buf'. unfold bind. now rewrite Heval.
  - intros. now apply prim_div_by_zero with (vs := vs).
Qed.

End EvalFacts.

(** ** Primitives *)

Section PrimFacts.

Variable DATA_SIZE : Z.

Lemma peek_uservar a len s :
  0 <= a < ZF_USERVAR_COUNT ->
  peek a len s = Ok (s32 (uservar a s), 1) s.
Proof.
  intros Ha. unfold peek. destruct (Z.ltb_spec a ZF_USERVAR_COUNT); [|lia].
  reflexivity.
Qed.

Lemma u32_small a : 0 <= a < 2 ^ 32 -> u32 a = a.
Proof. intros H. unfold u32. now apply Z.mod_small. Qed.

(** C10.  At an address [a] below [ZF_USERVAR_COUNT] the memory primitives
    go to the user variable and not through the cell decoder: [peek] gives
    [uservar[a]] with the length 1 whatever the size asked for, so [@@]
    pushes [uservar[a]] and [##] pushes 1, and [!!] stores the popped
    value in [uservar[a]] whatever the size selector [sel], valid or
    not. *)
Theorem uservar_peek_poke (fuel : nat) (input : option (list Z))
  (s : state) (a sel v : Z) (vs : list Z) :
  dict_sized s -> 0 <= a < ZF_USERVAR_COUNT ->
  (forall len, peek a len s = Ok (s32 (uservar a s), 1) s) /\
  (dstack_top s (sel :: a :: vs) ->
   exists s',
     do_prim DATA_SIZE fuel (prim_code PRIM_PEEK) input s = Ok tt s' /\
     dstack_top s' (s32 (uservar a s) :: vs) /\ dict s' = dict s) /\
  (dstack_top s (sel :: a :: vs) ->
   exists s',
     do_prim DATA_SIZE fuel (prim_code PRIM_LEN) input s = Ok tt s' /\
     dstack_top s' (1 :: vs) /\ dict s' = dict s) /\
  (dstack_top s (sel :: a :: v :: vs) ->
   do_prim DATA_SIZE fuel (prim_code PRIM_POKE) input s
   = Ok tt (set_uservar a v (set_dsp (dsp s - 3) s)) /\
   uservar a (set_uservar a v (set_dsp (dsp s - 3) s)) = u32 v /\
   dstack_top (set_uservar a v (set_dsp (dsp s - 3) s)) vs).
Proof.
  intros Hs Ha.
  assert (Hua : u32 a = a).
  { apply u32_small. unfold ZF_USERVAR_COUNT in Ha. pow2. lia. }
  split; [intros len; now apply peek_uservar|].
  split; [|split].
  - intros Htop.
    destruct (zf_pop_top _ _ _ Htop) as [Hp1 Htop1].
    destruct (zf_pop_top _ _ _ Htop1) as [Hp2 Htop2].
    cbn [dsp set_dsp] in *.
    set (s2 := set_dsp (dsp s - 1 - 1) (set_dsp (dsp s - 1) s)) in *.
    destruct (zf_push_top s2 (s32 (uservar a s)) vs Htop2)
      as (s' & Hpush & Htop' & _ & Hs').
    { destruct Htop as (_ & Hn & _). unfold ZF_DSTACK_SIZE in *.
      subst s2. cbn [dsp set_dsp]. lia. }
    exists s'. split; [|split; [assumption|now subst s']].
    unfold do_prim. rewrite prim_of_code_prim_code.
    unfold bind at 1. rewrite Hp1. unfold bind at 1. rewrite Hp2.
    unfold bind at 1. rewrite Hua, peek_uservar by assumption.
    exact Hpush.
  - intros Htop.
    destruct (zf_pop_top _ _ _ Htop) as [Hp1 Htop1].
    destruct (zf_pop_top _ _ _ Htop1) as [Hp2 Htop2].
    cbn [dsp set_dsp] in *.
    set (s2 := set_dsp (dsp s - 1 - 1) (set_dsp (dsp s - 1) s)) in *.
    destruct (zf_push_top s2 1 vs Htop2)
      as (s' & Hpush & Htop' & _ & Hs').
    { destruct Htop as (_ & Hn & _). unfold ZF_DSTACK_SIZE in *.
      subst s2. cbn [dsp set_dsp]. lia. }
    exists s'. split; [|split; [assumption|now subst s']].
    unfold do_prim. rewrite prim_of_code_prim_code.
    unfold bind at 1. rewrite Hp1. unfold bind at 1. rewrite Hp2.
    unfold bind at 1. rewrite Hua, peek_uservar by assumption.
    exact Hpush.
  - intros Htop.
    destruct (zf_pop_top _ _ _ Htop) as [Hp1 Htop1].
    destruct (zf_pop_top _ _ _ Htop1) as [Hp2 Htop2].
    destruct (zf_pop_top _ _ _ Htop2) as [Hp3 Htop3].
    cbn [dsp set_dsp] in *.
    replace (dsp s - 1 - 1 - 1) with (dsp s - 3) in * by lia.
    split; [|split].
    + unfold do_prim. rewrite prim_of_code_prim_code.
      unfold bind at 1. rewrite Hp1. unfold bind at 1. rewrite Hp2.
      unfold bind at 1. rewrite Hp3. rewrite Hua.
      destruct (Z.ltb_spec a ZF_USERVAR_COUNT); [|lia].
      reflexivity.
    + now apply uservar_set_uservar.
    + exact Htop3.
Qed.

(** The primitive [.]: the cell on top of the stack goes to
    [WRITE_BUF[write_pos]] and [write_pos] moves on, back to 0 at
    [WRITE_BUF_MAX]. *)
Lemma prim_emit (fuel : nat) (input : option (list Z)) (s : state)
  (v : Z) (vs : list Z) :
  dstack_top s (v :: vs) ->
  0 <= write_pos s < 2 ^ 32 - 1 ->
  0 <= WRITE_BUF DATA_SIZE + 4 * write_pos s ->
  WRITE_BUF DATA_SIZE + 4 * write_pos s + 4 <= Z.of_nat (length (sram s)) ->
  exists s',
    do_prim DATA_SIZE fuel (prim_code PRIM_EMIT) input s = Ok tt s' /\
    dstack_top s' vs /\ dsp s' = dsp s - 1 /\
    sram s' = overwrite (sram s)
                (Z.to_nat (WRITE_BUF DATA_SIZE + 4 * write_pos s))
                (le_bytes 4 v) /\
    write_pos s'
    = (if write_pos s + 1 =? DATA_SIZE then 0 else write_pos s + 1).
Proof.
  intros Htop Hwp Hlo Hhi.
  destruct (zf_pop_top _ _ _ Htop) as [Hp1 Htop1].
  eexists. split; [|split; [|split; [|split]]].
  - unfold do_prim. rewrite prim_of_code_prim_code.
    unfold bind at 1. rewrite Hp1.
    cbv beta iota delta [bind gets modify ret store_int32].
    cbn [write_pos sram set_dsp].
    rewrite splice_inside by (rewrite ?le_bytes_length; lia).
    cbn [defined ret write_pos sram set_dsp set_sram set_write_pos].
    rewrite u32_small by lia. reflexivity.
  - exact Htop1.
  - reflexivity.
  - reflexivity.
  - reflexivity.
Qed.

End PrimFacts.

(** ** The node *)

Lemma bytes_eqb_eq (a b : list Z) : bytes_eqb a b = true <-> a = b.
Proof.
  revert b; induction a as [|x a IH]; intros [|y b]; cbn [bytes_eqb];
    try (split; [discriminate|discriminate]); try tauto.
  rewrite andb_true_iff, Z.eqb_eq, IH. split.
  - intros [-> ->]. reflexivity.
  - intros [= -> ->]. auto.
Qed.

Lemma hex_digits_length n w : length (hex_digits n w) = n.
Proof.
  revert w; induction n as [|n IH]; intros w; cbn [hex_digits].
  - reflexivity.
  - rewrite length_app, IH. cbn [length]. lia.
Qed.

Lemma hex_digit_nonzero d : 0 <= d -> hex_digit d <> 0.
Proof. unfold hex_digit. destruct (d <? 10); lia. Qed.

Lemma hex_digits_nonzero n w : Forall (fun c => c <> 0) (hex_digits n w).
Proof.
  revert w; induction n as [|n IH]; intros w; cbn [hex_digits].
  - constructor.
  - apply Forall_app. split; [apply IH|].
    constructor; [|constructor]. apply hex_digit_nonzero.
    apply Z.mod_pos_bound. lia.
Qed.

Lemma strcpy_c_string (h : list Z) : forall dst,
  length dst = S (length h) -> Forall (fun c => c <> 0) h ->
  strcpy dst (h ++ [0]) = Some (h ++ [0]).
Proof.
  induction h as [|c h IH]; intros dst Hl Hh; cbn [length] in Hl.
  - destruct dst as [|x [|y dst]]; try discriminate. reflexivity.
  - destruct dst as [|x dst]; [discriminate|]. cbn [app strcpy].
    inversion Hh as [|? ? Hc Hh']; subst.
    destruct (Z.eqb_spec c 0); [contradiction|].
    rewrite IH; [reflexivity| |assumption]. cbn [length] in Hl. lia.
Qed.

Section IdentityFacts.

Variable chip_id : Z -> Z.

Lemma UID_c_string :
  exists h, UID chip_id = h ++ [0] /\ length h = 24%nat /\
            Forall (fun c => c <> 0) h.
Proof.
  unfold UID, collect_bid.
  set (digits := hex_digits 8 _ ++ hex_digits 8 _ ++ hex_digits 8 _).
  assert (Hl : length digits = 24%nat).
  { subst digits. rewrite !length_app, !hex_digits_length. reflexivity. }
  assert (Hn : Forall (fun c => c <> 0) digits).
  { subst digits. rewrite !Forall_app. auto using hex_digits_nonzero. }
  exists digits. change (Z.to_nat UID_SIZE - 1)%nat with 24%nat.
  rewrite <- Hl, firstn_all. auto.
Qed.

Lemma UID_length : length (UID chip_id) = 25%nat.
Proof.
  destruct UID_c_string as (h & -> & Hl & _).
  rewrite length_app, Hl. reflexivity.
Qed.

Lemma strcpy_UID dst :
  length dst = 25%nat -> strcpy dst (UID chip_id) = Some (UID chip_id).
Proof.
  intros Hd. destruct UID_c_string as (h & -> & Hl & Hn).
  apply strcpy_c_string; [lia|assumption].
Qed.

End IdentityFacts.

(** One step of a computation that returns. *)
Lemma bind_Ok {A B : Type} (m : M A) (k : A -> M B) s a s' :
  m s = Ok a s' -> bind m k s = k a s'.
Proof. intros H. unfold bind. now rewrite H. Qed.

Lemma bind_assoc {A B C : Type} (m : M A) (f : A -> M B) (g : B -> M C) s :
  bind (bind m f) g s = bind m (fun x => bind (f x) g) s.
Proof. unfold bind. destruct (m s); reflexivity. Qed.

Lemma update_packet_spec f s :
  update_packet f s = Ok tt (set_packet (f (packet s)) s).
Proof. reflexivity. Qed.

Lemma log_spec e s : log e s = Ok tt (logged [e] s).
Proof. reflexivity. Qed.

Lemma gets_spec {A : Type} (f : state -> A) s : gets f s = Ok (f s) s.
Proof. reflexivity. Qed.

Lemma modify_spec f s : modify f s = Ok tt (f s).
Proof. reflexivity. Qed.

(** Run the first step of a sequence when it is a plain one. *)
Ltac mstep :=
  rewrite ?bind_assoc; erewrite bind_Ok by reflexivity; cbv beta.

Ltac simpl_state :=
  cbn [dict rstack dstack input_state dsp rsp ip tok sram write_pos sensors
       packet buffer checksum_var bytes_rx trace
       set_dict set_rstack set_dstack set_input_state set_dsp set_rsp
       set_ip set_tok set_sram set_write_pos set_sensors set_packet
       set_buffer set_checksum_var set_bytes_rx set_trace
       arrived refreshed logged].

Section NodeFacts.

Variable DATA_SIZE : Z.
Variable crc16_byte : Z -> Z -> Z.
Variables PING READ WRITE SENSORS LOAD EXEC RETR ACK ERR : Z.
Variables OWN ALL TEMP VDD : Z.
Variable g_pfnVectors0 : Z.
Variables vdd_cal temp30_cal temp110_cal : Z.
Variable chip_id : Z -> Z.

Hypothesis tags : tags_ok PING READ WRITE SENSORS LOAD EXEC RETR ACK ERR.
Hypothesis data_size : 0 <= DATA_SIZE.

Local Abbreviation PACKET_SIZE := (PACKET_SIZE DATA_SIZE).
Local Abbreviation parse_packet := (parse_packet DATA_SIZE).
Local Abbreviation send_packet := (send_packet DATA_SIZE).
Local Abbreviation packet_image := (packet_image DATA_SIZE).
Local Abbreviation frame_crc := (frame_crc DATA_SIZE crc16_byte).
Local Abbreviation intact := (intact DATA_SIZE crc16_byte).
Local Abbreviation sealed := (sealed DATA_SIZE crc16_byte).
Local Abbreviation packet_shaped := (packet_shaped DATA_SIZE).
Local Abbreviation UID := (UID chip_id).
Local Abbreviation sram_size := (sram_size g_pfnVectors0).
Local Abbreviation refresh_checksum := (refresh_checksum DATA_SIZE crc16_byte).
Local Abbreviation send := (send DATA_SIZE).
Local Abbreviation forward_down := (forward_down DATA_SIZE crc16_byte).
Local Abbreviation reply_up := (reply_up DATA_SIZE crc16_byte).
Local Abbreviation ping :=
  (ping DATA_SIZE crc16_byte PING ACK OWN ALL g_pfnVectors0 chip_id).
Local Abbreviation dispatch :=
  (dispatch DATA_SIZE crc16_byte PING READ WRITE SENSORS LOAD EXEC RETR ACK
     OWN ALL TEMP VDD g_pfnVectors0 vdd_cal temp30_cal temp110_cal chip_id).
Local Abbreviation handle_packet :=
  (handle_packet DATA_SIZE crc16_byte PING READ WRITE SENSORS LOAD EXEC RETR
     ACK ERR OWN ALL TEMP VDD g_pfnVectors0 vdd_cal temp30_cal temp110_cal
     chip_id).
Local Abbreviation serve :=
  (serve DATA_SIZE crc16_byte PING READ WRITE SENSORS LOAD EXEC RETR ACK ERR
     OWN ALL TEMP VDD g_pfnVectors0 vdd_cal temp30_cal temp110_cal chip_id).
Local Abbreviation eval_cmd := (eval_cmd DATA_SIZE).
Local Abbreviation arrived := (arrived DATA_SIZE crc16_byte).
Local Abbreviation refreshed := (refreshed DATA_SIZE crc16_byte).
Local Abbreviation SRC_BUF := (SRC_BUF DATA_SIZE).
Local Abbreviation WRITE_BUF := (WRITE_BUF DATA_SIZE).

Lemma send_packet_length p :
  packet_shaped p -> length (send_packet p) = Z.to_nat PACKET_SIZE.
Proof.
  intros [Hu Hd]. unfold send_packet, PACKET_SIZE.
  rewrite !length_app, !length_firstn, !le_bytes_length, Hu, Hd.
  unfold UID_SIZE. lia.
Qed.

Lemma parse_packet_shaped rx :
  Z.of_nat (length rx) = PACKET_SIZE -> packet_shaped (parse_packet rx).
Proof.
  unfold PACKET_SIZE, UID_SIZE. intros Hl.
  split; cbn [parse_packet uid data]; unfold sub, UID_SIZE;
    rewrite length_firstn, length_skipn; lia.
Qed.

Lemma zero_checksum_bytes_spec s :
  Z.of_nat (length (buffer s)) = PACKET_SIZE ->
  zero_checksum_bytes DATA_SIZE s
  = Ok tt (set_buffer
             (overwrite (buffer s) (Z.to_nat (PACKET_SIZE - 2)) [0; 0]) s).
Proof.
  intros Hl. unfold zero_checksum_bytes.
  cbv beta iota delta [bind gets modify ret].
  rewrite splice_inside; [reflexivity| |cbn [length]; lia].
  unfold PACKET_SIZE, UID_SIZE. lia.
Qed.

(** [packet.checksum = make_crc(&packet, buffer)]. *)
Lemma refresh_checksum_spec s :
  packet_shaped (packet s) ->
  refresh_checksum s = Ok tt (refreshed (packet s) s).
Proof.
  intros Hp. pose proof (send_packet_length _ Hp) as Hl.
  unfold refresh_checksum, make_crc, zero_checksum_bytes, update_packet.
  cbv beta iota delta [bind gets modify ret].
  cbn [packet buffer set_buffer].
  rewrite splice_inside.
  - reflexivity.
  - unfold PACKET_SIZE, UID_SIZE. lia.
  - unfold packet_image. rewrite Hl. cbn [length].
    unfold PACKET_SIZE, UID_SIZE. lia.
Qed.

Lemma send_spec u s :
  send u s = Ok tt (logged [Transmit u (send_packet (packet s))] s).
Proof. reflexivity. Qed.

Lemma forward_down_spec s :
  packet_shaped (packet s) ->
  forward_down s
  = Ok tt (logged [Transmit huart3 (send_packet (sealed (packet s)));
                   RESET_DOWNWARDS; RESET_UPWARDS]
             (refreshed (packet s) s)).
Proof.
  intros Hp. unfold forward_down. unfold bind at 1.
  rewrite refresh_checksum_spec by assumption.
  unfold logged. cbv beta iota delta [bind gets modify ret send log].
  cbn [packet trace refreshed set_packet set_buffer set_trace].
  rewrite <- !app_assoc. reflexivity.
Qed.

Lemma reply_up_spec s :
  packet_shaped (packet s) ->
  reply_up s
  = Ok tt (logged [Transmit huart1 (send_packet (sealed (packet s)));
                   RESET_UPWARDS]
             (refreshed (packet s) s)).
Proof.
  intros Hp. unfold reply_up. unfold bind at 1.
  rewrite refresh_checksum_spec by assumption.
  unfold logged. cbv beta iota delta [bind gets modify ret send log].
  cbn [packet trace refreshed set_packet set_buffer set_trace].
  rewrite <- !app_assoc. reflexivity.
Qed.

(** The loop takes the frame: what [handle_packet] does before the
    dispatch when the checksum matches, and when it does not. *)
Lemma serve_intact fuel rx s :
  Z.of_nat (length rx) = PACKET_SIZE -> 0 <= bytes_rx s -> intact rx ->
  serve fuel rx s
  = dispatch fuel (u16 (fst (sensors s))) (u16 (snd (sensors s)))
      (arrived rx s).
Proof.
  intros Hl Hb Hi.
  unfold serve, receive, main_loop.
  cbv beta iota delta [bind gets modify ret].
  cbn [bytes_rx set_bytes_rx set_buffer].
  destruct (Z.ltb_spec (bytes_rx s + PACKET_SIZE) PACKET_SIZE); [lia|].
  unfold handle_packet, zero_checksum_bytes, update_packet.
  cbv beta iota delta [bind gets modify ret].
  cbn [sensors buffer packet set_bytes_rx set_buffer set_packet].
  rewrite splice_inside;
    [|unfold PACKET_SIZE, UID_SIZE; lia|cbn [length]; lia].
  cbn [defined ret buffer checksum_var packet set_buffer set_checksum_var
         set_packet].
  fold (frame_crc rx).
  replace (checksum (set_pic _ _)) with (checksum (parse_packet rx))
    by reflexivity.
  unfold intact in Hi. rewrite <- Hi, Z.eqb_refl. reflexivity.
Qed.

(** The labels of the switch, two by two. *)
Lemma tags_differ :
  PING <> READ /\ PING <> WRITE /\ PING <> SENSORS /\ PING <> LOAD /\
  PING <> EXEC /\ PING <> RETR /\ PING <> ERR /\
  READ <> WRITE /\ READ <> SENSORS /\ READ <> LOAD /\ READ <> EXEC /\
  READ <> RETR /\ READ <> ERR /\
  WRITE <> SENSORS /\ WRITE <> LOAD /\ WRITE <> EXEC /\ WRITE <> RETR /\
  WRITE <> ERR /\
  SENSORS <> LOAD /\ SENSORS <> EXEC /\ SENSORS <> RETR /\ SENSORS <> ERR /\
  LOAD <> EXEC /\ LOAD <> RETR /\ LOAD <> ERR /\
  EXEC <> RETR /\ EXEC <> ERR /\ RETR <> ERR.
Proof.
  destruct tags as [Hnd _].
  repeat match goal with
         | H : NoDup (_ :: _) |- _ =>
             let a := fresh in
             let b := fresh in
             inversion H as [|? ? a b]; clear H; subst
         end.
  cbn [In] in *. intuition congruence.
Qed.

Lemma tags_are_bytes :
  u8 ACK = ACK /\ u8 ERR = ERR /\ u8 PING = PING.
Proof.
  destruct tags as [_ Hby].
  repeat match goal with
         | H : Forall _ (_ :: _) |- _ =>
             let a := fresh in
             let b := fresh in
             inversion H as [|? ? a b]; clear H; subst
         end.
  unfold is_byte, u8 in *. pow2.
  repeat split; apply Z.mod_small; lia.
Qed.

Lemma STR_MATCH_spec u :
  length u = Z.to_nat UID_SIZE -> STR_MATCH UID u = true <-> u = UID.
Proof.
  intros Hu. unfold STR_MATCH. rewrite bytes_eqb_eq.
  rewrite <- Hu at 2. rewrite firstn_all.
  replace (Z.to_nat UID_SIZE) with (length UID)
    by (rewrite UID_length; reflexivity).
  rewrite firstn_all. split; intros H; congruence.
Qed.

(** Decide the tests of the switch from the tag at hand. *)
Ltac switch_on Hc :=
  rewrite Hc;
  repeat match goal with
         | |- context [?a =? ?a] => rewrite (Z.eqb_refl a)
         | |- context [?a =? ?b] =>
             destruct (Z.eqb_spec a b);
             [exfalso; pose proof tags_differ; intuition congruence|]
         end.

(** C3.  A frame that passes the checksum test, carries one of READ, WRITE,
    SENSORS, LOAD, EXEC and RETR and bears another uid than this node's is
    sent on the down-link (with the hop counter one up and the checksum
    recomputed, the payload being the received one), and neither the memory
    surface nor [write_pos] nor the interpreter changes. *)
Theorem foreign_packet_goes_down (fuel : nat) (rx : list Z) (s : state) :
  Z.of_nat (length rx) = PACKET_SIZE -> 0 <= bytes_rx s -> intact rx ->
  In (command (parse_packet rx)) [READ; WRITE; SENSORS; LOAD; EXEC; RETR] ->
  uid (parse_packet rx) <> UID ->
  exists s',
    serve fuel rx s = Ok tt s' /\
    trace s'
    = trace s ++ [Transmit huart3
                    (send_packet (sealed (hop (parse_packet rx))));
                  RESET_DOWNWARDS; RESET_UPWARDS] /\
    data (sealed (hop (parse_packet rx))) = data (parse_packet rx) /\
    untouched s s'.
Proof.
  intros Hl Hb Hi Hc Hu.
  pose proof (parse_packet_shaped rx Hl) as Hshape.
  assert (Hm : STR_MATCH UID (uid (parse_packet rx)) = false).
  { destruct (STR_MATCH UID (uid (parse_packet rx))) eqn:E; [|reflexivity].
    apply STR_MATCH_spec in E; [contradiction|apply Hshape]. }
  rewrite serve_intact by assumption.
  eexists. split; [|split; [|split]].
  - unfold dispatch. unfold bind at 1. cbn [gets].
    change (packet (arrived rx s)) with (hop (parse_packet rx)).
    change (uid (hop (parse_packet rx))) with (uid (parse_packet rx)).
    change (command (hop (parse_packet rx)))
      with (command (parse_packet rx)).
    rewrite Hm. cbn [negb].
    cbn [In] in Hc.
    destruct Hc as [Hc|[Hc|[Hc|[Hc|[Hc|[Hc|[]]]]]]]; symmetry in Hc;
      switch_on Hc; apply forward_down_spec; exact Hshape.
  - reflexivity.
  - reflexivity.
  - repeat split.
Qed.

Lemma u32_options rx : u32 (options (parse_packet rx)) = options (parse_packet rx).
Proof.
  cbn [parse_packet options]. unfold u32. apply Z.mod_mod. lia.
Qed.

(** C8.  A frame that passes the checksum test and carries PING with the
    option ALL is answered on the up-link by an ACK that bears the uid of
    this node and, as options, the size of its RAM (the first entry of the
    vector table less the base of the RAM), whatever uid was received;
    after that a PING with the option ALL goes out on the down-link. *)
Theorem ping_all_answers_and_forwards (fuel : nat) (rx : list Z)
  (s : state) :
  Z.of_nat (length rx) = PACKET_SIZE -> 0 <= bytes_rx s -> intact rx ->
  command (parse_packet rx) = PING -> options (parse_packet rx) = ALL ->
  OWN <> ALL ->
  exists s' ack fwd,
    serve fuel rx s = Ok tt s' /\
    trace s'
    = trace s ++ [Transmit huart1 (send_packet ack); RESET_UPWARDS;
                  Transmit huart3 (send_packet fwd); RESET_DOWNWARDS] /\
    command ack = ACK /\ uid ack = UID /\
    options ack = u32 (u32 g_pfnVectors0 - SRAM_ADDRESS) /\
    command fwd = PING /\ options fwd = ALL.
Proof.
  intros Hl Hb Hi Hc Ho Hne.
  pose proof (parse_packet_shaped rx Hl) as Hshape.
  destruct tags_are_bytes as (Hack & _ & Hping).
  assert (HuA : u32 ALL = ALL) by (rewrite <- Ho; apply u32_options).
  rewrite serve_intact by assumption.
  set (p := hop (parse_packet rx)).
  set (a := set_command ACK (set_options sram_size (set_uid UID p))).
  set (f := set_options ALL (set_command PING (sealed a))).
  assert (Ha : packet_shaped a).
  { split; [apply UID_length|apply Hshape]. }
  eexists. exists (sealed a), (sealed f).
  split; [|split; [|repeat split]].
  - unfold dispatch. unfold bind at 1. cbn [gets].
    change (packet (arrived rx s)) with p.
    change (command p) with (command (parse_packet rx)).
    rewrite Hc, Z.eqb_refl.
    unfold ping. unfold bind at 1. cbn [gets].
    change (packet (arrived rx s)) with p.
    change (options p) with (options (parse_packet rx)).
    rewrite Ho. destruct (Z.eqb_spec ALL OWN); [congruence|].
    rewrite Z.eqb_refl.
    unfold bind at 1.
    rewrite strcpy_UID by apply Hshape. cbn [defined ret].
    rewrite Hack, Hping, HuA.
    do 3 (erewrite bind_Ok by apply update_packet_spec).
    change (set_packet _ (set_packet _ (set_packet _ (arrived rx s))))
      with (set_packet a (arrived rx s)).
    erewrite bind_Ok by (apply refresh_checksum_spec; exact Ha).
    erewrite bind_Ok by apply send_spec.
    erewrite bind_Ok by apply log_spec.
    do 2 (erewrite bind_Ok by apply update_packet_spec).
    erewrite bind_Ok by (apply refresh_checksum_spec; exact Ha).
    erewrite bind_Ok by apply send_spec.
    apply log_spec.
  - unfold logged, refreshed. simpl_state.
    rewrite <- !app_assoc. reflexivity.
Qed.

Lemma overwrite_tail (body t src : list Z) :
  length t = length src ->
  overwrite (body ++ t) (length body) src = body ++ src.
Proof.
  intros Hl. unfold overwrite.
  rewrite firstn_app, Nat.sub_diag, firstn_all. cbn [firstn].
  rewrite app_nil_r. f_equal.
  rewrite skipn_all2 by (rewrite length_app; lia).
  apply app_nil_r.
Qed.

(** The checksum bytes do not enter the checksum. *)
Lemma frame_crc_set_checksum c p :
  packet_shaped p ->
  frame_crc (packet_image (set_checksum c p)) = frame_crc (packet_image p).
Proof.
  intros [Hu Hd]. unfold frame_crc. f_equal.
  unfold packet_image, send_packet.
  cbn [command pic options uid data checksum set_checksum].
  rewrite !app_assoc.
  match goal with
  | |- overwrite (?b ++ _) _ _ = overwrite (?b ++ _) _ _ =>
      assert (Hb : length b = Z.to_nat (PACKET_SIZE - 2))
  end.
  { rewrite !length_app, !length_firstn, !le_bytes_length, Hu, Hd.
    unfold PACKET_SIZE, UID_SIZE. lia. }
  rewrite <- Hb, !overwrite_tail by reflexivity. reflexivity.
Qed.

Lemma sealed_sealed p : packet_shaped p -> sealed (sealed p) = sealed p.
Proof.
  intros Hp. unfold sealed at 1 3.
  unfold sealed. rewrite frame_crc_set_checksum by assumption. reflexivity.
Qed.

(** What the node does with a frame that fails the checksum test: the ERR
    packet with options 1 goes out on the up-link, and goes out again when
    the switch that follows falls to its ERR label; nothing goes down and
    the memory surface, [write_pos] and the interpreter stay as they
    are. *)
Theorem corrupt_frame_answered_twice (fuel : nat) (rx : list Z)
  (s : state) :
  Z.of_nat (length rx) = PACKET_SIZE -> 0 <= bytes_rx s -> ~ intact rx ->
  exists s' err,
    serve fuel rx s = Ok tt s' /\
    command err = ERR /\ options err = 1 /\
    trace s'
    = trace s ++ [Transmit huart1 (send_packet err); RESET_UPWARDS;
                  Transmit huart1 (send_packet err); RESET_UPWARDS] /\
    untouched s s'.
Proof.
  intros Hl Hb Hi.
  pose proof (parse_packet_shaped rx Hl) as Hshape.
  destruct tags_are_bytes as (_ & Herr & _).
  set (e := set_options 1 (set_command ERR (hop (parse_packet rx)))).
  assert (He : packet_shaped e) by exact Hshape.
  eexists. exists (sealed e).
  split; [|split; [reflexivity|split; [reflexivity|split]]].
  - unfold serve, receive, main_loop.
    repeat mstep. simpl_state.
    destruct (Z.ltb_spec (bytes_rx s + PACKET_SIZE) PACKET_SIZE); [lia|].
    unfold handle_packet.
    repeat mstep. simpl_state.
    erewrite bind_Ok by (apply zero_checksum_bytes_spec; exact Hl).
    repeat mstep. simpl_state. fold (frame_crc rx).
    change (checksum (set_pic _ _)) with (checksum (parse_packet rx)).
    destruct (Z.eqb_spec (frame_crc rx) (checksum (parse_packet rx)));
      [contradiction|].
    cbn [negb]. rewrite Herr.
    match goal with
    | |- bind _ _ ?st = _ => change st with (arrived rx s)
    end.
    repeat mstep.
    change (set_packet _ (set_packet _ (arrived rx s)))
      with (set_packet e (arrived rx s)).
    rewrite ?bind_assoc.
    erewrite bind_Ok by (apply refresh_checksum_spec; exact He).
    rewrite ?bind_assoc.
    erewrite bind_Ok by apply send_spec.
    repeat mstep.
    unfold dispatch. repeat mstep. simpl_state.
    change (command (sealed e)) with ERR.
    repeat match goal with
           | |- context [ERR =? ?b] =>
               destruct (Z.eqb_spec ERR b);
               [exfalso; pose proof tags_differ; intuition congruence|]
           end.
    apply reply_up_spec. exact He.
  - unfold logged, refreshed. simpl_state.
    rewrite (sealed_sealed e He), <- !app_assoc. reflexivity.
  - repeat split.
Qed.

(** What RETR reads.  [WRITE_BUF] points to [int32_t], so the block index
    is scaled by four: the payload of the ACK holds the [DATA_SIZE] bytes
    that lie [4 * DATA_SIZE * options] bytes after the start of the write
    buffer. *)
Theorem retr_reads_scaled_offset (fuel : nat) (rx : list Z) (s : state) :
  Z.of_nat (length rx) = PACKET_SIZE -> 0 <= bytes_rx s -> intact rx ->
  command (parse_packet rx) = RETR -> uid (parse_packet rx) = UID ->
  u32 (WRITE_BUF + 4 * u32 (DATA_SIZE * options (parse_packet rx)))
  + DATA_SIZE <= Z.of_nat (length (sram s)) ->
  exists s' ack,
    serve fuel rx s = Ok tt s' /\
    trace s' = trace s ++ [Transmit huart1 (send_packet ack); RESET_UPWARDS] /\
    command ack = ACK /\
    data ack
    = sub (sram s)
        (Z.to_nat
           (u32 (WRITE_BUF + 4 * u32 (DATA_SIZE * options (parse_packet rx)))))
        (Z.to_nat DATA_SIZE).
Proof.
  intros Hl Hb Hi Hc Hu Hin.
  pose proof (parse_packet_shaped rx Hl) as Hshape.
  destruct tags_are_bytes as (Hack & _ & _).
  assert (Hm : STR_MATCH UID (uid (parse_packet rx)) = true).
  { apply STR_MATCH_spec; [apply Hshape|assumption]. }
  set (off := u32 (WRITE_BUF + 4 * u32 (DATA_SIZE * options (parse_packet rx))))
    in *.
  assert (Hoff : 0 <= off) by (apply Z.mod_pos_bound; lia).
  set (d := sub (sram s) (Z.to_nat off) (Z.to_nat DATA_SIZE)).
  set (a := set_command ACK (set_data d (hop (parse_packet rx)))).
  assert (Ha : packet_shaped a).
  { split; [apply Hshape|]. unfold a, d. cbn [data set_command set_data].
    apply sub_length. lia. }
  rewrite serve_intact by assumption.
  eexists. exists (sealed a).
  split; [|split; [|split; reflexivity]].
  - unfold dispatch. mstep.
    change (packet (arrived rx s)) with (hop (parse_packet rx)).
    change (uid (hop (parse_packet rx))) with (uid (parse_packet rx)).
    change (command (hop (parse_packet rx)))
      with (command (parse_packet rx)).
    change (options (hop (parse_packet rx)))
      with (options (parse_packet rx)).
    rewrite Hm. symmetry in Hc. switch_on Hc.
    mstep. change (sram (arrived rx s)) with (sram s). fold off.
    rewrite slice_inside by lia. cbn [defined]. fold d.
    repeat mstep. rewrite Hack.
    change (set_packet _ (set_packet _ (arrived rx s)))
      with (set_packet a (arrived rx s)).
    apply reply_up_spec. exact Ha.
  - unfold logged, refreshed. simpl_state. reflexivity.
Qed.

(** A local EXEC with the option 1: the interpreter is started on
    [SRC_BUF] from the state in which [write_pos] is 0. *)
Lemma exec_resets_write_pos (fuel : nat) (rx : list Z) (s : state) :
  Z.of_nat (length rx) = PACKET_SIZE -> 0 <= bytes_rx s -> intact rx ->
  command (parse_packet rx) = EXEC -> uid (parse_packet rx) = UID ->
  options (parse_packet rx) = 1 ->
  serve fuel rx s
  = (r <- eval_cmd fuel (InSram SRC_BUF) ;;
     update_packet (set_options (u32 r)) ;;
     update_packet (set_command (u8 ACK)) ;;
     reply_up) (set_write_pos 0 (arrived rx s)).
Proof.
  intros Hl Hb Hi Hc Hu Ho.
  pose proof (parse_packet_shaped rx Hl) as Hshape.
  assert (Hm : STR_MATCH UID (uid (parse_packet rx)) = true).
  { apply STR_MATCH_spec; [apply Hshape|assumption]. }
  rewrite serve_intact by assumption.
  unfold dispatch. mstep.
  change (packet (arrived rx s)) with (hop (parse_packet rx)).
  change (uid (hop (parse_packet rx))) with (uid (parse_packet rx)).
  change (command (hop (parse_packet rx))) with (command (parse_packet rx)).
  change (options (hop (parse_packet rx))) with (options (parse_packet rx)).
  rewrite Hm, Ho. symmetry in Hc. switch_on Hc.
  mstep. reflexivity.
Qed.

(** C6.  The primitive [.] pops a cell, stores it in
    [WRITE_BUF[write_pos]] and moves [write_pos] one further, back to 0
    when it gets to [DATA_SIZE]; and a local EXEC with the option 1 sets
    [write_pos] to 0 before it starts the interpreter on [SRC_BUF]. *)
Theorem emit_and_exec_reset (fuel : nat) (input : option (list Z))
  (s : state) (v : Z) (vs : list Z) (rx : list Z) (s0 : state) :
  dstack_top s (v :: vs) ->
  0 <= write_pos s < 2 ^ 32 - 1 ->
  0 <= WRITE_BUF + 4 * write_pos s ->
  WRITE_BUF + 4 * write_pos s + 4 <= Z.of_nat (length (sram s)) ->
  Z.of_nat (length rx) = PACKET_SIZE -> 0 <= bytes_rx s0 -> intact rx ->
  command (parse_packet rx) = EXEC -> uid (parse_packet rx) = UID ->
  options (parse_packet rx) = 1 ->
  (exists s',
     do_prim DATA_SIZE fuel (prim_code PRIM_EMIT) input s = Ok tt s' /\
     dstack_top s' vs /\ dsp s' = dsp s - 1 /\
     sram s' = overwrite (sram s) (Z.to_nat (WRITE_BUF + 4 * write_pos s))
                 (le_bytes 4 v) /\
     write_pos s'
     = (if write_pos s + 1 =? DATA_SIZE then 0 else write_pos s + 1)) /\
  serve fuel rx s0
  = (r <- eval_cmd fuel (InSram SRC_BUF) ;;
     update_packet (set_options (u32 r)) ;;
     update_packet (set_command (u8 ACK)) ;;
     reply_up) (set_write_pos 0 (arrived rx s0)) /\
  write_pos (set_write_pos 0 (arrived rx s0)) = 0.
Proof.
  intros Htop Hwp Hlo Hhi Hl Hb Hi Hc Hu Ho.
  split; [now apply prim_emit|].
  split; [now apply exec_resets_write_pos|reflexivity].
Qed.

End NodeFacts.

(** * Further properties *)

(** ** Frames *)

Lemma nth_sub_split (l : list Z) (n : nat) :
  (n < length l)%nat -> skipn n l = nth n l 0 :: skipn (S n) l.
Proof.
  revert l; induction n as [|n IH]; intros [|x l] H; cbn [length] in H;
    try lia; [reflexivity|].
  cbn [skipn nth]. apply IH. lia.
Qed.

Lemma le_bytes_1_byte b : is_byte b -> le_bytes 1 b = [b].
Proof.
  unfold is_byte. intros H. cbn [le_bytes]. now rewrite Z.mod_small by lia.
Qed.

Lemma le_bytes_le_value_2 b0 b1 :
  is_byte b0 -> is_byte b1 ->
  le_bytes 2 (u16 (Z.lor (Z.shiftl b1 8) b0)) = [b0; b1].
Proof.
  unfold is_byte, u16. intros H0 H1.
  rewrite lor_shiftl_add by lia.
  change (2 ^ 16) with 65536. change (2 ^ 8) with 256.
  rewrite (Z.mod_small (b1 * 256 + b0)) by lia.
  cbn [le_bytes]. f_equal; [|f_equal].
  - rewrite Z.add_comm, Z.mod_add by lia. now apply Z.mod_small.
  - rewrite Z.add_comm, Z.div_add by lia.
    rewrite (Z.div_small b0) by lia. now apply Z.mod_small.
Qed.

Lemma le_bytes_le_value_4 b0 b1 b2 b3 :
  is_byte b0 -> is_byte b1 -> is_byte b2 -> is_byte b3 ->
  le_bytes 4
    (u32 (Z.lor (Z.lor (Z.lor (Z.shiftl b3 24) (Z.shiftl b2 16))
                   (Z.shiftl b1 8)) b0))
  = [b0; b1; b2; b3].
Proof.
  intros H0 H1 H2 H3. rewrite assemble_bytes4 by assumption.
  unfold is_byte, u32 in *. cbn [le_value].
  rewrite Z.mod_small by lia.
  cbn [le_bytes]. repeat f_equal; Z.div_mod_to_equations; lia.
Qed.

Section FrameFacts.

Variable DATA_SIZE : Z.
Variable crc16_byte : Z -> Z -> Z.

Hypothesis data_size : 0 <= DATA_SIZE.

Local Abbreviation PACKET_SIZE := (PACKET_SIZE DATA_SIZE).
Local Abbreviation parse_packet := (parse_packet DATA_SIZE).
Local Abbreviation send_packet := (send_packet DATA_SIZE).
Local Abbreviation intact := (intact DATA_SIZE crc16_byte).
Local Abbreviation sealed := (sealed DATA_SIZE crc16_byte).
Local Abbreviation frame_crc := (frame_crc DATA_SIZE crc16_byte).
Local Abbreviation packet_shaped := (packet_shaped DATA_SIZE).
Local Abbreviation crc16 := (crc16 crc16_byte).

(** A frame is the six fields one after the other. *)
Lemma frame_fields (rx : list Z) :
  Z.of_nat (length rx) = PACKET_SIZE ->
  rx = [byte_at rx 0; byte_at rx 1; byte_at rx 2; byte_at rx 3;
        byte_at rx 4; byte_at rx 5]
       ++ sub rx 6 25 ++ sub rx 31 (Z.to_nat DATA_SIZE)
       ++ [byte_at rx (PACKET_SIZE - 2); byte_at rx (PACKET_SIZE - 1)].
Proof.
  unfold PACKET_SIZE, UID_SIZE. intros Hl.
  set (D := Z.to_nat DATA_SIZE).
  assert (HD : length rx = (33 + D)%nat) by lia.
  replace (Z.to_nat (1 + 1 + 4 + 25 + DATA_SIZE + 2 - 2)) with (31 + D)%nat
    by lia.
  replace (Z.to_nat (1 + 1 + 4 + 25 + DATA_SIZE + 2 - 1)) with (32 + D)%nat
    by lia.
  unfold byte_at.
  replace (1 + 1 + 4 + 25 + DATA_SIZE + 2 - 2) with (Z.of_nat (31 + D))
    by lia.
  replace (1 + 1 + 4 + 25 + DATA_SIZE + 2 - 1) with (Z.of_nat (32 + D))
    by lia.
  rewrite !Nat2Z.id.
  change (Z.to_nat 0) with 0%nat. change (Z.to_nat 1) with 1%nat.
  change (Z.to_nat 2) with 2%nat. change (Z.to_nat 3) with 3%nat.
  change (Z.to_nat 4) with 4%nat. change (Z.to_nat 5) with 5%nat.
  rewrite <- (firstn_skipn 6 rx) at 1.
  f_equal.
  - do 7 (destruct rx as [|? rx]; cbn [length] in HD; try lia).
    reflexivity.
  - unfold sub.
    rewrite <- (firstn_skipn 25 (skipn 6 rx)) at 1. f_equal.
    rewrite skipn_skipn. change (25 + 6)%nat with 31%nat.
    rewrite <- (firstn_skipn D (skipn 31 rx)) at 1. f_equal.
    rewrite skipn_skipn.
    rewrite (Nat.add_comm D 31).
    rewrite (nth_sub_split rx (31 + D)) by lia.
    rewrite (nth_sub_split rx (S (31 + D))) by lia.
    rewrite skipn_all2 by lia. reflexivity.
Qed.

(** X1.  The transmission of a parsed frame gives the frame back, checksum
    bytes included: [send_packet] undoes [parse_packet] on every array of
    [PACKET_SIZE] bytes. *)
Theorem send_parse_packet (rx : list Z) :
  Z.of_nat (length rx) = PACKET_SIZE -> Forall is_byte rx ->
  send_packet (parse_packet rx) = rx.
Proof.
  intros Hl Hb.
  assert (Hat : forall i, is_byte (byte_at rx i)).
  { intros i. unfold byte_at.
    destruct (Nat.lt_ge_cases (Z.to_nat i) (length rx)) as [Hi|Hi].
    - rewrite Forall_forall in Hb. apply Hb. now apply nth_In.
    - rewrite nth_overflow by assumption. unfold is_byte. lia. }
  rewrite (frame_fields rx Hl) at 2.
  unfold send_packet, parse_packet.
  cbn [command pic options uid data checksum].
  rewrite !le_bytes_1_byte, le_bytes_le_value_4, le_bytes_le_value_2
    by apply Hat.
  assert (Hu : length (sub rx 6 25) = Z.to_nat UID_SIZE).
  { apply sub_length. unfold PACKET_SIZE, UID_SIZE in *. lia. }
  assert (Hd : length (sub rx 31 (Z.to_nat DATA_SIZE)) = Z.to_nat DATA_SIZE).
  { apply sub_length. unfold PACKET_SIZE, UID_SIZE in *. lia. }
  rewrite <- Hu at 1. rewrite <- Hd at 1. rewrite !firstn_all.
  reflexivity.
Qed.

Lemma crc16_range crc (buffer : list Z) len :
  0 <= crc < 2 ^ 16 -> 0 <= crc16 crc buffer len < 2 ^ 16.
Proof.
  unfold crc16. generalize (firstn (Z.to_nat len) buffer). intros l.
  revert crc; induction l as [|b l IH]; intros crc Hc; cbn [fold_left].
  - assumption.
  - apply IH. unfold u16. apply Z.mod_pos_bound. lia.
Qed.

(** X2.  [crc16] can be run in pieces: the CRC of two arrays in a row is the
    CRC of the second, started from the CRC of the first; over no byte at
    all it is the start value, and from a start value of the parameter's
    type, [uint16_t], the result is a 16-bit value. *)
Theorem crc16_in_pieces (crc : Z) (a b : list Z) :
  crc16 crc (a ++ b) (Z.of_nat (length a + length b))
  = crc16 (crc16 crc a (Z.of_nat (length a))) b (Z.of_nat (length b)) /\
  crc16 crc (a ++ b) 0 = crc /\
  0 <= crc16 (u16 crc) (a ++ b) (Z.of_nat (length a + length b)) < 2 ^ 16.
Proof.
  split; [|split].
  - unfold crc16. rewrite !Nat2Z.id, <- length_app, !firstn_all.
    apply fold_left_app.
  - reflexivity.
  - apply crc16_range. unfold u16. apply Z.mod_pos_bound. lia.
Qed.

(** The CRC of a frame is a 16-bit value. *)
Lemma frame_crc_range rx : 0 <= frame_crc rx < 2 ^ 16.
Proof. unfold frame_crc. apply crc16_range. lia. Qed.

Lemma send_packet_size p :
  packet_shaped p -> Z.of_nat (length (send_packet p)) = PACKET_SIZE.
Proof.
  intros [Hu Hd]. unfold send_packet, PACKET_SIZE.
  rewrite !length_app, !length_firstn, !le_bytes_length, Hu, Hd.
  unfold UID_SIZE. lia.
Qed.

Lemma sealed_shape p : packet_shaped p -> packet_shaped (sealed p).
Proof. intros H. exact H. Qed.

Lemma checksum_of_frame p :
  packet_shaped p ->
  checksum (parse_packet (send_packet p)) = u16 (checksum p).
Proof.
  intros [Hu Hd]. unfold parse_packet. cbn [checksum].
  unfold send_packet.
  set (body := le_bytes 1 (command p) ++ le_bytes 1 (pic p)
               ++ le_bytes 4 (options p)
               ++ firstn (Z.to_nat UID_SIZE) (uid p)
               ++ firstn (Z.to_nat DATA_SIZE) (data p)).
  assert (Hb : length body = Z.to_nat (PACKET_SIZE - 2)).
  { subst body.
    rewrite !length_app, !length_firstn, !le_bytes_length, Hu, Hd.
    unfold PACKET_SIZE, UID_SIZE. lia. }
  replace (le_bytes 1 (command p) ++ le_bytes 1 (pic p)
           ++ le_bytes 4 (options p)
           ++ firstn (Z.to_nat UID_SIZE) (uid p)
           ++ firstn (Z.to_nat DATA_SIZE) (data p)
           ++ le_bytes 2 (checksum p))
    with (body ++ le_bytes 2 (checksum p))
    by (subst body; now rewrite <- !app_assoc).
  unfold byte_at.
  replace (Z.to_nat (PACKET_SIZE - 1)) with (length body + 1)%nat
    by (unfold PACKET_SIZE, UID_SIZE in *; lia).
  replace (Z.to_nat (PACKET_SIZE - 2)) with (length body + 0)%nat
    by (unfold PACKET_SIZE, UID_SIZE in *; lia).
  rewrite !app_nth2_plus.
  cbn [le_bytes nth].
  rewrite lor_shiftl_add by (try apply Z.mod_pos_bound; lia).
  unfold u16. change (2 ^ 16) with (256 * 256). change (2 ^ 8) with 256.
  rewrite (Z.rem_mul_r (checksum p)) by lia.
  rewrite Z.mod_small; [lia|].
  pose proof (Z.mod_pos_bound (checksum p) 256).
  pose proof (Z.mod_pos_bound (checksum p / 256) 256). lia.
Qed.

Lemma sealed_checksum p :
  packet_shaped p ->
  checksum (parse_packet (send_packet (sealed p))) = frame_crc (send_packet p).
Proof.
  intros Hp. rewrite checksum_of_frame by exact Hp.
  unfold sealed. cbn [checksum set_checksum]. unfold packet_image.
  unfold u16. apply Z.mod_small. apply frame_crc_range.
Qed.

(** The frame of a packet that carries the checksum of [make_crc] passes
    the test of the node that receives it. *)
Lemma sealed_intact p : packet_shaped p -> intact (send_packet (sealed p)).
Proof.
  intros Hp. unfold intact. rewrite sealed_checksum by exact Hp.
  apply (frame_crc_set_checksum DATA_SIZE crc16_byte data_size
           (frame_crc (packet_image DATA_SIZE p)) p Hp).
Qed.


End FrameFacts.

(** ** The identity *)

Lemma hex_digit_is_hex d : 0 <= d < 16 -> is_hex_digit (hex_digit d).
Proof.
  unfold is_hex_digit, hex_digit. intros H.
  destruct (Z.ltb_spec d 10); lia.
Qed.

Lemma hex_digits_are_hex n w : Forall is_hex_digit (hex_digits n w).
Proof.
  revert w; induction n as [|n IH]; intros w; cbn [hex_digits].
  - constructor.
  - apply Forall_app. split; [apply IH|].
    constructor; [|constructor]. apply hex_digit_is_hex.
    apply Z.mod_pos_bound. lia.
Qed.

(** The digits of a word are those of its upper part, then those of its
    lower part. *)
Lemma hex_digits_split (m : nat) : forall (n : nat) (a b : Z),
  0 <= b < 16 ^ Z.of_nat m ->
  hex_digits (n + m) (a * 16 ^ Z.of_nat m + b)
  = hex_digits n a ++ hex_digits m b.
Proof.
  induction m as [|m IH]; intros n a b Hb.
  - change (16 ^ Z.of_nat 0) with 1 in *.
    replace b with 0 by lia. rewrite Nat.add_0_r, Z.mul_1_r, Z.add_0_r.
    cbn [hex_digits]. now rewrite app_nil_r.
  - rewrite Nat2Z.inj_succ, Z.pow_succ_r in * by lia.
    replace (n + S m)%nat with (S (n + m)) by lia.
    cbn [hex_digits]. rewrite app_assoc. f_equal.
    + replace ((a * (16 * 16 ^ Z.of_nat m) + b) / 16)
        with (a * 16 ^ Z.of_nat m + b / 16).
      * apply IH. split; [apply Z.div_pos; lia|].
        apply Z.div_lt_upper_bound; lia.
      * replace (a * (16 * 16 ^ Z.of_nat m) + b)
          with (b + (a * 16 ^ Z.of_nat m) * 16) by lia.
        rewrite Z.div_add by lia. lia.
    + do 2 f_equal.
      replace (a * (16 * 16 ^ Z.of_nat m) + b)
        with (b + (a * 16 ^ Z.of_nat m) * 16) by lia.
      now rewrite Z.mod_add by lia.
Qed.

Lemma hex_digits_2 b : hex_digits 2 b = [hex_digit (b / 16 mod 16); hex_digit (b mod 16)].
Proof. reflexivity. Qed.

Lemma hex_byte_digits b : is_byte b -> hex_digits 2 b = hex_byte b.
Proof.
  unfold is_byte, hex_byte. intros H. rewrite hex_digits_2.
  rewrite (Z.mod_small (b / 16)); [reflexivity|].
  split; [apply Z.div_pos; lia|apply Z.div_lt_upper_bound; lia].
Qed.

Section IdentityMore.

Variable chip_id : Z -> Z.

Lemma u8_is_byte x : is_byte (u8 x).
Proof. unfold is_byte, u8. apply Z.mod_pos_bound. lia. Qed.

(** The digits of one of the three words: two per byte, the byte at the
    lowest address first. *)
Lemma id_word_digits p :
  hex_digits 8 (id_word chip_id p)
  = hex_byte (u8 (chip_id p)) ++ hex_byte (u8 (chip_id (p + 1)))
    ++ hex_byte (u8 (chip_id (p + 2))) ++ hex_byte (u8 (chip_id (p + 3))).
Proof.
  unfold id_word.
  pose proof (u8_is_byte (chip_id p)) as H0.
  pose proof (u8_is_byte (chip_id (p + 1))) as H1.
  pose proof (u8_is_byte (chip_id (p + 2))) as H2.
  pose proof (u8_is_byte (chip_id (p + 3))) as H3.
  set (b0 := u8 (chip_id p)) in *. set (b1 := u8 (chip_id (p + 1))) in *.
  set (b2 := u8 (chip_id (p + 2))) in *.
  set (b3 := u8 (chip_id (p + 3))) in *.
  unfold is_byte in *.
  rewrite !Z.shiftl_mul_pow2 by lia.
  unfold u32. rewrite Z.mod_small by lia.
  rewrite <- !hex_byte_digits by assumption.
  replace (b0 * 2 ^ 24 + b1 * 2 ^ 16 + b2 * 2 ^ 8 + b3)
    with (b0 * 16 ^ Z.of_nat 6
          + (b1 * 16 ^ Z.of_nat 4 + (b2 * 16 ^ Z.of_nat 2 + b3)))
    by (cbn; lia).
  rewrite (hex_digits_split 6 2) by (cbn; lia). f_equal.
  rewrite (hex_digits_split 4 2) by (cbn; lia). f_equal.
  rewrite (hex_digits_split 2 2) by (cbn; lia). reflexivity.
Qed.

(** X4.  [collect_bid] leaves a C string of 24 characters: the twelve identity
    bytes (eight from 0x1FF800D0 on, four from 0x1FF800E3 on), each as two
    hexadecimal digits in upper case, and the NUL. *)
Theorem collect_bid_is_hex_dump :
  collect_bid chip_id
  = concat (map (fun a => hex_byte (u8 (chip_id a))) identity_bytes) ++ [0] /\
  length (collect_bid chip_id) = Z.to_nat UID_SIZE /\
  Forall is_hex_digit (firstn 24 (collect_bid chip_id)) /\
  nth 24 (collect_bid chip_id) 1 = 0.
Proof.
  assert (E : collect_bid chip_id
              = (hex_digits 8 (id_word chip_id 536346832)
                 ++ hex_digits 8 (id_word chip_id (536346832 + 4))
                 ++ hex_digits 8 (id_word chip_id 536346851)) ++ [0]).
  { reflexivity. }
  split; [|split; [|split]].
  - rewrite E, !id_word_digits. unfold identity_bytes.
    cbn [seq map app concat Z.of_nat]. rewrite <- !app_assoc.
    cbn [Z.of_nat Pos.of_succ_nat Pos.succ Z.add Pos.add].
    reflexivity.
  - rewrite E, !length_app, !hex_digits_length. reflexivity.
  - assert (F : firstn 24 (collect_bid chip_id)
                = hex_digits 8 (id_word chip_id 536346832)
                  ++ hex_digits 8 (id_word chip_id (536346832 + 4))
                  ++ hex_digits 8 (id_word chip_id 536346851))
      by reflexivity.
    rewrite F, !Forall_app. auto using hex_digits_are_hex.
  - rewrite E. rewrite app_nth2;
      rewrite !length_app, !hex_digits_length; [reflexivity|cbn; lia].
Qed.

End IdentityMore.

(** ** What the interpreter leaves alone *)

Lemma quiet_ret {A : Type} (a : A) : quiet (ret a).
Proof. intros s. reflexivity. Qed.

Lemma quiet_bind {A B : Type} (m : M A) (k : A -> M B) :
  quiet m -> (forall a, quiet (k a)) -> quiet (bind m k).
Proof.
  intros Hm Hk s. unfold bind. specialize (Hm s).
  destruct (m s) as [a s1|r s1| |]; auto.
  specialize (Hk a s1). destruct (k a s1) as [b s2|r s2| |]; auto;
    congruence.
Qed.

Lemma quiet_gets {A : Type} (f : state -> A) : quiet (gets f).
Proof. intros s. reflexivity. Qed.

Lemma quiet_modify (f : state -> state) :
  (forall s, node_part (f s) = node_part s) -> quiet (modify f).
Proof. intros H s. apply H. Qed.

Lemma quiet_defined {A : Type} (o : option A) : quiet (defined o).
Proof. destruct o; intros s; cbn; auto. Qed.

Lemma quiet_undefined {A : Type} : quiet (@undefined A).
Proof. intros s. exact I. Qed.

Lemma quiet_timeout {A : Type} : quiet (@timeout A).
Proof. intros s. exact I. Qed.

Lemma quiet_abort {A : Type} (r : zf_result) : quiet (@zf_abort A r).
Proof. intros s. reflexivity. Qed.

Lemma quiet_CHECK exp abort : quiet (CHECK exp abort).
Proof. rewrite CHECK_off. apply quiet_ret. Qed.

Create HintDb quiet.

#[local] Hint Resolve quiet_ret quiet_gets quiet_defined quiet_undefined
  quiet_timeout quiet_abort quiet_CHECK : quiet.

Ltac quiet_step :=
  match goal with
  | |- quiet (bind _ _) => apply quiet_bind; [|intros]
  | |- quiet (ret _) => apply quiet_ret
  | |- quiet (gets _) => apply quiet_gets
  | |- quiet (modify _) => apply quiet_modify; intros; reflexivity
  | |- quiet (defined _) => apply quiet_defined
  | |- quiet undefined => apply quiet_undefined
  | |- quiet timeout => apply quiet_timeout
  | |- quiet (zf_abort _) => apply quiet_abort
  | |- quiet (CHECK _ _) => apply quiet_CHECK
  | |- quiet (if ?b then _ else _) => destruct b eqn:?
  | |- quiet (match ?x with _ => _ end) => destruct x eqn:?
  | |- quiet (let (_, _) := ?x in _) => destruct x eqn:?
  | |- quiet _ => solve [auto with quiet]
  end.

Ltac quiet_auto := repeat quiet_step.

Lemma quiet_zf_push v : quiet (zf_push v).
Proof. unfold zf_push. quiet_auto. Qed.

Lemma quiet_zf_pop : quiet zf_pop.
Proof. unfold zf_pop. quiet_auto. Qed.

Lemma quiet_zf_pick n : quiet (zf_pick n).
Proof. unfold zf_pick. quiet_auto. Qed.

Lemma quiet_zf_pushr v : quiet (zf_pushr v).
Proof. unfold zf_pushr. quiet_auto. Qed.

Lemma quiet_zf_popr : quiet zf_popr.
Proof. unfold zf_popr. quiet_auto. Qed.

Lemma quiet_zf_pickr n : quiet (zf_pickr n).
Proof. unfold zf_pickr. quiet_auto. Qed.

#[local] Hint Resolve quiet_zf_push quiet_zf_pop quiet_zf_pick quiet_zf_pushr
  quiet_zf_popr quiet_zf_pickr : quiet.

Lemma quiet_put_bytes_loop bs : forall addr, quiet (put_bytes_loop addr bs).
Proof.
  induction bs as [|b tl IH]; intros addr; cbn [put_bytes_loop];
    quiet_auto; apply IH.
Qed.

Lemma quiet_get_bytes_loop n : forall addr, quiet (get_bytes_loop addr n).
Proof.
  induction n as [|n IH]; intros addr; cbn [get_bytes_loop];
    quiet_auto; apply IH.
Qed.

#[local] Hint Resolve quiet_put_bytes_loop quiet_get_bytes_loop : quiet.

Lemma quiet_dict_put_bytes addr bs : quiet (dict_put_bytes addr bs).
Proof. unfold dict_put_bytes. quiet_auto. Qed.

Lemma quiet_dict_get_bytes addr n : quiet (dict_get_bytes addr n).
Proof. unfold dict_get_bytes. quiet_auto. Qed.

#[local] Hint Resolve quiet_dict_put_bytes quiet_dict_get_bytes : quiet.

Lemma quiet_dict_put_cell_typed addr v size :
  quiet (dict_put_cell_typed addr v size).
Proof. unfold dict_put_cell_typed. quiet_auto. Qed.

Lemma quiet_dict_get_cell_typed addr size :
  quiet (dict_get_cell_typed addr size).
Proof. unfold dict_get_cell_typed. quiet_auto. Qed.

#[local] Hint Resolve quiet_dict_put_cell_typed quiet_dict_get_cell_typed
  : quiet.

Lemma quiet_dict_put_cell addr v : quiet (dict_put_cell addr v).
Proof. unfold dict_put_cell. quiet_auto. Qed.

Lemma quiet_dict_get_cell addr : quiet (dict_get_cell addr).
Proof. unfold dict_get_cell. quiet_auto. Qed.

#[local] Hint Resolve quiet_dict_put_cell quiet_dict_get_cell : quiet.

Lemma quiet_dict_add_cell_typed v size : quiet (dict_add_cell_typed v size).
Proof. unfold dict_add_cell_typed. quiet_auto. Qed.

#[local] Hint Resolve quiet_dict_add_cell_typed : quiet.

Lemma quiet_dict_add_cell v : quiet (dict_add_cell v).
Proof. unfold dict_add_cell. quiet_auto. Qed.

#[local] Hint Resolve quiet_dict_add_cell : quiet.

Lemma quiet_dict_add_op op : quiet (dict_add_op op).
Proof. unfold dict_add_op. quiet_auto. Qed.

#[local] Hint Resolve quiet_dict_add_op : quiet.

Lemma quiet_dict_add_lit v : quiet (dict_add_lit v).
Proof. unfold dict_add_lit. quiet_auto. Qed.

Lemma quiet_dict_add_str str : quiet (dict_add_str str).
Proof. unfold dict_add_str. quiet_auto. Qed.

#[local] Hint Resolve quiet_dict_add_lit quiet_dict_add_str : quiet.

Lemma quiet_create name flags : quiet (create name flags).
Proof. unfold create. quiet_auto. Qed.

Lemma quiet_find_word_loop fuel name : forall w,
  quiet (find_word_loop fuel name w).
Proof.
  induction fuel as [|fuel IH]; intros w; cbn [find_word_loop]; quiet_auto;
    apply IH.
Qed.

#[local] Hint Resolve quiet_create quiet_find_word_loop : quiet.

Lemma quiet_find_word fuel name : quiet (find_word fuel name).
Proof. unfold find_word. quiet_auto. Qed.

Lemma quiet_make_immediate : quiet make_immediate.
Proof. unfold make_immediate. quiet_auto. Qed.

Lemma quiet_peek addr len : quiet (peek addr len).
Proof. unfold peek. quiet_auto. Qed.

Lemma quiet_zf_host_parse_num buf : quiet (zf_host_parse_num buf).
Proof. unfold zf_host_parse_num. quiet_auto. Qed.

#[local] Hint Resolve quiet_find_word quiet_make_immediate quiet_peek
  quiet_zf_host_parse_num : quiet.






Section QuietInterpreter.

Variable DATA_SIZE : Z.

Lemma quiet_store_int32 base i v : quiet (store_int32 base i v).
Proof. unfold store_int32. quiet_auto. Qed.

Lemma quiet_fetch_cell : quiet fetch_cell.
Proof. unfold fetch_cell. quiet_auto. Qed.

#[local] Hint Resolve quiet_store_int32 quiet_fetch_cell : quiet.

Lemma quiet_do_prim fuel op input : quiet (do_prim DATA_SIZE fuel op input).
Proof.
  unfold do_prim.
  destruct (prim_of_code op) as [p|]; [destruct p|]; quiet_auto.
Qed.

#[local] Hint Resolve quiet_do_prim : quiet.

Lemma quiet_run fuel : forall input, quiet (run DATA_SIZE fuel input).
Proof.
  induction fuel as [|fuel IH]; intros input; cbn [run]; quiet_auto.
Qed.

#[local] Hint Resolve quiet_run : quiet.

Lemma quiet_execute fuel addr : quiet (execute DATA_SIZE fuel addr).
Proof. unfold execute. quiet_auto. Qed.

#[local] Hint Resolve quiet_execute : quiet.

Lemma quiet_handle_word fuel buf : quiet (handle_word DATA_SIZE fuel buf).
Proof. unfold handle_word. quiet_auto. Qed.

#[local] Hint Resolve quiet_handle_word : quiet.

Lemma quiet_handle_char fuel c : quiet (handle_char DATA_SIZE fuel c).
Proof. unfold handle_char. quiet_auto. Qed.

Lemma quiet_char_at buf i : quiet (char_at buf i).
Proof. unfold char_at. quiet_auto. Qed.

#[local] Hint Resolve quiet_handle_char quiet_char_at : quiet.




End QuietInterpreter.

(** ** The commands of the node *)

Section NodeMore.

Variable DATA_SIZE : Z.
Variable crc16_byte : Z -> Z -> Z.
Variables PING READ WRITE SENSORS LOAD EXEC RETR ACK ERR : Z.
Variables OWN ALL TEMP VDD : Z.
Variable g_pfnVectors0 : Z.
Variables vdd_cal temp30_cal temp110_cal : Z.
Variable chip_id : Z -> Z.

Hypothesis tags : tags_ok PING READ WRITE SENSORS LOAD EXEC RETR ACK ERR.
Hypothesis data_size : 0 <= DATA_SIZE.

Local Abbreviation PACKET_SIZE := (PACKET_SIZE DATA_SIZE).
Local Abbreviation parse_packet := (parse_packet DATA_SIZE).
Local Abbreviation send_packet := (send_packet DATA_SIZE).
Local Abbreviation packet_image := (packet_image DATA_SIZE).
Local Abbreviation frame_crc := (frame_crc DATA_SIZE crc16_byte).
Local Abbreviation intact := (intact DATA_SIZE crc16_byte).
Local Abbreviation sealed := (sealed DATA_SIZE crc16_byte).
Local Abbreviation packet_shaped := (packet_shaped DATA_SIZE).
Local Abbreviation UID := (UID chip_id).
Local Abbreviation sram_size := (sram_size g_pfnVectors0).
Local Abbreviation reply_up := (reply_up DATA_SIZE crc16_byte).
Local Abbreviation dispatch :=
  (dispatch DATA_SIZE crc16_byte PING READ WRITE SENSORS LOAD EXEC RETR ACK
     OWN ALL TEMP VDD g_pfnVectors0 vdd_cal temp30_cal temp110_cal chip_id).
Local Abbreviation serve :=
  (serve DATA_SIZE crc16_byte PING READ WRITE SENSORS LOAD EXEC RETR ACK ERR
     OWN ALL TEMP VDD g_pfnVectors0 vdd_cal temp30_cal temp110_cal chip_id).
Local Abbreviation main_loop :=
  (main_loop DATA_SIZE crc16_byte PING READ WRITE SENSORS LOAD EXEC RETR ACK
     ERR OWN ALL TEMP VDD g_pfnVectors0 vdd_cal temp30_cal temp110_cal
     chip_id).
Local Abbreviation eval_cmd := (eval_cmd DATA_SIZE).
Local Abbreviation arrived := (arrived DATA_SIZE crc16_byte).
Local Abbreviation refreshed := (refreshed DATA_SIZE crc16_byte).
Local Abbreviation replied := (replied DATA_SIZE crc16_byte).
Local Abbreviation SRC_BUF := (SRC_BUF DATA_SIZE).
Local Abbreviation WRITE_BUF := (WRITE_BUF DATA_SIZE).

Local Abbreviation taken := (taken DATA_SIZE crc16_byte).

Lemma labels_differ :
  NoDup [PING; READ; WRITE; SENSORS; LOAD; EXEC; RETR; ERR].
Proof. exact (proj1 tags). Qed.

Lemma ack_is_byte : u8 ACK = ACK.
Proof.
  exact (proj1 (tags_are_bytes PING READ WRITE SENSORS LOAD EXEC RETR ACK ERR
                  tags)).
Qed.

(** Decide the tests of the switch once the tag is known. *)
Ltac pick_case Hc :=
  rewrite Hc;
  repeat match goal with
         | |- context [?a =? ?a] => rewrite (Z.eqb_refl a)
         | |- context [?a =? ?b] =>
             destruct (Z.eqb_spec a b);
             [exfalso;
              let H := fresh in
              pose proof labels_differ as H;
              repeat match goal with
                     | H : NoDup (_ :: _) |- _ =>
                         let a := fresh in
                         let b := fresh in
                         inversion H as [|? ? a b]; clear H; subst
                     end;
              cbn [In] in *; intuition congruence|]
         end.

Ltac enter_dispatch rx s :=
  unfold dispatch; mstep;
  change (packet (arrived rx s)) with (hop (parse_packet rx));
  change (uid (hop (parse_packet rx))) with (uid (parse_packet rx));
  change (command (hop (parse_packet rx)))
    with (command (parse_packet rx));
  change (options (hop (parse_packet rx)))
    with (options (parse_packet rx));
  change (data (hop (parse_packet rx))) with (data (parse_packet rx)).

Lemma local_match rx :
  Z.of_nat (length rx) = PACKET_SIZE -> uid (parse_packet rx) = UID ->
  STR_MATCH UID (uid (parse_packet rx)) = true.
Proof.
  intros Hl Hu. apply STR_MATCH_spec; [|assumption].
  apply (parse_packet_shaped DATA_SIZE data_size rx Hl).
Qed.

Lemma foreign_match rx :
  Z.of_nat (length rx) = PACKET_SIZE -> uid (parse_packet rx) <> UID ->
  STR_MATCH UID (uid (parse_packet rx)) = false.
Proof.
  intros Hl Hu.
  destruct (STR_MATCH UID (uid (parse_packet rx))) eqn:E; [|reflexivity].
  apply STR_MATCH_spec in E; [contradiction|].
  apply (parse_packet_shaped DATA_SIZE data_size rx Hl).
Qed.

Lemma reply_up_replied s :
  packet_shaped (packet s) -> reply_up s = Ok tt (replied (packet s) s).
Proof. intros H. now apply reply_up_spec. Qed.

(** The packet variable, written and read. *)
Lemma packet_set_packet a s : packet (set_packet a s) = a.
Proof. reflexivity. Qed.

Lemma set_packet_twice a b s : set_packet a (set_packet b s) = set_packet a s.
Proof. reflexivity. Qed.

Lemma packet_arrived rx s : packet (arrived rx s) = hop (parse_packet rx).
Proof. reflexivity. Qed.

Lemma replied_set_packet a b s : replied a (set_packet b s) = replied a s.
Proof. reflexivity. Qed.

Lemma sram_set_packet a s : sram (set_packet a s) = sram s.
Proof. reflexivity. Qed.

Lemma sram_arrived rx s : sram (arrived rx s) = sram s.
Proof. reflexivity. Qed.

Lemma set_packet_set_sram a m s :
  set_packet a (set_sram m s) = set_sram m (set_packet a s).
Proof. reflexivity. Qed.

Lemma packet_set_sram m s : packet (set_sram m s) = packet s.
Proof. reflexivity. Qed.

Ltac tidy :=
  rewrite ?packet_set_packet, ?set_packet_twice, ?packet_arrived,
    ?sram_set_packet, ?sram_arrived, ?packet_set_sram.

(** *** READ and WRITE *)

Lemma serve_read_local fuel rx s :
  taken rx s ->
  command (parse_packet rx) = READ -> uid (parse_packet rx) = UID ->
  u16 (options (parse_packet rx)) * DATA_SIZE + DATA_SIZE
  <= Z.of_nat (length (sram s)) ->
  serve fuel rx s
  = Ok tt
      (replied
         (set_data
            (sub (sram s)
               (Z.to_nat (u16 (options (parse_packet rx)) * DATA_SIZE))
               (Z.to_nat DATA_SIZE))
            (set_command ACK (hop (parse_packet rx))))
         (arrived rx s)).
Proof.
  intros (Hl & Hb & Hi) Hc Hu Hin.
  pose proof (parse_packet_shaped DATA_SIZE data_size rx Hl) as Hshape.
  pose proof (local_match rx Hl Hu) as Hm.
  assert (Ho : 0 <= u16 (options (parse_packet rx)))
    by (apply Z.mod_pos_bound; lia).
  rewrite serve_intact by assumption.
  enter_dispatch rx s.
  rewrite Hm. cbn [negb]. symmetry in Hc. pick_case Hc.
  repeat mstep. rewrite ack_is_byte.
  unfold read_sram. repeat mstep.
  tidy.
  rewrite slice_inside by nia. cbn [defined].
  repeat mstep. tidy.
  rewrite reply_up_replied; tidy.
  - now rewrite replied_set_packet.
  - split; [apply Hshape|]. cbn [data set_data].
    apply sub_length. nia.
Qed.


(** The facts about a reply that do not depend on the command. *)
Lemma replied_facts a s :
  trace (replied a s)
  = trace s ++ [Transmit huart1 (send_packet (sealed a)); RESET_UPWARDS] /\
  sram (replied a s) = sram s /\ write_pos (replied a s) = write_pos s /\
  vm_part (replied a s) = vm_part s /\ bytes_rx (replied a s) = bytes_rx s.
Proof. repeat split. Qed.

(** X6.  A READ for this node is answered with an ACK whose payload holds the
    block of [DATA_SIZE] bytes that starts [options * DATA_SIZE] bytes
    into the memory surface, the block index being taken as a [uint16_t];
    the ACK keeps the options and the uid, counts the hop and passes the
    checksum test; the memory, [write_pos] and the interpreter stay as
    they are. *)
Theorem read_answers_with_block (fuel : nat) (rx : list Z) (s : state) :
  taken rx s ->
  command (parse_packet rx) = READ -> uid (parse_packet rx) = UID ->
  u16 (options (parse_packet rx)) * DATA_SIZE + DATA_SIZE
  <= Z.of_nat (length (sram s)) ->
  exists s' ack,
    serve fuel rx s = Ok tt s' /\
    trace s' = trace s ++ [Transmit huart1 (send_packet ack); RESET_UPWARDS] /\
    command ack = ACK /\ pic ack = u8 (pic (parse_packet rx) + 1) /\
    options ack = options (parse_packet rx) /\ uid ack = UID /\
    data ack
    = sub (sram s) (Z.to_nat (options (parse_packet rx) mod 2 ^ 16 * DATA_SIZE))
        (Z.to_nat DATA_SIZE) /\
    intact (send_packet ack) /\
    untouched s s' /\ bytes_rx s' = 0.
Proof.
  intros Ht Hc Hu Hin.
  pose proof Ht as (Hl & _ & _).
  pose proof (parse_packet_shaped DATA_SIZE data_size rx Hl) as Hshape.
  assert (Ho : 0 <= u16 (options (parse_packet rx)))
    by (apply Z.mod_pos_bound; lia).
  eexists. eexists. split; [now apply serve_read_local|].
  split; [reflexivity|]. split; [reflexivity|]. split; [reflexivity|].
  split; [reflexivity|]. split; [exact Hu|]. split; [reflexivity|].
  split; [|split; [repeat split|reflexivity]].
  apply sealed_intact; [assumption|].
  split; [apply Hshape|]. cbn [data set_data]. apply sub_length. nia.
Qed.



(** *** SENSORS *)

Lemma lo_hi_le_bytes w : [lo w; hi w] = le_bytes 2 w.
Proof.
  unfold lo, hi. cbn [le_bytes].
  change 255 with (Z.ones 8).
  rewrite !Z.land_ones, Z.shiftr_div_pow2 by lia. reflexivity.
Qed.

Lemma le_bytes_2_u16 x : le_bytes 2 (u16 x) = le_bytes 2 x.
Proof.
  unfold u16. cbn [le_bytes]. change (2 ^ 16) with 65536.
  f_equal; [|f_equal]; Z.div_mod_to_equations; lia.
Qed.

Lemma fill_data_spec bs s :
  Z.of_nat (length bs) <= Z.of_nat (length (data (packet s))) ->
  fill_data bs s
  = Ok tt (set_packet
             (set_data (bs ++ skipn (length bs) (data (packet s)))
                (packet s)) s).
Proof.
  intros H. unfold fill_data. repeat mstep.
  rewrite splice_inside by lia. cbn [defined].
  repeat mstep. reflexivity.
Qed.

Lemma reply_with_report bs rx s :
  Z.of_nat (length rx) = PACKET_SIZE ->
  Z.of_nat (length bs) <= DATA_SIZE ->
  (fill_data bs ;; update_packet (set_command (u8 ACK)) ;; reply_up)
    (arrived rx s)
  = Ok tt
      (replied
         (set_command ACK
            (set_data (bs ++ skipn (length bs) (data (parse_packet rx)))
               (hop (parse_packet rx))))
         (arrived rx s)).
Proof.
  intros Hl Hbs.
  pose proof (parse_packet_shaped DATA_SIZE data_size rx Hl) as [Hu Hd].
  erewrite bind_Ok
    by (apply fill_data_spec; tidy;
        change (data (hop (parse_packet rx))) with (data (parse_packet rx));
        lia).
  repeat mstep. tidy. rewrite ack_is_byte.
  change (data (hop (parse_packet rx))) with (data (parse_packet rx)).
  rewrite reply_up_replied; tidy.
  - now rewrite replied_set_packet.
  - split; [exact Hu|]. cbn [data set_command set_data].
    rewrite length_app, length_skipn. lia.
Qed.

(** X9.  A SENSORS for this node is answered with an ACK whose payload starts
    with 16-bit words, low byte first: for ALL the calibration word of 110
    degrees, that of 30 degrees, the temperature sample, the calibration
    word of the supply and the supply sample; for TEMP the first three;
    for VDD the last two; the samples are the low 16 bits of the two
    sensor words.  The rest of the payload, and all of it for another
    selector, is what was received. *)
Theorem sensors_reports_words (fuel : nat) (rx : list Z) (s : state) :
  taken rx s ->
  command (parse_packet rx) = SENSORS -> uid (parse_packet rx) = UID ->
  NoDup [ALL; TEMP; VDD] -> 10 <= DATA_SIZE ->
  exists s' ack,
    serve fuel rx s = Ok tt s' /\
    trace s' = trace s ++ [Transmit huart1 (send_packet ack); RESET_UPWARDS] /\
    command ack = ACK /\ untouched s s' /\
    (options (parse_packet rx) = ALL ->
     data ack
     = le_bytes 2 temp110_cal ++ le_bytes 2 temp30_cal
       ++ le_bytes 2 (fst (sensors s)) ++ le_bytes 2 vdd_cal
       ++ le_bytes 2 (snd (sensors s)) ++ skipn 10 (data (parse_packet rx))) /\
    (options (parse_packet rx) = TEMP ->
     data ack
     = le_bytes 2 temp110_cal ++ le_bytes 2 temp30_cal
       ++ le_bytes 2 (fst (sensors s)) ++ skipn 6 (data (parse_packet rx))) /\
    (options (parse_packet rx) = VDD ->
     data ack
     = le_bytes 2 vdd_cal ++ le_bytes 2 (snd (sensors s))
       ++ skipn 4 (data (parse_packet rx))) /\
    (~ In (options (parse_packet rx)) [ALL; TEMP; VDD] ->
     data ack = data (parse_packet rx)).
Proof.
  intros (Hl & Hb & Hi) Hc Hu Hsel HD.
  pose proof (parse_packet_shaped DATA_SIZE data_size rx Hl) as Hshape.
  pose proof (local_match rx Hl Hu) as Hm.
  assert (Hlen : Z.of_nat (length (data (hop (parse_packet rx)))) = DATA_SIZE).
  { destruct Hshape as [_ Hd]. change (data (hop (parse_packet rx)))
      with (data (parse_packet rx)). lia. }
  assert (Hne : ALL <> TEMP /\ ALL <> VDD /\ TEMP <> VDD).
  { inversion Hsel as [|? ? H1 H2]; subst.
    inversion H2 as [|? ? H3 _]; subst. cbn [In] in *. intuition. }
  destruct Hne as (Hat & Hav & Htv).
  rewrite serve_intact by assumption.
  enter_dispatch rx s.
  rewrite Hm. cbn [negb]. symmetry in Hc. pick_case Hc.
  unfold sensors_payload. rewrite ?bind_assoc.
  erewrite (bind_Ok (gets packet)) by reflexivity. cbv beta. tidy.
  change (options (hop (parse_packet rx))) with (options (parse_packet rx)).
  rewrite <- !le_bytes_2_u16 with (x := fst (sensors s)).
  rewrite <- !le_bytes_2_u16 with (x := snd (sensors s)).
  rewrite <- !lo_hi_le_bytes.
  destruct (Z.eqb_spec (options (parse_packet rx)) ALL) as [Ea|Ea];
    [|destruct (Z.eqb_spec (options (parse_packet rx)) TEMP) as [Et|Et];
      [|destruct (Z.eqb_spec (options (parse_packet rx)) VDD) as [Ev|Ev]]].
  - rewrite reply_with_report by (try assumption; cbn [length]; lia).
    eexists. eexists. split; [reflexivity|].
    split; [reflexivity|]. split; [reflexivity|].
    split; [repeat split|].
    split; [intros _; reflexivity|].
    split; [intros E; congruence|].
    split; [intros E; congruence|].
    intros Hn. cbn [In] in Hn. exfalso. apply Hn. auto.
  - rewrite reply_with_report by (try assumption; cbn [length]; lia).
    eexists. eexists. split; [reflexivity|].
    split; [reflexivity|]. split; [reflexivity|].
    split; [repeat split|].
    split; [intros E; congruence|].
    split; [intros _; reflexivity|].
    split; [intros E; congruence|].
    intros Hn. cbn [In] in Hn. exfalso. apply Hn. auto.
  - rewrite reply_with_report by (try assumption; cbn [length]; lia).
    eexists. eexists. split; [reflexivity|].
    split; [reflexivity|]. split; [reflexivity|].
    split; [repeat split|].
    split; [intros E; congruence|].
    split; [intros E; congruence|].
    split; [intros _; reflexivity|].
    intros Hn. cbn [In] in Hn. exfalso. apply Hn. auto.
  - repeat mstep. tidy. rewrite ack_is_byte.
    rewrite reply_up_replied by exact Hshape. tidy.
    rewrite replied_set_packet.
    eexists. eexists. split; [reflexivity|].
    split; [reflexivity|]. split; [reflexivity|].
    split; [repeat split|].
    split; [intros E; congruence|].
    split; [intros E; congruence|].
    split; [intros E; congruence|].
    intros _. reflexivity.
Qed.

(** *** LOAD *)



(** *** PING *)

(** X11.  A PING with the option OWN.  For this node it is answered with an ACK
    whose options hold the size of the RAM; for another uid the packet
    goes down with the hop counted and with the checksum field as it was
    received: on this path the checksum is not computed again.  Either way
    the reception is re-armed and nothing else changes. *)
Theorem ping_own_probe (fuel : nat) (rx : list Z) (s : state) :
  taken rx s ->
  command (parse_packet rx) = PING -> options (parse_packet rx) = OWN ->
  exists s',
    serve fuel rx s = Ok tt s' /\ untouched s s' /\
    (uid (parse_packet rx) = UID ->
     exists ack,
       trace s'
       = trace s ++ [Transmit huart1 (send_packet ack); RESET_UPWARDS] /\
       command ack = ACK /\
       options ack = u32 (u32 g_pfnVectors0 - SRAM_ADDRESS) /\
       uid ack = UID /\ intact (send_packet ack)) /\
    (uid (parse_packet rx) <> UID ->
     exists fwd,
       trace s'
       = trace s ++ [Transmit huart3 (send_packet fwd); RESET_DOWNWARDS;
                     RESET_UPWARDS] /\
       command fwd = PING /\ pic fwd = u8 (pic (parse_packet rx) + 1) /\
       uid fwd = uid (parse_packet rx) /\
       checksum fwd = checksum (parse_packet rx)).
Proof.
  intros (Hl & Hb & Hi) Hc Ho.
  pose proof (parse_packet_shaped DATA_SIZE data_size rx Hl) as Hshape.
  rewrite serve_intact by assumption.
  enter_dispatch rx s. rewrite Hc, Z.eqb_refl.
  unfold ping. mstep. tidy.
  change (options (hop (parse_packet rx))) with (options (parse_packet rx)).
  change (uid (hop (parse_packet rx))) with (uid (parse_packet rx)).
  rewrite Ho, Z.eqb_refl.
  destruct (STR_MATCH UID (uid (parse_packet rx))) eqn:Hm.
  - apply STR_MATCH_spec in Hm; [|apply Hshape].
    repeat mstep. tidy. rewrite ack_is_byte.
    rewrite ?bind_assoc.
    erewrite bind_Ok
      by (apply refresh_checksum_spec; [assumption|exact Hshape]).
    repeat mstep. tidy.
    eexists. split; [reflexivity|]. split; [repeat split|].
    split; [|intros Hne; contradiction].
    intros _. eexists.
    split; [unfold logged, refreshed; simpl_state;
            rewrite <- app_assoc; reflexivity|].
    split; [reflexivity|]. split; [reflexivity|]. split; [exact Hm|].
    apply sealed_intact; [assumption|exact Hshape].
  - repeat mstep. tidy.
    eexists. split; [reflexivity|]. split; [repeat split|].
    split.
    + intros Hu. apply (local_match rx Hl) in Hu. congruence.
    + intros _. exists (hop (parse_packet rx)).
      split; [unfold logged; simpl_state; rewrite <- !app_assoc;
              reflexivity|].
      split; [exact Hc|]. repeat split.
Qed.

(** *** Frames the table of commands does not hold *)

(** X12.  A PING whose option is neither OWN nor ALL: the inner switch has no
    label for it, so nothing is transmitted and the reception is not
    re-armed; the packet is parsed, the byte count is back at 0 and
    nothing else changes. *)
Theorem ping_without_selector_is_dropped (fuel : nat) (rx : list Z)
  (s : state) :
  taken rx s ->
  command (parse_packet rx) = PING ->
  options (parse_packet rx) <> OWN -> options (parse_packet rx) <> ALL ->
  exists s',
    serve fuel rx s = Ok tt s' /\ trace s' = trace s /\
    packet s' = hop (parse_packet rx) /\ bytes_rx s' = 0 /\
    untouched s s'.
Proof.
  intros (Hl & Hb & Hi) Hc Ho Ha.
  rewrite serve_intact by assumption.
  enter_dispatch rx s. rewrite Hc, Z.eqb_refl.
  unfold ping. mstep. tidy.
  change (options (hop (parse_packet rx))) with (options (parse_packet rx)).
  destruct (Z.eqb_spec (options (parse_packet rx)) OWN); [contradiction|].
  destruct (Z.eqb_spec (options (parse_packet rx)) ALL); [contradiction|].
  eexists. split; [reflexivity|]. repeat split.
Qed.

(** X13.  A frame whose tag is none of PING, READ, WRITE, SENSORS, LOAD, EXEC
    and RETR (an ERR, an ACK, or a byte that is no tag at all) goes back
    on the up-link, whatever its uid, with the hop counted and the
    checksum computed again; nothing goes down and nothing else
    changes. *)
Theorem other_tags_are_sent_back (fuel : nat) (rx : list Z) (s : state) :
  taken rx s ->
  ~ In (command (parse_packet rx))
      [PING; READ; WRITE; SENSORS; LOAD; EXEC; RETR] ->
  exists s' back,
    serve fuel rx s = Ok tt s' /\
    trace s' = trace s ++ [Transmit huart1 (send_packet back); RESET_UPWARDS] /\
    command back = command (parse_packet rx) /\
    pic back = u8 (pic (parse_packet rx) + 1) /\
    options back = options (parse_packet rx) /\
    uid back = uid (parse_packet rx) /\ data back = data (parse_packet rx) /\
    intact (send_packet back) /\ untouched s s'.
Proof.
  intros (Hl & Hb & Hi) Hc.
  pose proof (parse_packet_shaped DATA_SIZE data_size rx Hl) as Hshape.
  rewrite serve_intact by assumption.
  enter_dispatch rx s.
  cbn [In] in Hc.
  repeat match goal with
         | |- context [?a =? ?b] =>
             destruct (Z.eqb_spec a b);
             [exfalso; apply Hc; intuition congruence|]
         end.
  rewrite reply_up_replied by exact Hshape. tidy.
  eexists. eexists. split; [reflexivity|].
  split; [reflexivity|]. split; [reflexivity|]. split; [reflexivity|].
  split; [reflexivity|]. split; [reflexivity|]. split; [reflexivity|].
  split; [|repeat split].
  apply sealed_intact; [assumption|exact Hshape].
Qed.

(** *** EXEC *)



(** *** The loop and the two receptions *)

(** X15.  What arrives on the down-link goes up as it is: the completion
    callback for USART3 hands the [PACKET_SIZE] bytes of the transport
    buffer to the up-link and re-arms the down-link without counting a
    byte, so the loop that follows stays idle: the frame is not parsed,
    its hop counter and its checksum are not looked at.  The callback for
    USART1 adds the size of the transfer to the byte count and does
    nothing else. *)
Theorem downlink_is_passed_up (fuel : nat) (size : Z)
  (transport_buffer : list Z) (s : state) :
  bytes_rx s < PACKET_SIZE ->
  (HAL_UART_RxCpltCallback DATA_SIZE huart3 size transport_buffer ;;
   main_loop fuel) s
  = Ok tt (logged [Transmit huart1
                     (firstn (Z.to_nat PACKET_SIZE) transport_buffer);
                   RESET_DOWNWARDS] s) /\
  HAL_UART_RxCpltCallback DATA_SIZE huart1 size transport_buffer s
  = Ok tt (set_bytes_rx (bytes_rx s + size) s) /\
  receive DATA_SIZE transport_buffer s
  = (modify (set_buffer transport_buffer) ;;
     HAL_UART_RxCpltCallback DATA_SIZE huart1 PACKET_SIZE []) s.
Proof.
  intros Hidle. split; [|split; reflexivity].
  unfold HAL_UART_RxCpltCallback, send_buffer.
  repeat mstep. unfold main_loop. mstep.
  cbn [bytes_rx set_trace].
  destruct (Z.ltb_spec (bytes_rx s) PACKET_SIZE); [|lia].
  unfold logged. cbn [trace set_trace]. rewrite <- app_assoc. reflexivity.
Qed.

End NodeMore.

(** ** The dictionary *)

Lemma sub_app_l (l r : list Z) i n :
  (i + n <= length l)%nat -> sub (l ++ r) i n = sub l i n.
Proof.
  intros H. unfold sub. rewrite skipn_app, firstn_app, length_skipn.
  replace (n - (length l - i))%nat with 0%nat by lia.
  cbn [firstn]. apply app_nil_r.
Qed.

Lemma sub_app_r (l r : list Z) i n :
  (length l <= i)%nat -> sub (l ++ r) i n = sub r (i - length l) n.
Proof.
  intros H. unfold sub. rewrite skipn_app.
  now rewrite (skipn_all2 l) by lia.
Qed.

Lemma sub_overwrite_disjoint (d : list Z) a bs i n :
  (a + length bs <= length d)%nat ->
  (i + n <= a \/ a + length bs <= i)%nat ->
  sub (overwrite d a bs) i n = sub d i n.
Proof.
  intros Ha Hd. unfold overwrite. destruct Hd as [Hd|Hd].
  - rewrite sub_app_l by (rewrite length_firstn; lia).
    symmetry. rewrite <- (firstn_skipn a d) at 1.
    now rewrite sub_app_l by (rewrite length_firstn; lia).
  - rewrite app_assoc.
    rewrite sub_app_r by (rewrite length_app, length_firstn; lia).
    symmetry. rewrite <- (firstn_skipn (a + length bs) d) at 1.
    rewrite sub_app_r by (rewrite length_firstn; lia).
    rewrite length_app, !length_firstn. f_equal. lia.
Qed.

Lemma overwrite_app (d : list Z) a bs cs :
  (a + length bs + length cs <= length d)%nat ->
  overwrite (overwrite d a bs) (a + length bs) cs = overwrite d a (bs ++ cs).
Proof.
  intros H. unfold overwrite.
  rewrite firstn_app, length_firstn.
  replace (Nat.min a (length d)) with a by lia.
  rewrite firstn_all2 by (rewrite length_firstn; lia).
  replace (a + length bs - a)%nat with (length bs) by lia.
  rewrite firstn_app, firstn_all, Nat.sub_diag. cbn [firstn].
  rewrite app_nil_r, <- !app_assoc. do 3 f_equal.
  rewrite !app_assoc, skipn_app.
  rewrite skipn_all2 by (rewrite length_app, length_firstn; lia).
  rewrite length_app, length_firstn, length_app. cbn [app].
  replace (Nat.min a (length d)) with a by lia.
  rewrite skipn_skipn. f_equal. lia.
Qed.

(** *** Cells under the variable-length encoding *)

Lemma var_bytes_length v :
  length (var_bytes v) = Z.to_nat (stored_bytes ZF_MEM_SIZE_VAR v).
Proof.
  unfold var_bytes, stored_bytes. cbn [Z.eqb ZF_MEM_SIZE_VAR].
  destruct ((0 <=? v) && (v <? 128)); [reflexivity|].
  destruct ((0 <=? v) && (v <? 16384)); reflexivity.
Qed.

Lemma var_bytes_bounds v : (1 <= length (var_bytes v) <= 5)%nat.
Proof.
  unfold var_bytes.
  destruct ((0 <=? v) && (v <? 128)); [cbn; lia|].
  destruct ((0 <=? v) && (v <? 16384)); cbn; lia.
Qed.

Lemma u32_cell v : is_cell v -> u32 v = if v <? 0 then v + 2 ^ 32 else v.
Proof.
  unfold u32, is_cell. pow2. intros H.
  destruct (Z.ltb_spec v 0); Z.div_mod_to_equations; lia.
Qed.

Lemma u32_addr a : 0 <= a <= ZF_DICT_SIZE -> u32 a = a.
Proof.
  unfold ZF_DICT_SIZE. change (2 ^ 12) with 4096. intros H.
  unfold u32. apply Z.mod_small. pow2. lia.
Qed.

(** [dict_put_cell] writes the bytes of the encoding. *)
Lemma dict_put_cell_var addr v s :
  dict_sized s -> is_cell v -> 0 <= addr ->
  addr + Z.of_nat (length (var_bytes v)) <= ZF_DICT_SIZE ->
  dict_put_cell addr v s
  = Ok (Z.of_nat (length (var_bytes v))) (written s addr (var_bytes v)).
Proof.
  intros Hs Hv H0 H.
  pose proof (u32_cell v Hv) as Hu.
  unfold dict_put_cell, dict_put_cell_typed, var_bytes in *.
  cbn [Z.eqb ZF_MEM_SIZE_VAR]. rewrite u32_sub_self. cbn [Z.eqb].
  assert (Hrange : 0 <= v < 128 \/ 128 <= v < 16384
                   \/ (v < 0 \/ 16384 <= v)) by lia.
  destruct Hrange as [HA|[HB|HC]].
  - destruct (Z.ltb_spec v 0); [lia|]. rewrite Hu.
    destruct (Z.leb_spec 0 v); [|lia].
    destruct (Z.ltb_spec v 128); [|lia]. cbn [andb] in *.
    replace (u8 v) with v by (symmetry; apply Z.mod_small; pow2; lia).
    apply dict_put_bytes_inside; try assumption; cbn [length]; lia.
  - destruct (Z.ltb_spec v 0); [lia|]. rewrite Hu.
    destruct (Z.leb_spec 0 v); [|lia].
    destruct (Z.ltb_spec v 128); [lia|].
    destruct (Z.ltb_spec v 16384); [|lia]. cbn [andb] in *.
    destruct (lor_128 (Z.shiftr v 8)) as (_ & _ & _ & L4).
    { rewrite Z.shiftr_div_pow2 by lia. change (2 ^ 8) with 256.
      Z.div_mod_to_equations. lia. }
    replace (u8 (Z.lor (Z.shiftr v 8) 128)) with (Z.lor (Z.shiftr v 8) 128)
      by (symmetry; apply Z.mod_small; pow2; lia).
    change (u8 v) with (v mod 256).
    apply dict_put_bytes_inside; try assumption; cbn [length]; lia.
  - assert (Hbig : 16384 <= u32 v).
    { rewrite Hu. destruct (Z.ltb_spec v 0); unfold is_cell in Hv;
        pow2; lia. }
    destruct (Z.ltb_spec (u32 v) 128); [lia|].
    destruct (Z.ltb_spec (u32 v) 16384); [lia|].
    assert (Hs1 : ((0 <=? v) && (v <? 128)) = false).
    { destruct (Z.leb_spec 0 v); destruct (Z.ltb_spec v 128);
        try reflexivity; lia. }
    assert (Hs2 : ((0 <=? v) && (v <? 16384)) = false).
    { destruct (Z.leb_spec 0 v); destruct (Z.ltb_spec v 16384);
        try reflexivity; lia. }
    rewrite Hs1, Hs2 in *. cbn [length] in H.
    rewrite le_bytes_length in H.
    rewrite Z.add_0_r, !u32_addr by lia.
    unfold bind.
    rewrite dict_put_bytes_inside; try assumption; [|cbn [length]; lia..].
    rewrite dict_put_bytes_inside;
      [ | apply dict_sized_written; try assumption; cbn [length]; lia
        | lia | rewrite le_bytes_length; lia
        | rewrite le_bytes_length; lia ].
    rewrite written_next;
      [|assumption|assumption|rewrite le_bytes_length; lia].
    cbn [length]. rewrite le_bytes_length. reflexivity.
Qed.

Lemma holds_inside s a bs :
  holds s a bs -> (0 < length bs)%nat ->
  (Z.to_nat a + length bs <= length (dict s))%nat.
Proof.
  unfold holds. intros H Hl.
  apply (f_equal (@length Z)) in H. unfold sub in H.
  rewrite length_firstn, length_skipn in H. lia.
Qed.

Lemma holds_sub s a bs i n :
  holds s a bs -> 0 <= a -> (i + n <= length bs)%nat ->
  sub (dict s) (Z.to_nat a + i) n = sub bs i n.
Proof.
  unfold holds. intros H H0 Hi. rewrite <- H at 1. unfold sub.
  rewrite skipn_firstn_comm, firstn_firstn, skipn_skipn.
  replace (Nat.min n (length bs - i)) with n by lia.
  f_equal. f_equal. lia.
Qed.

(** [dict_get_cell] decodes the bytes of the encoding. *)
Lemma dict_get_cell_var addr v s :
  dict_sized s -> is_cell v -> 0 <= addr -> addr + 2 <= ZF_DICT_SIZE ->
  holds s addr (var_bytes v) ->
  dict_get_cell addr s = Ok (v, Z.of_nat (length (var_bytes v))) s.
Proof.
  intros Hs Hv H0 H2 Hh.
  pose proof (var_bytes_bounds v) as Hb.
  pose proof (holds_inside s addr _ Hh ltac:(lia)) as Hin.
  assert (Hd : length (dict s) = 4096%nat) by exact Hs.
  unfold dict_get_cell, dict_get_cell_typed. cbn [Z.eqb ZF_MEM_SIZE_VAR].
  unfold bind at 1.
  rewrite dict_get_bytes_inside by (assumption || (cbn; lia)).
  assert (Ht0 : byte_at (sub (dict s) (Z.to_nat addr) 2) 0
                = nth 0 (var_bytes v) 0).
  { pose proof (holds_sub s addr _ 0 1 Hh H0 ltac:(lia)) as E.
    rewrite Nat.add_0_r in E. unfold byte_at.
    change (Z.to_nat 0) with 0%nat. cbn [nth].
    unfold sub in *.
    destruct (skipn (Z.to_nat addr) (dict s)) as [|x tl];
      destruct (var_bytes v) as [|y tl']; cbn in *; try lia; congruence. }
  unfold var_bytes in *.
  assert (Hrange : 0 <= v < 128 \/ 128 <= v < 16384
                   \/ (v < 0 \/ 16384 <= v)) by lia.
  destruct Hrange as [HA|[HB|HC]].
  - destruct (Z.leb_spec 0 v); [|lia].
    destruct (Z.ltb_spec v 128); [|lia]. cbn [andb] in *.
    rewrite Ht0. cbn [nth]. rewrite land_128_small by lia. reflexivity.
  - destruct (Z.leb_spec 0 v); [|lia].
    destruct (Z.ltb_spec v 128); [lia|].
    destruct (Z.ltb_spec v 16384); [|lia]. cbn [andb] in *.
    destruct (lor_128 (Z.shiftr v 8)) as (L1 & L2 & L3 & L4).
    { rewrite Z.shiftr_div_pow2 by lia. change (2 ^ 8) with 256.
      Z.div_mod_to_equations. lia. }
    unfold holds in Hh. cbn [length] in Hh. rewrite Hh.
    unfold byte_at. change (Z.to_nat 0) with 0%nat.
    change (Z.to_nat 1) with 1%nat. cbn [nth].
    destruct (Z.eqb_spec (Z.land (Z.lor (Z.shiftr v 8) 128) 128) 0);
      [contradiction|].
    destruct (Z.eqb_spec (Z.lor (Z.shiftr v 8) 128) 255); [contradiction|].
    cbn [negb]. unfold ret. f_equal. f_equal.
    rewrite L3, Z.shiftr_div_pow2, Z.shiftl_mul_pow2 by lia.
    pow2. Z.div_mod_to_equations. lia.
  - assert (Hs1 : ((0 <=? v) && (v <? 128)) = false).
    { destruct (Z.leb_spec 0 v); destruct (Z.ltb_spec v 128);
        try reflexivity; lia. }
    assert (Hs2 : ((0 <=? v) && (v <? 16384)) = false).
    { destruct (Z.leb_spec 0 v); destruct (Z.ltb_spec v 16384);
        try reflexivity; lia. }
    rewrite Hs1, Hs2 in *. cbn [length] in Hin, Hb.
    rewrite le_bytes_length in Hin.
    rewrite Ht0. cbn [nth].
    change (Z.land 255 128 =? 0) with false.
    change (255 =? 255) with true. cbn [negb]. cbv beta.
    rewrite u32_addr by (change ZF_DICT_SIZE with 4096; lia).
    unfold bind.
    rewrite dict_get_bytes_inside
      by (try assumption; change ZF_DICT_SIZE with 4096; cbn; lia).
    unfold ret. f_equal. f_equal.
    replace (Z.to_nat (addr + 1)) with (Z.to_nat addr + 1)%nat by lia.
    rewrite (holds_sub s addr _ 1 4 Hh H0)
      by (cbn [length]; rewrite le_bytes_length; lia).
    change (sub (255 :: le_bytes 4 v) 1 4) with (firstn 4 (le_bytes 4 v)).
    rewrite <- (le_bytes_length 4 v) at 1. rewrite firstn_all.
    rewrite le_value_le_bytes. change (256 ^ Z.of_nat 4) with (2 ^ 32).
    change (s32 (v mod 2 ^ 32)) with (s32 (u32 v)).
    now rewrite s32_u32, s32_cell.
Qed.

(** *** Writes that do not meet *)

Lemma overwrite_app_r (l r : list Z) b y :
  (length l <= b)%nat ->
  overwrite (l ++ r) b y = l ++ overwrite r (b - length l) y.
Proof.
  intros H. unfold overwrite.
  rewrite firstn_app, firstn_all2 by lia.
  rewrite skipn_app, (skipn_all2 l) by lia. cbn [app].
  rewrite <- !app_assoc. do 3 f_equal. f_equal. lia.
Qed.

Lemma skipn_overwrite (d : list Z) k b y :
  (k <= b)%nat -> (b + length y <= length d)%nat ->
  skipn k (overwrite d b y) = overwrite (skipn k d) (b - k) y.
Proof.
  intros H Hb. unfold overwrite.
  rewrite skipn_app, length_firstn.
  replace (k - Nat.min b (length d))%nat with 0%nat by lia.
  cbn [skipn]. rewrite skipn_firstn_comm, skipn_skipn.
  do 3 f_equal. lia.
Qed.

Lemma overwrite_zero (d x : list Z) :
  overwrite d 0 x = x ++ skipn (length x) d.
Proof. reflexivity. Qed.

Lemma overwrite_comm (a : nat) : forall (d x : list Z) b y,
  (a + length x <= b)%nat -> (b + length y <= length d)%nat ->
  overwrite (overwrite d a x) b y = overwrite (overwrite d b y) a x.
Proof.
  induction a as [|a IH]; intros d x b y Ha Hb.
  - rewrite !overwrite_zero.
    rewrite overwrite_app_r by lia.
    now rewrite skipn_overwrite by lia.
  - destruct d as [|x0 d]; [cbn [length] in Hb; lia|].
    destruct b as [|b]; [lia|]. cbn [length] in Hb.
    rewrite !overwrite_cons. f_equal. apply IH; lia.
Qed.

(** *** The user variables beside the rest of the dictionary *)

Lemma set_uservar_written i v s a bs :
  dict_sized s -> 0 <= i < ZF_USERVAR_COUNT -> ZF_USERVAR_END <= a ->
  a + Z.of_nat (length bs) <= ZF_DICT_SIZE ->
  written (set_uservar i v s) a bs = set_uservar i v (written s a bs).
Proof.
  unfold dict_sized, written, set_uservar, ZF_USERVAR_END, ZF_USERVAR_COUNT.
  change ZF_DICT_SIZE with 4096. change (Z.to_nat 4096) with 4096%nat.
  intros Hs Hi Ha H. cbn [dict set_dict]. rewrite !set_dict_twice.
  f_equal. apply overwrite_comm; rewrite ?le_bytes_length; lia.
Qed.

Lemma overwrite_same_place (a : nat) : forall (d x y : list Z),
  length x = length y -> (a + length x <= length d)%nat ->
  overwrite (overwrite d a x) a y = overwrite d a y.
Proof.
  induction a as [|a IH]; intros d x y Hl Ha.
  - rewrite !overwrite_zero. f_equal.
    rewrite skipn_app, <- Hl, skipn_all, Nat.sub_diag. reflexivity.
  - destruct d as [|x0 d]; [cbn [length] in Ha; lia|].
    cbn [length] in Ha. rewrite !overwrite_cons. f_equal.
    apply IH; [assumption|lia].
Qed.

Lemma set_uservar_twice i v w s :
  dict_sized s -> 0 <= i < ZF_USERVAR_COUNT ->
  set_uservar i v (set_uservar i w s) = set_uservar i v s.
Proof.
  unfold dict_sized, set_uservar, ZF_USERVAR_COUNT.
  change (Z.to_nat ZF_DICT_SIZE) with 4096%nat.
  intros Hs Hi. cbn [dict set_dict]. rewrite set_dict_twice. f_equal.
  apply overwrite_same_place; rewrite !le_bytes_length; lia.
Qed.

Lemma written_written s a bs cs :
  dict_sized s -> 0 <= a ->
  a + Z.of_nat (length bs) + Z.of_nat (length cs) <= ZF_DICT_SIZE ->
  written (written s a bs) (a + Z.of_nat (length bs)) cs
  = written s a (bs ++ cs).
Proof.
  unfold dict_sized, written. change ZF_DICT_SIZE with 4096.
  change (Z.to_nat 4096) with 4096%nat.
  intros Hs H0 H. cbn [dict set_dict]. rewrite set_dict_twice. f_equal.
  replace (Z.to_nat (a + Z.of_nat (length bs)))
    with (Z.to_nat a + length bs)%nat by lia.
  apply overwrite_app. lia.
Qed.

Lemma uservar_written i s a bs :
  dict_sized s -> 0 <= i < ZF_USERVAR_COUNT -> ZF_USERVAR_END <= a ->
  a + Z.of_nat (length bs) <= ZF_DICT_SIZE ->
  uservar i (written s a bs) = uservar i s.
Proof.
  unfold dict_sized, written, uservar, ZF_USERVAR_END, ZF_USERVAR_COUNT.
  change ZF_DICT_SIZE with 4096. change (Z.to_nat 4096) with 4096%nat.
  intros Hs Hi Ha H. cbn [dict set_dict]. f_equal.
  apply sub_overwrite_disjoint; lia.
Qed.

Lemma uservar_set_other i j v s :
  dict_sized s -> 0 <= i < ZF_USERVAR_COUNT -> 0 <= j < ZF_USERVAR_COUNT ->
  i <> j -> uservar i (set_uservar j v s) = uservar i s.
Proof.
  unfold dict_sized, set_uservar, uservar, ZF_USERVAR_COUNT.
  change (Z.to_nat ZF_DICT_SIZE) with 4096%nat.
  intros Hs Hi Hj Hne. cbn [dict set_dict]. f_equal.
  apply sub_overwrite_disjoint; rewrite le_bytes_length; lia.
Qed.

Lemma holds_written s a bs :
  dict_sized s -> 0 <= a -> a + Z.of_nat (length bs) <= ZF_DICT_SIZE ->
  holds (written s a bs) a bs.
Proof.
  unfold dict_sized, holds, written. change ZF_DICT_SIZE with 4096.
  change (Z.to_nat 4096) with 4096%nat.
  intros Hs H0 H. cbn [dict set_dict]. apply sub_overwrite_same. lia.
Qed.

Lemma holds_set_uservar i v s a bs :
  dict_sized s -> 0 <= i < ZF_USERVAR_COUNT -> ZF_USERVAR_END <= a ->
  holds s a bs -> holds (set_uservar i v s) a bs.
Proof.
  unfold dict_sized, holds, set_uservar, ZF_USERVAR_END, ZF_USERVAR_COUNT.
  change (Z.to_nat ZF_DICT_SIZE) with 4096%nat.
  intros Hs Hi Ha H. cbn [dict set_dict].
  rewrite sub_overwrite_disjoint; [assumption| |];
    rewrite le_bytes_length; lia.
Qed.

(** A part of what is held is held. *)
Lemma holds_part s a l m r :
  holds s a (l ++ m ++ r) -> 0 <= a ->
  holds s (a + Z.of_nat (length l)) m.
Proof.
  unfold holds. intros H H0.
  replace (Z.to_nat (a + Z.of_nat (length l)))
    with (Z.to_nat a + length l)%nat by lia.
  rewrite (holds_sub s a (l ++ m ++ r) (length l) (length m) H H0)
    by (rewrite !length_app; lia).
  unfold sub. rewrite skipn_app, skipn_all, Nat.sub_diag. cbn [skipn app].
  rewrite firstn_app, firstn_all, Nat.sub_diag. cbn [firstn].
  apply app_nil_r.
Qed.

Lemma dict_sized_set_uservar' i v s :
  0 <= i < ZF_USERVAR_COUNT -> dict_sized s ->
  dict_sized (set_uservar i v s).
Proof. apply dict_sized_set_uservar. Qed.

(** *** Adding at [HERE] *)

Lemma dict_add_cell_spec v s :
  dict_sized s -> is_cell v -> ZF_USERVAR_END <= HERE s ->
  HERE s + Z.of_nat (length (var_bytes v)) <= ZF_DICT_SIZE ->
  dict_add_cell v s
  = Ok tt (set_uservar ZF_USERVAR_HERE
             (HERE s + Z.of_nat (length (var_bytes v)))
             (written s (HERE s) (var_bytes v))).
Proof.
  intros Hs Hv Hh H.
  assert (H0 : 0 <= HERE s) by (unfold ZF_USERVAR_END, ZF_USERVAR_COUNT in Hh; lia).
  unfold dict_add_cell, dict_add_cell_typed.
  mstep. fold (dict_put_cell (HERE s) v).
  erewrite bind_Ok by (now apply dict_put_cell_var).
  mstep. unfold HERE at 1.
  rewrite uservar_written;
    [|assumption|unfold ZF_USERVAR_HERE, ZF_USERVAR_COUNT; lia
     |assumption|assumption].
  fold (HERE s).
  rewrite u32_addr by (pose proof (var_bytes_bounds v); lia).
  reflexivity.
Qed.

Lemma dict_add_str_spec name s :
  dict_sized s -> (0 < length name)%nat -> ZF_USERVAR_END <= HERE s ->
  HERE s + Z.of_nat (length name) <= ZF_DICT_SIZE ->
  dict_add_str name s
  = Ok tt (set_uservar ZF_USERVAR_HERE (HERE s + Z.of_nat (length name))
             (written s (HERE s) name)).
Proof.
  intros Hs Hn Hh H.
  assert (H0 : 0 <= HERE s) by (unfold ZF_USERVAR_END, ZF_USERVAR_COUNT in Hh; lia).
  unfold dict_add_str.
  mstep.
  erewrite bind_Ok by (now apply dict_put_bytes_inside).
  mstep. unfold HERE at 1.
  rewrite uservar_written;
    [|assumption|unfold ZF_USERVAR_HERE, ZF_USERVAR_COUNT; lia
     |assumption|assumption].
  fold (HERE s).
  rewrite u32_addr by lia.
  reflexivity.
Qed.

Lemma here_bounds s :
  ZF_USERVAR_END <= HERE s -> 0 <= HERE s /\ 20 <= HERE s.
Proof. unfold ZF_USERVAR_END, ZF_USERVAR_COUNT. lia. Qed.

Lemma HERE_appended s bs :
  dict_sized s -> ZF_USERVAR_END <= HERE s ->
  HERE s + Z.of_nat (length bs) <= ZF_DICT_SIZE ->
  HERE (appended s bs) = HERE s + Z.of_nat (length bs).
Proof.
  intros Hs Hh H. destruct (here_bounds s Hh) as [H0 _].
  unfold appended, HERE at 1.
  rewrite uservar_set_uservar.
  - apply u32_addr. lia.
  - apply dict_sized_written; assumption.
  - unfold ZF_USERVAR_HERE, ZF_USERVAR_COUNT. lia.
Qed.

Lemma dict_sized_appended s bs :
  dict_sized s -> ZF_USERVAR_END <= HERE s ->
  HERE s + Z.of_nat (length bs) <= ZF_DICT_SIZE ->
  dict_sized (appended s bs).
Proof.
  intros Hs Hh H. destruct (here_bounds s Hh) as [H0 _].
  unfold appended. apply dict_sized_set_uservar.
  - unfold ZF_USERVAR_HERE, ZF_USERVAR_COUNT. lia.
  - apply dict_sized_written; assumption.
Qed.

Lemma uservar_appended i s bs :
  dict_sized s -> ZF_USERVAR_END <= HERE s ->
  HERE s + Z.of_nat (length bs) <= ZF_DICT_SIZE ->
  1 <= i < ZF_USERVAR_COUNT ->
  uservar i (appended s bs) = uservar i s.
Proof.
  intros Hs Hh H Hi. destruct (here_bounds s Hh) as [H0 _].
  unfold appended.
  rewrite uservar_set_other.
  - apply uservar_written; try assumption. lia.
  - apply dict_sized_written; assumption.
  - lia.
  - unfold ZF_USERVAR_HERE, ZF_USERVAR_COUNT. lia.
  - unfold ZF_USERVAR_HERE. lia.
Qed.

Lemma holds_appended s bs :
  dict_sized s -> ZF_USERVAR_END <= HERE s ->
  HERE s + Z.of_nat (length bs) <= ZF_DICT_SIZE ->
  holds (appended s bs) (HERE s) bs.
Proof.
  intros Hs Hh H. destruct (here_bounds s Hh) as [H0 _].
  unfold appended. apply holds_set_uservar.
  - apply dict_sized_written; assumption.
  - unfold ZF_USERVAR_HERE, ZF_USERVAR_COUNT. lia.
  - assumption.
  - apply holds_written; assumption.
Qed.

(** What lay between the user variables and [HERE] stays. *)
Lemma holds_before_appended s bs a old :
  dict_sized s -> ZF_USERVAR_END <= HERE s ->
  HERE s + Z.of_nat (length bs) <= ZF_DICT_SIZE ->
  ZF_USERVAR_END <= a -> a + Z.of_nat (length old) <= HERE s ->
  holds s a old -> holds (appended s bs) a old.
Proof.
  intros Hs Hh H Ha Hold Hheld. destruct (here_bounds s Hh) as [H0 _].
  unfold appended. apply holds_set_uservar.
  - apply dict_sized_written; assumption.
  - unfold ZF_USERVAR_HERE, ZF_USERVAR_COUNT. lia.
  - assumption.
  - unfold holds, written in *. cbn [dict set_dict].
    rewrite sub_overwrite_disjoint; [assumption| |].
    + unfold dict_sized in Hs. rewrite Hs.
      change (Z.to_nat ZF_DICT_SIZE) with 4096%nat.
      change ZF_DICT_SIZE with 4096 in H. lia.
    + unfold ZF_USERVAR_END, ZF_USERVAR_COUNT in Ha. lia.
Qed.

Lemma appended_appended s bs cs :
  dict_sized s -> ZF_USERVAR_END <= HERE s ->
  HERE s + Z.of_nat (length bs) + Z.of_nat (length cs) <= ZF_DICT_SIZE ->
  appended (appended s bs) cs = appended s (bs ++ cs).
Proof.
  intros Hs Hh H. destruct (here_bounds s Hh) as [H0 _].
  assert (Hi : 0 <= ZF_USERVAR_HERE < ZF_USERVAR_COUNT)
    by (unfold ZF_USERVAR_HERE, ZF_USERVAR_COUNT; lia).
  assert (Hs1 : dict_sized (written s (HERE s) bs))
    by (apply dict_sized_written; try assumption; lia).
  assert (Hs2 : dict_sized
                  (written (written s (HERE s) bs)
                     (HERE s + Z.of_nat (length bs)) cs))
    by (apply dict_sized_written; try assumption; lia).
  unfold appended at 1. rewrite HERE_appended by (assumption || lia).
  unfold appended.
  rewrite set_uservar_written by (assumption || lia).
  rewrite set_uservar_twice by assumption.
  rewrite written_written by (assumption || lia).
  rewrite length_app, Nat2Z.inj_add. f_equal. lia.
Qed.

Lemma beside_dict_appended s bs : beside_dict (appended s bs) = beside_dict s.
Proof. reflexivity. Qed.

Lemma dict_add_cell_appended v s :
  dict_sized s -> is_cell v -> ZF_USERVAR_END <= HERE s ->
  HERE s + Z.of_nat (length (var_bytes v)) <= ZF_DICT_SIZE ->
  dict_add_cell v s = Ok tt (appended s (var_bytes v)).
Proof. apply dict_add_cell_spec. Qed.

Lemma dict_add_str_appended name s :
  dict_sized s -> (0 < length name)%nat -> ZF_USERVAR_END <= HERE s ->
  HERE s + Z.of_nat (length name) <= ZF_DICT_SIZE ->
  dict_add_str name s = Ok tt (appended s name).
Proof. apply dict_add_str_spec. Qed.

(** X16.  [dict_add_cell] appends: the cell goes to [HERE] in the
    variable-length encoding, [HERE] moves on by the 1, 2 or 5 bytes it
    takes and the cell reads back from where [HERE] was; the other user
    variables, what the dictionary held below [HERE] and everything
    outside the dictionary stay as they are. *)
Theorem dict_add_cell_appends (v : Z) (s : state) :
  dict_sized s -> is_cell v -> ZF_USERVAR_END <= HERE s ->
  HERE s + 5 <= ZF_DICT_SIZE ->
  exists s',
    dict_add_cell v s = Ok tt s' /\
    HERE s' = HERE s + stored_bytes ZF_MEM_SIZE_VAR v /\
    dict_get_cell (HERE s) s' = Ok (v, stored_bytes ZF_MEM_SIZE_VAR v) s' /\
    LATEST s' = LATEST s /\ COMPILING s' = COMPILING s /\
    (forall a old,
       ZF_USERVAR_END <= a -> a + Z.of_nat (length old) <= HERE s ->
       holds s a old -> holds s' a old) /\
    dict_sized s' /\ beside_dict s' = beside_dict s.
Proof.
  intros Hs Hv Hh H. destruct (here_bounds s Hh) as [H0 _].
  pose proof (var_bytes_bounds v) as Hb.
  pose proof (var_bytes_length v) as Hl.
  assert (Hn : Z.of_nat (length (var_bytes v))
               = stored_bytes ZF_MEM_SIZE_VAR v) by lia.
  assert (Hfit : HERE s + Z.of_nat (length (var_bytes v)) <= ZF_DICT_SIZE)
    by lia.
  exists (appended s (var_bytes v)).
  split; [now apply dict_add_cell_appended|].
  split; [rewrite <- Hn; now apply HERE_appended|].
  split.
  { rewrite <- Hn. apply dict_get_cell_var; try assumption.
    - now apply dict_sized_appended.
    - lia.
    - now apply holds_appended. }
  split; [apply uservar_appended; try assumption;
          unfold ZF_USERVAR_LATEST, ZF_USERVAR_COUNT; lia|].
  split; [apply uservar_appended; try assumption;
          unfold ZF_USERVAR_COMPILING, ZF_USERVAR_COUNT; lia|].
  split; [intros a old Ha Hold Hheld; now apply holds_before_appended|].
  split; [now apply dict_sized_appended|reflexivity].
Qed.

(** *** Words *)

Lemma land_31 x : Z.land x 31 = x mod 32.
Proof. change 31 with (Z.ones 5). now rewrite Z.land_ones by lia. Qed.

(** The cell of length and flags of a header. *)
Lemma lenflags_cell len flags :
  0 <= len < 32 -> 0 <= flags < 2 ^ 31 -> Z.land flags 31 = 0 ->
  Z.lor len flags = len + flags /\ is_cell (Z.lor len flags) /\
  ZF_FLAG_LEN (Z.lor len flags) = len.
Proof.
  intros Hl Hf Hlow.
  assert (Hdisj : Z.land len flags = 0).
  { apply Z.bits_inj'. intros n Hn. rewrite Z.land_spec, Z.bits_0.
    destruct (Z.ltb_spec n 5).
    - assert (E : Z.testbit (Z.land flags 31) n = false)
        by (rewrite Hlow; apply Z.bits_0).
      rewrite Z.land_spec in E. change 31 with (Z.ones 5) in E.
      rewrite Z.ones_spec_low, andb_true_r in E by lia.
      rewrite E. apply andb_false_r.
    - assert (E : Z.testbit len n = false).
      { destruct (Z.eq_dec len 0) as [->|]; [apply Z.bits_0|].
        apply Z.bits_above_log2; try lia.
        apply Z.log2_lt_pow2; try lia.
        assert (2 ^ 5 <= 2 ^ n) by (apply Z.pow_le_mono_r; lia).
        change (2 ^ 5) with 32 in *. lia. }
      now rewrite E. }
  assert (Hsum : Z.lor len flags = len + flags).
  { now rewrite <- Z.lxor_lor, <- Z.add_nocarry_lxor by assumption. }
  rewrite land_31 in Hlow.
  split; [exact Hsum|]. rewrite Hsum. split.
  - unfold is_cell. pow2. Z.div_mod_to_equations. lia.
  - unfold ZF_FLAG_LEN. rewrite land_31. Z.div_mod_to_equations. lia.
Qed.

Lemma word_header_length c l name :
  length (word_header c l name)
  = (length (var_bytes c) + length (var_bytes l) + length name)%nat.
Proof. unfold word_header. rewrite !length_app. lia. Qed.

Lemma s32_u32_back x : u32 (s32 x) = u32 x.
Proof. unfold u32, s32. apply sint_mod. lia. Qed.

Lemma create_spec name flags s :
  dict_sized s -> ZF_USERVAR_END <= HERE s ->
  (0 < length name < 32)%nat -> 0 <= flags < 2 ^ 31 ->
  Z.land flags 31 = 0 ->
  HERE s
  + Z.of_nat (length (word_header (Z.lor (Z.of_nat (length name)) flags)
                        (s32 (LATEST s)) name)) <= ZF_DICT_SIZE ->
  create name flags s
  = Ok tt (set_uservar ZF_USERVAR_LATEST (HERE s)
             (appended s
                (word_header (Z.lor (Z.of_nat (length name)) flags)
                   (s32 (LATEST s)) name))).
Proof.
  intros Hs Hh Hn Hf Hlow Hfit.
  destruct (lenflags_cell (Z.of_nat (length name)) flags) as (_ & Hc & _);
    [lia|assumption|assumption|].
  set (c := Z.lor (Z.of_nat (length name)) flags) in *.
  set (l := s32 (LATEST s)) in *.
  rewrite word_header_length in Hfit.
  pose proof (var_bytes_bounds c) as Hbc.
  pose proof (var_bytes_bounds l) as Hbl.
  destruct (here_bounds s Hh) as [H0 _].
  unfold create. mstep. fold c.
  erewrite bind_Ok by (apply dict_add_cell_appended; try assumption; lia).
  mstep. unfold LATEST at 1.
  rewrite uservar_appended
    by (try assumption;
        unfold ZF_USERVAR_LATEST, ZF_USERVAR_COUNT; lia).
  fold (LATEST s). fold l.
  erewrite bind_Ok.
  2:{ apply dict_add_cell_appended.
      - apply dict_sized_appended; try assumption; lia.
      - apply s32_is_cell.
      - rewrite HERE_appended by (assumption || lia). lia.
      - rewrite HERE_appended by (assumption || lia). lia. }
  rewrite appended_appended by (assumption || lia).
  erewrite bind_Ok.
  2:{ apply dict_add_str_appended.
      - apply dict_sized_appended; try assumption.
        rewrite length_app. lia.
      - lia.
      - rewrite HERE_appended
          by (try assumption; rewrite length_app; lia). lia.
      - rewrite HERE_appended
          by (try assumption; rewrite length_app; lia).
        rewrite length_app. lia. }
  rewrite appended_appended
    by (try assumption; rewrite length_app; lia).
  rewrite <- app_assoc. reflexivity.
Qed.

(** The variables after [create]. *)
Lemma created_facts h W s :
  dict_sized s -> ZF_USERVAR_END <= HERE s -> h = HERE s ->
  HERE s + Z.of_nat (length W) <= ZF_DICT_SIZE ->
  let s' := set_uservar ZF_USERVAR_LATEST h (appended s W) in
  dict_sized s' /\ LATEST s' = h /\
  HERE s' = h + Z.of_nat (length W) /\ holds s' h W.
Proof.
  intros Hs Hh -> Hfit s'. destruct (here_bounds s Hh) as [H0 _].
  assert (Hs1 : dict_sized (appended s W))
    by (now apply dict_sized_appended).
  assert (Hl : 0 <= ZF_USERVAR_LATEST < ZF_USERVAR_COUNT)
    by (unfold ZF_USERVAR_LATEST, ZF_USERVAR_COUNT; lia).
  split; [now apply dict_sized_set_uservar|].
  split.
  { unfold LATEST, s'. rewrite uservar_set_uservar by assumption.
    apply u32_addr. lia. }
  split.
  { unfold HERE at 1, s'. rewrite uservar_set_other;
      [|assumption|unfold ZF_USERVAR_HERE, ZF_USERVAR_COUNT; lia|assumption
       |unfold ZF_USERVAR_HERE, ZF_USERVAR_LATEST; lia].
    now apply HERE_appended. }
  apply holds_set_uservar; try assumption.
  now apply holds_appended.
Qed.

(** [find_word] looks at the word at [LATEST] first. *)
Lemma find_word_at_latest fuel c l name s :
  dict_sized s -> ZF_USERVAR_END <= LATEST s ->
  is_cell c -> is_cell l -> ZF_FLAG_LEN c = Z.of_nat (length name) ->
  (0 < length name)%nat ->
  LATEST s + Z.of_nat (length (word_header c l name)) <= ZF_DICT_SIZE ->
  holds s (LATEST s) (word_header c l name) ->
  find_word (S fuel) name s
  = Ok (Some (LATEST s,
              LATEST s + Z.of_nat (length (word_header c l name)))) s /\
  (forall other, other <> name ->
     find_word (S fuel) other s = find_word_loop fuel other (u32 l) s).
Proof.
  intros Hs Hh Hc Hl Hlen Hn Hfit Hheld.
  set (h := LATEST s) in *.
  assert (H0 : 0 <= h /\ 20 <= h)
    by (unfold ZF_USERVAR_END, ZF_USERVAR_COUNT in Hh; lia).
  pose proof (var_bytes_bounds c) as Hbc.
  pose proof (var_bytes_bounds l) as Hbl.
  rewrite word_header_length in Hfit.
  set (n1 := Z.of_nat (length (var_bytes c))) in *.
  set (n2 := Z.of_nat (length (var_bytes l))) in *.
  assert (Hc1 : dict_get_cell h s = Ok (c, n1) s).
  { apply dict_get_cell_var; try assumption; try lia.
    apply (holds_part s h [] (var_bytes c) (var_bytes l ++ name)) in Hheld;
      [|lia]. cbn [length Z.of_nat] in Hheld.
    now rewrite Z.add_0_r in Hheld. }
  assert (Hc2 : dict_get_cell (h + n1) s = Ok (l, n2) s).
  { apply dict_get_cell_var; try assumption; try lia.
    apply (holds_part s h (var_bytes c) (var_bytes l) name); [assumption|lia]. }
  assert (Hname : slice (dict s) (h + n1 + n2) (Z.of_nat (length name))
                  = Some name).
  { rewrite slice_inside;
      [|lia|lia|unfold dict_sized in Hs; rewrite Hs;
               change (Z.of_nat (Z.to_nat ZF_DICT_SIZE)) with ZF_DICT_SIZE;
               lia].
    f_equal. rewrite Nat2Z.id.
    assert (Hp : holds s (h + Z.of_nat (length (var_bytes c ++ var_bytes l)))
                   name).
    { apply (holds_part s h (var_bytes c ++ var_bytes l) name []); [|lia].
      unfold word_header in Hheld. now rewrite app_nil_r, <- app_assoc. }
    unfold holds in Hp. rewrite length_app, Nat2Z.inj_add in Hp.
    replace (h + n1 + n2)
      with (h + (Z.of_nat (length (var_bytes c))
                 + Z.of_nat (length (var_bytes l)))) by lia.
    exact Hp. }
  assert (Hstart : forall other,
    find_word (S fuel) other s
    = (if Z.of_nat (length name) =? Z.of_nat (length other) then
         if bytes_eqb other name
         then ret (Some (h, u32 (h + n1 + n2 + Z.of_nat (length name))))
         else find_word_loop fuel other (u32 l)
       else find_word_loop fuel other (u32 l)) s).
  { intros other. unfold find_word. mstep. fold h.
    cbn [find_word_loop].
    destruct (Z.eqb_spec h 0); [lia|].
    erewrite bind_Ok by exact Hc1. cbn [fst snd].
    rewrite (u32_addr (h + n1)) by lia.
    erewrite bind_Ok by exact Hc2. cbn [fst snd].
    rewrite (u32_addr (h + n1 + n2)) by lia.
    rewrite Hlen.
    destruct (Z.of_nat (length name) =? Z.of_nat (length other));
      [|reflexivity].
    mstep. rewrite Hname. cbn [defined]. mstep. reflexivity. }
  split.
  - rewrite Hstart, Z.eqb_refl.
    replace (bytes_eqb name name) with true
      by (symmetry; now apply bytes_eqb_eq).
    rewrite u32_addr by lia. rewrite word_header_length.
    unfold ret. do 3 f_equal. lia.
  - intros other Hne. rewrite Hstart.
    destruct (Z.of_nat (length name) =? Z.of_nat (length other));
      [|reflexivity].
    destruct (bytes_eqb other name) eqn:E; [|reflexivity].
    apply bytes_eqb_eq in E. contradiction.
Qed.

(** X17.  A word that has just been created is the one [find_word] finds under
    its name: [create] puts the header (length and flags, link, name) at
    [HERE] and makes it [LATEST]; the search then gives the address of the
    header and, as the code address, the first byte after it, which is
    the new [HERE]; under any other name the search goes on from the word
    that was [LATEST] before. *)
Theorem created_word_is_found (fuel : nat) (name : list Z) (flags : Z)
  (s : state) :
  dict_sized s -> ZF_USERVAR_END <= HERE s ->
  (0 < length name < 32)%nat ->
  0 <= flags < 2 ^ 31 -> Z.land flags 31 = 0 ->
  HERE s + 10 + Z.of_nat (length name) <= ZF_DICT_SIZE ->
  exists s',
    create name flags s = Ok tt s' /\
    LATEST s' = HERE s /\ HERE s < HERE s' /\
    find_word (S fuel) name s' = Ok (Some (HERE s, HERE s')) s' /\
    (forall other, other <> name ->
       find_word (S fuel) other s'
       = find_word_loop fuel other (u32 (LATEST s)) s') /\
    (exists n,
       dict_get_cell (HERE s) s'
       = Ok (Z.of_nat (length name) + flags, n) s') /\
    dict_sized s' /\ beside_dict s' = beside_dict s.
Proof.
  intros Hs Hh Hn Hf Hlow Hroom.
  destruct (lenflags_cell (Z.of_nat (length name)) flags)
    as (Hsum & Hc & Hlen); [lia|assumption|assumption|].
  set (c := Z.lor (Z.of_nat (length name)) flags) in *.
  set (l := s32 (LATEST s)).
  pose proof (var_bytes_bounds c) as Hbc.
  pose proof (var_bytes_bounds l) as Hbl.
  pose proof (word_header_length c l name) as HW.
  set (W := word_header c l name) in *.
  assert (Hfit : HERE s + Z.of_nat (length W) <= ZF_DICT_SIZE) by lia.
  destruct (here_bounds s Hh) as [H0 _].
  destruct (created_facts (HERE s) W s Hs Hh eq_refl Hfit)
    as (Hs' & Hlatest & Hhere & Hheld).
  set (s' := set_uservar ZF_USERVAR_LATEST (HERE s) (appended s W)) in *.
  exists s'.
  split; [now apply create_spec|].
  split; [exact Hlatest|]. split; [lia|].
  assert (P1 : ZF_USERVAR_END <= LATEST s') by (rewrite Hlatest; exact Hh).
  assert (P2 : is_cell l) by apply s32_is_cell.
  assert (P3 : (0 < length name)%nat) by lia.
  assert (P4 : LATEST s' + Z.of_nat (length (word_header c l name))
               <= ZF_DICT_SIZE) by (rewrite Hlatest; exact Hfit).
  assert (P5 : holds s' (LATEST s') (word_header c l name))
    by (rewrite Hlatest; exact Hheld).
  destruct (find_word_at_latest fuel c l name s' Hs' P1 Hc P2 Hlen P3 P4 P5)
    as [Hfound Hother].
  rewrite Hlatest in Hfound. fold W in Hfound. rewrite <- Hhere in Hfound.
  split; [exact Hfound|].
  split.
  { intros other Hne. rewrite (Hother other Hne).
    unfold l. now rewrite s32_u32_back. }
  split.
  { exists (Z.of_nat (length (var_bytes c))). rewrite <- Hsum.
    apply dict_get_cell_var; try assumption; try lia.
    apply (holds_part s' (HERE s) [] (var_bytes c) (var_bytes l ++ name))
      in Hheld; [|lia].
    cbn [length Z.of_nat] in Hheld. now rewrite Z.add_0_r in Hheld. }
  split; [exact Hs'|reflexivity].
Qed.

(** The search in a dictionary that holds no word, [LATEST] being 0,
    finds nothing and changes nothing. *)
Lemma find_word_empty fuel name s :
  LATEST s = 0 -> find_word (S fuel) name s = Ok None s.
Proof.
  intros H. unfold find_word. mstep. rewrite H. reflexivity.
Qed.

(** *** The immediate flag *)

Lemma immediate_bits c :
  0 <= c < 128 ->
  0 <= Z.lor c ZF_FLAG_IMMEDIATE < 128 /\
  ZF_FLAG_LEN (Z.lor c ZF_FLAG_IMMEDIATE) = ZF_FLAG_LEN c /\
  Z.land (Z.lor c ZF_FLAG_IMMEDIATE) ZF_FLAG_PRIM = Z.land c ZF_FLAG_PRIM /\
  Z.land (Z.lor c ZF_FLAG_IMMEDIATE) ZF_FLAG_IMMEDIATE = ZF_FLAG_IMMEDIATE.
Proof.
  intros H. replace c with (Z.of_nat (Z.to_nat c)) by lia.
  assert (Hk : (Z.to_nat c < 128)%nat) by lia.
  revert Hk. generalize (Z.to_nat c). clear. intros k Hk.
  do 128 (destruct k as [|k];
          [vm_compute; repeat split; congruence|]).
  lia.
Qed.

Lemma var_bytes_small c : 0 <= c < 128 -> var_bytes c = [c].
Proof.
  intros H. unfold var_bytes.
  destruct (Z.leb_spec 0 c); [|lia]. destruct (Z.ltb_spec c 128); [|lia].
  reflexivity.
Qed.

Lemma small_is_cell c : 0 <= c < 128 -> is_cell c.
Proof. unfold is_cell. pow2. lia. Qed.

Lemma beside_dict_written s a bs : beside_dict (written s a bs) = beside_dict s.
Proof. reflexivity. Qed.

(** X18.  [make_immediate] sets the flag of the word at [LATEST] and nothing
    else: the cell of length and flags, one byte long, gets the bit
    [ZF_FLAG_IMMEDIATE]; the length, the flag [ZF_FLAG_PRIM], the user
    variables and every other byte of the dictionary stay as they
    are. *)
Theorem make_immediate_sets_flag (c : Z) (s : state) :
  dict_sized s -> ZF_USERVAR_END <= LATEST s ->
  LATEST s + 2 <= ZF_DICT_SIZE ->
  0 <= c < 128 -> holds s (LATEST s) [c] ->
  exists s',
    make_immediate s = Ok tt s' /\
    dict_get_cell (LATEST s) s' = Ok (Z.lor c ZF_FLAG_IMMEDIATE, 1) s' /\
    ZF_FLAG_LEN (Z.lor c ZF_FLAG_IMMEDIATE) = ZF_FLAG_LEN c /\
    Z.land (Z.lor c ZF_FLAG_IMMEDIATE) ZF_FLAG_PRIM = Z.land c ZF_FLAG_PRIM /\
    Z.land (Z.lor c ZF_FLAG_IMMEDIATE) ZF_FLAG_IMMEDIATE = ZF_FLAG_IMMEDIATE /\
    (forall i, 0 <= i < ZF_USERVAR_COUNT -> uservar i s' = uservar i s) /\
    (forall a bs,
       0 <= a -> a + Z.of_nat (length bs) <= LATEST s \/ LATEST s + 1 <= a ->
       holds s a bs -> holds s' a bs) /\
    dict_sized s' /\ beside_dict s' = beside_dict s.
Proof.
  intros Hs Hl Hfit Hc Hheld.
  destruct (immediate_bits c Hc) as (Hr & Blen & Bprim & Bimm).
  set (c' := Z.lor c ZF_FLAG_IMMEDIATE) in *.
  assert (H0 : 0 <= LATEST s)
    by (unfold ZF_USERVAR_END, ZF_USERVAR_COUNT in Hl; lia).
  assert (Hget : dict_get_cell (LATEST s) s = Ok (c, 1) s).
  { replace 1 with (Z.of_nat (length (var_bytes c)))
      by (now rewrite var_bytes_small).
    apply dict_get_cell_var; try assumption.
    - now apply small_is_cell.
    - now rewrite var_bytes_small. }
  assert (Hput : dict_put_cell (LATEST s) c' s
                 = Ok 1 (written s (LATEST s) [c'])).
  { rewrite <- (var_bytes_small c') by assumption.
    replace 1 with (Z.of_nat (length (var_bytes c')))
      by (now rewrite var_bytes_small).
    apply dict_put_cell_var; try assumption.
    - now apply small_is_cell.
    - rewrite var_bytes_small by assumption. cbn [length]. lia. }
  assert (Hs' : dict_sized (written s (LATEST s) [c']))
    by (apply dict_sized_written; try assumption; cbn [length]; lia).
  assert (Hlatest : LATEST (written s (LATEST s) [c']) = LATEST s).
  { apply uservar_written; try assumption.
    - unfold ZF_USERVAR_LATEST, ZF_USERVAR_COUNT. lia.
    - cbn [length]. lia. }
  exists (written s (LATEST s) [c']).
  split.
  { unfold make_immediate. mstep.
    erewrite bind_Ok by exact Hget. cbn [fst]. fold c'.
    erewrite bind_Ok by exact Hput. reflexivity. }
  split.
  { replace 1 with (Z.of_nat (length (var_bytes c')))
      by (now rewrite var_bytes_small).
    apply dict_get_cell_var; try assumption.
    - now apply small_is_cell.
    - rewrite var_bytes_small by assumption.
      apply holds_written; try assumption. cbn [length]. lia. }
  split; [exact Blen|]. split; [exact Bprim|]. split; [exact Bimm|].
  split.
  { intros i Hi. apply uservar_written; try assumption.
    cbn [length]. lia. }
  split.
  { intros a bs Ha Hd Hh. unfold holds, written in *. cbn [dict set_dict].
    rewrite sub_overwrite_disjoint; [assumption| |].
    - unfold dict_sized in Hs. rewrite Hs.
      change (Z.to_nat ZF_DICT_SIZE) with 4096%nat.
      change ZF_DICT_SIZE with 4096 in Hfit. cbn [length]. lia.
    - cbn [length]. lia. }
  split; [exact Hs'|reflexivity].
Qed.

(** *** Initialisation and the user variables of the host *)

Lemma uservar_index_cases i :
  0 <= i < ZF_USERVAR_COUNT -> i = 0 \/ i = 1 \/ i = 2 \/ i = 3 \/ i = 4.
Proof. unfold ZF_USERVAR_COUNT. lia. Qed.

(** X19.  [zf_init] sets [HERE] to the first address after the user variables,
    [TRACE] to its argument and [LATEST], [COMPILING] and both stack
    pointers to 0, so that a search finds no word; it leaves [POSTPONE],
    every byte of the dictionary after the first four user variables and
    all other variables as they are. *)
Theorem zf_init_resets (enable_trace : Z) (fuel : nat) (name : list Z)
  (s : state) :
  dict_sized s ->
  exists s',
    zf_init enable_trace s = Ok tt s' /\
    HERE s' = ZF_USERVAR_END /\ LATEST s' = 0 /\
    TRACE s' = u32 enable_trace /\ COMPILING s' = 0 /\
    dsp s' = 0 /\ rsp s' = 0 /\
    find_word (S fuel) name s' = Ok None s' /\
    POSTPONE s' = POSTPONE s /\
    skipn 16 (dict s') = skipn 16 (dict s) /\
    input_state s' = input_state s /\ ip s' = ip s /\ tok s' = tok s /\
    dstack s' = dstack s /\ rstack s' = rstack s /\
    sram s' = sram s /\ write_pos s' = write_pos s /\
    node_part s' = node_part s /\ dict_sized s'.
Proof.
  intros Hs.
  set (s1 := set_uservar ZF_USERVAR_HERE (ZF_USERVAR_COUNT * 4) s).
  set (s2 := set_uservar ZF_USERVAR_TRACE enable_trace s1).
  set (s3 := set_uservar ZF_USERVAR_LATEST 0 s2).
  set (s4 := set_uservar ZF_USERVAR_COMPILING 0 (set_rsp 0 (set_dsp 0 s3))).
  assert (I0 : 0 <= ZF_USERVAR_HERE < ZF_USERVAR_COUNT) by (cbv; intuition congruence).
  assert (I1 : 0 <= ZF_USERVAR_LATEST < ZF_USERVAR_COUNT) by (cbv; intuition congruence).
  assert (I2 : 0 <= ZF_USERVAR_TRACE < ZF_USERVAR_COUNT) by (cbv; intuition congruence).
  assert (I3 : 0 <= ZF_USERVAR_COMPILING < ZF_USERVAR_COUNT) by (cbv; intuition congruence).
  assert (I4 : 0 <= ZF_USERVAR_POSTPONE < ZF_USERVAR_COUNT) by (cbv; intuition congruence).
  assert (Hs1 : dict_sized s1) by (now apply dict_sized_set_uservar).
  assert (Hs2 : dict_sized s2) by (now apply dict_sized_set_uservar).
  assert (Hs3 : dict_sized s3) by (now apply dict_sized_set_uservar).
  assert (Hs3' : dict_sized (set_rsp 0 (set_dsp 0 s3))) by exact Hs3.
  assert (Hs4 : dict_sized s4) by (now apply dict_sized_set_uservar).
  assert (Hlatest : LATEST s4 = 0).
  { unfold LATEST, s4. rewrite uservar_set_other by (assumption || discriminate).
    change (uservar ZF_USERVAR_LATEST (set_rsp 0 (set_dsp 0 s3)))
      with (uservar ZF_USERVAR_LATEST s3).
    unfold s3. now rewrite uservar_set_uservar. }
  exists s4. split; [reflexivity|].
  split.
  { unfold HERE, s4. rewrite uservar_set_other by (assumption || discriminate).
    change (uservar ZF_USERVAR_HERE (set_rsp 0 (set_dsp 0 s3)))
      with (uservar ZF_USERVAR_HERE s3).
    unfold s3. rewrite uservar_set_other by (assumption || discriminate).
    unfold s2. rewrite uservar_set_other by (assumption || discriminate).
    unfold s1. now rewrite uservar_set_uservar. }
  split; [exact Hlatest|].
  split.
  { unfold TRACE, s4. rewrite uservar_set_other by (assumption || discriminate).
    change (uservar ZF_USERVAR_TRACE (set_rsp 0 (set_dsp 0 s3)))
      with (uservar ZF_USERVAR_TRACE s3).
    unfold s3. rewrite uservar_set_other by (assumption || discriminate).
    unfold s2. now rewrite uservar_set_uservar. }
  split; [unfold COMPILING, s4; now rewrite uservar_set_uservar|].
  split; [reflexivity|]. split; [reflexivity|].
  split; [now apply find_word_empty|].
  split.
  { unfold POSTPONE, s4. rewrite uservar_set_other by (assumption || discriminate).
    change (uservar ZF_USERVAR_POSTPONE (set_rsp 0 (set_dsp 0 s3)))
      with (uservar ZF_USERVAR_POSTPONE s3).
    unfold s3. rewrite uservar_set_other by (assumption || discriminate).
    unfold s2. rewrite uservar_set_other by (assumption || discriminate).
    unfold s1. now rewrite uservar_set_other by (assumption || discriminate). }
  split.
  { unfold dict_sized in *.
    change (Z.to_nat ZF_DICT_SIZE) with 4096%nat in *.
    assert (Hskip : forall i v st,
              0 <= i < 4 -> length (dict st) = 4096%nat ->
              skipn 16 (dict (set_uservar i v st)) = skipn 16 (dict st)).
    { intros i v st Hi Hst. unfold set_uservar. cbn [dict set_dict].
      unfold overwrite. rewrite !app_assoc, skipn_app.
      rewrite skipn_all2
        by (rewrite length_app, length_firstn, le_bytes_length; lia).
      rewrite length_app, length_firstn, le_bytes_length. cbn [app].
      rewrite skipn_skipn. f_equal. lia. }
    unfold s4. rewrite Hskip by (assumption || (cbv; intuition congruence)).
    change (dict (set_rsp 0 (set_dsp 0 s3))) with (dict s3).
    unfold s3. rewrite Hskip by (assumption || (cbv; intuition congruence)).
    unfold s2. rewrite Hskip by (assumption || (cbv; intuition congruence)).
    unfold s1. now rewrite Hskip by (assumption || (cbv; intuition congruence)). }
  repeat (split; [reflexivity|]). exact Hs4.
Qed.

(** X20.  [zf_uservar_set] and [zf_uservar_get]: under an identifier below
    [ZF_USERVAR_COUNT] the value set is the value got, as a cell, whether
    or not the caller of the getter gives a place for it, and the other
    user variables keep their values; under any other identifier both
    return [ZF_ABORT_INVALID_USERVAR], without a jump to [zf_eval], and
    change nothing. *)
Theorem uservar_set_get (uv v : Z) (given : bool) (s : state) :
  dict_sized s -> 0 <= uv ->
  (uv < ZF_USERVAR_COUNT ->
   exists s',
     zf_uservar_set uv v s = Ok ZF_OK s' /\
     zf_uservar_get uv true s' = Ok (ZF_OK, Some (s32 v)) s' /\
     zf_uservar_get uv false s' = Ok (ZF_OK, None) s' /\
     (forall j, 0 <= j < ZF_USERVAR_COUNT -> j <> uv ->
        uservar j s' = uservar j s) /\
     beside_dict s' = beside_dict s) /\
  (ZF_USERVAR_COUNT <= uv ->
   zf_uservar_set uv v s = Ok ZF_ABORT_INVALID_USERVAR s /\
   zf_uservar_get uv given s = Ok (ZF_ABORT_INVALID_USERVAR, None) s).
Proof.
  intros Hs H0. split.
  - intros Hlt. exists (set_uservar uv v s).
    unfold zf_uservar_set, zf_uservar_get.
    destruct (Z.ltb_spec uv ZF_USERVAR_COUNT); [|lia].
    split; [reflexivity|]. split.
    + mstep. rewrite uservar_set_uservar by (assumption || lia).
      now rewrite s32_u32.
    + split; [reflexivity|]. split; [|reflexivity].
      intros j Hj Hne. apply uservar_set_other; try assumption. lia.
  - intros Hge. unfold zf_uservar_set, zf_uservar_get.
    destruct (Z.ltb_spec uv ZF_USERVAR_COUNT); [lia|]. split; reflexivity.
Qed.

(** ** The stacks and the primitives *)

Lemma on_top_nth (a : list Z) : forall (vs : list Z) (n : Z) (i : nat),
  on_top a n vs -> (i < length vs)%nat ->
  load a (n - 1 - Z.of_nat i) = Some (nth i vs 0).
Proof.
  induction vs as [|v vs IH]; intros n i Htop Hi; cbn [length] in Hi.
  - lia.
  - cbn [on_top] in Htop. destruct Htop as [Hv Hvs].
    destruct i as [|i].
    + cbn [nth Z.of_nat]. now rewrite Z.sub_0_r.
    + cbn [nth]. specialize (IH (n - 1) i Hvs ltac:(lia)).
      rewrite <- IH. f_equal. lia.
Qed.

(** [zf_pick] reads the cell [n] places below the top. *)
Lemma zf_pick_top s vs (i : nat) :
  dstack_top s vs -> (i < length vs)%nat ->
  zf_pick (Z.of_nat i) s = Ok (nth i vs 0) s.
Proof.
  intros (Hl & Hn & Htop) Hi. unfold ZF_DSTACK_SIZE in *.
  cbv beta iota delta [zf_pick CHECK ZF_ENABLE_BOUNDARY_CHECKS bind gets
                        ret].
  rewrite u32_small by (pow2; lia).
  replace (dsp s - Z.of_nat i - 1) with (dsp s - 1 - Z.of_nat i) by lia.
  rewrite (on_top_nth (dstack s) vs (dsp s) i Htop Hi). reflexivity.
Qed.

Lemma zf_push_full s v :
  Z.of_nat (length (dstack s)) = ZF_DSTACK_SIZE -> dsp s = ZF_DSTACK_SIZE ->
  zf_push v s = Undefined.
Proof.
  intros Hl Hn.
  cbv beta iota delta [zf_push CHECK ZF_ENABLE_BOUNDARY_CHECKS bind gets
                        ret modify store].
  rewrite Hn.
  assert (E : splice (dstack s) ZF_DSTACK_SIZE [v] = None).
  { rewrite <- Hl. clear. induction (dstack s) as [|x a IH].
    - reflexivity.
    - cbn [splice length]. 
      destruct (Z.ltb_spec (Z.of_nat (S (length a))) 0); [lia|].
      destruct (Z.ltb_spec 0 (Z.of_nat (S (length a)))); [|lia].
      replace (Z.of_nat (S (length a)) - 1) with (Z.of_nat (length a))
        by lia.
      now rewrite IH. }
  rewrite E. reflexivity.
Qed.

(** X21.  What is pushed is what is popped: [zf_push] on a stack that is not
    full puts the cell above the cells that were there, [zf_pick] finds it
    and them by their depth, and [zf_pop] gives it back and leaves the
    stack pointer where it was.  On a full stack the push is not caught:
    the boundary checks are compiled out and the store leaves the
    array. *)
Theorem push_pop_roundtrip (v : Z) (vs : list Z) (s : state) :
  dstack_top s vs ->
  (dsp s < ZF_DSTACK_SIZE ->
   exists s1,
     zf_push v s = Ok tt s1 /\ dsp s1 = dsp s + 1 /\
     dstack_top s1 (v :: vs) /\
     (forall i, (i < length (v :: vs))%nat ->
        zf_pick (Z.of_nat i) s1 = Ok (nth i (v :: vs) 0) s1) /\
     zf_pop s1 = Ok v (set_dsp (dsp s) s1) /\
     dstack_top (set_dsp (dsp s) s1) vs /\
     beside_dstack s1 = beside_dstack s) /\
  (dsp s = ZF_DSTACK_SIZE -> zf_push v s = Undefined).
Proof.
  intros Htop. split.
  - intros Hroom.
    destruct (zf_push_top s v vs Htop Hroom) as (s1 & Hpush & Htop1 & Hd & Hs1).
    destruct (zf_pop_top s1 v vs Htop1) as [Hpop Htop2].
    replace (dsp s1 - 1) with (dsp s) in * by lia.
    exists s1. split; [exact Hpush|]. split; [exact Hd|].
    split; [exact Htop1|].
    split; [intros i Hi; now apply zf_pick_top|].
    split; [exact Hpop|]. split; [exact Htop2|].
    subst s1. reflexivity.
  - intros Hfull. apply zf_push_full; [|assumption]. apply Htop.
Qed.

(** *** The return stack *)

Lemma zf_popr_top s v vs :
  rstack_top s (v :: vs) ->
  zf_popr s = Ok v (set_rsp (rsp s - 1) s) /\
  rstack_top (set_rsp (rsp s - 1) s) vs.
Proof.
  unfold rstack_top, ZF_RSTACK_SIZE. cbn [length on_top].
  intros (Hl & Hn & Hv & Htl).
  assert (Hu : u32 (rsp s - 1) = rsp s - 1).
  { unfold u32. apply Z.mod_small. pow2. lia. }
  split.
  - cbv beta iota delta [zf_popr CHECK ZF_ENABLE_BOUNDARY_CHECKS bind gets
                          ret modify].
    rewrite Hu. cbn [rstack set_rsp]. rewrite Hv. reflexivity.
  - cbn [rsp rstack set_rsp]. split; [assumption|]. split; [lia|assumption].
Qed.

Lemma zf_pushr_top s v vs :
  rstack_top s vs -> rsp s < ZF_RSTACK_SIZE ->
  zf_pushr v s
  = Ok tt (set_rsp (rsp s + 1)
             (set_rstack (overwrite (rstack s) (Z.to_nat (rsp s)) [v]) s)) /\
  rstack_top
    (set_rsp (rsp s + 1)
       (set_rstack (overwrite (rstack s) (Z.to_nat (rsp s)) [v]) s))
    (v :: vs).
Proof.
  unfold rstack_top, ZF_RSTACK_SIZE. intros (Hl & Hn & Htop) Hfull.
  assert (H0 : 0 <= rsp s) by lia.
  assert (Hu : u32 (rsp s + 1) = rsp s + 1).
  { unfold u32. apply Z.mod_small. pow2. lia. }
  split.
  - cbv beta iota delta [zf_pushr CHECK ZF_ENABLE_BOUNDARY_CHECKS bind gets
                          ret modify store].
    rewrite splice_inside by (cbn [length]; lia).
    cbn [defined ret]. rewrite Hu. reflexivity.
  - cbn [rsp rstack set_rsp set_rstack length on_top].
    rewrite overwrite_length by (cbn [length]; lia).
    split; [assumption|]. split; [lia|].
    replace (rsp s + 1 - 1) with (rsp s) by lia. split.
    + apply load_overwrite_same. lia.
    + apply on_top_overwrite; [lia|lia|assumption].
Qed.

Section PrimMore.

Variable DATA_SIZE : Z.

Local Abbreviation do_prim := (do_prim DATA_SIZE).
Local Abbreviation stack_effect := (stack_effect DATA_SIZE).

(** X22.  The primitive [>r] moves the cell on top of the data stack to the
    return stack and [r>] moves it back: after the two, both stacks and
    both pointers are as they were. *)
Theorem to_return_stack_and_back (fuel : nat) (input : option (list Z))
  (v : Z) (vs rs : list Z) (s : state) :
  dstack_top s (v :: vs) -> rstack_top s rs -> rsp s < ZF_RSTACK_SIZE ->
  exists s1 s2,
    do_prim fuel (prim_code PRIM_PUSHR) input s = Ok tt s1 /\
    dstack_top s1 vs /\ rstack_top s1 (v :: rs) /\
    dsp s1 = dsp s - 1 /\ rsp s1 = rsp s + 1 /\
    do_prim fuel (prim_code PRIM_POPR) input s1 = Ok tt s2 /\
    dstack_top s2 (v :: vs) /\ rstack_top s2 rs /\
    dsp s2 = dsp s /\ rsp s2 = rsp s /\ dict s2 = dict s.
Proof.
  intros Hd Hr Hroom.
  destruct (zf_pop_top s v vs Hd) as [Hpop Hd1].
  set (s0 := set_dsp (dsp s - 1) s) in *.
  assert (Hr0 : rstack_top s0 rs) by exact Hr.
  destruct (zf_pushr_top s0 v rs Hr0 Hroom) as [Hpushr Hr1].
  set (s1 := set_rsp (rsp s0 + 1)
               (set_rstack (overwrite (rstack s0) (Z.to_nat (rsp s0)) [v])
                  s0)) in *.
  assert (Hd1' : dstack_top s1 vs) by exact Hd1.
  destruct (zf_popr_top s1 v rs Hr1) as [Hpopr Hr2].
  set (s1' := set_rsp (rsp s1 - 1) s1) in *.
  assert (Hd2 : dstack_top s1' vs) by exact Hd1.
  assert (Hroom' : dsp s1' < ZF_DSTACK_SIZE).
  { destruct Hd as (_ & Hn & _). change (dsp s1') with (dsp s - 1). lia. }
  destruct (zf_push_top s1' v vs Hd2 Hroom') as (s2 & Hpush & Hd3 & Hdsp & Hs2).
  exists s1, s2.
  split.
  { unfold do_prim. rewrite prim_of_code_prim_code.
    erewrite bind_Ok by exact Hpop. exact Hpushr. }
  split; [exact Hd1'|]. split; [exact Hr1|].
  split; [reflexivity|]. split; [reflexivity|].
  split.
  { unfold do_prim. rewrite prim_of_code_prim_code.
    erewrite bind_Ok by exact Hpopr. exact Hpush. }
  split; [exact Hd3|].
  split.
  { subst s2. exact Hr2. }
  split; [rewrite Hdsp; change (dsp s1') with (dsp s - 1); lia|].
  split; [subst s2; change (rsp s + 1 - 1 = rsp s); lia|].
  subst s2. reflexivity.
Qed.

(** *** Stack effects *)

Lemma pop_step {B : Type} (k : Z -> M B) s x r :
  dstack_top s (x :: r) ->
  bind zf_pop k s = k x (set_dsp (dsp s - 1) s) /\
  dstack_top (set_dsp (dsp s - 1) s) r.
Proof.
  intros H. destruct (zf_pop_top s x r H) as [Hp Ht].
  split; [now apply bind_Ok|exact Ht].
Qed.

(** Two cells popped, one pushed. *)
Lemma binary_effect (f : Z -> Z -> Z) s x y below :
  dstack_top s (x :: y :: below) ->
  exists s',
    (a <- zf_pop ;; b <- zf_pop ;; zf_push (f a b)) s = Ok tt s' /\
    dstack_top s' (f x y :: below) /\ dsp s' = dsp s - 1 /\
    beside_dstack s' = beside_dstack s.
Proof.
  intros H.
  destruct (pop_step (fun a => b <- zf_pop ;; zf_push (f a b)) s x _ H)
    as [E1 H1].
  destruct (pop_step (fun b => zf_push (f x b)) _ y _ H1) as [E2 H2].
  destruct (zf_push_top _ (f x y) below H2) as (s' & Hp & Ht & Hd & Hs').
  { destruct H as (_ & Hn & _). unfold ZF_DSTACK_SIZE in *.
    cbn [dsp set_dsp length] in *. lia. }
  exists s'. split; [rewrite E1, E2; exact Hp|].
  split; [exact Ht|]. split; [rewrite Hd; cbn [dsp set_dsp]; lia|].
  subst s'. reflexivity.
Qed.

(** One cell popped, one pushed. *)
Lemma unary_effect (f : Z -> Z) s x below :
  dstack_top s (x :: below) ->
  exists s',
    (a <- zf_pop ;; zf_push (f a)) s = Ok tt s' /\
    dstack_top s' (f x :: below) /\ dsp s' = dsp s /\
    beside_dstack s' = beside_dstack s.
Proof.
  intros H.
  destruct (pop_step (fun a => zf_push (f a)) s x _ H) as [E1 H1].
  destruct (zf_push_top _ (f x) below H1) as (s' & Hp & Ht & Hd & Hs').
  { destruct H as (_ & Hn & _). unfold ZF_DSTACK_SIZE in *.
    cbn [dsp set_dsp length] in *. lia. }
  exists s'. split; [rewrite E1; exact Hp|].
  split; [exact Ht|]. split; [rewrite Hd; cbn [dsp set_dsp]; lia|].
  subst s'. reflexivity.
Qed.

Ltac binary f :=
  let below := fresh "below" in
  let H := fresh "H" in
  intros below H; cbn [app] in H;
  let s' := fresh "s'" in
  let E := fresh "E" in
  let T := fresh "T" in
  let D := fresh "D" in
  let B := fresh "B" in
  destruct (binary_effect f _ _ _ _ H) as (s' & E & T & D & B);
  exists s'; unfold do_prim; rewrite prim_of_code_prim_code;
  split; [exact E|]; split; [exact T|];
  split; [cbn [length Z.of_nat Pos.of_succ_nat Pos.succ]; lia|exact B].

(** The arithmetic primitives as the target computes them: results cut
    to 32 bits. *)
Lemma arithmetic_wrapped (fuel : nat) (input : option (list Z))
  (a b : Z) (s : state) :
  stack_effect fuel input PRIM_ADD s [b; a] [s32 (a + b)] /\
  stack_effect fuel input PRIM_SUB s [b; a] [s32 (a - b)] /\
  stack_effect fuel input PRIM_MUL s [b; a] [s32 (a * b)] /\
  (b <> 0 -> stack_effect fuel input PRIM_DIV s [b; a] [s32 (Z.quot a b)]) /\
  (b <> 0 -> stack_effect fuel input PRIM_MOD s [b; a] [s32 (Z.rem a b)]) /\
  (forall below,
     dstack_top s (0 :: a :: below) ->
     do_prim fuel (prim_code PRIM_MOD) input s
     = Abort ZF_ABORT_DIVISION_BY_ZERO (set_dsp (dsp s - 1) s)) /\
  stack_effect fuel input PRIM_EQUAL s [b; a] [if a =? b then 1 else 0] /\
  stack_effect fuel input PRIM_AND s [b; a] [Z.land a b] /\
  stack_effect fuel input PRIM_OR s [b; a] [Z.lor a b] /\
  stack_effect fuel input PRIM_XOR s [b; a] [Z.lxor a b] /\
  stack_effect fuel input PRIM_LTZ s [a] [if a <? 0 then 1 else 0].
Proof.
  split; [rewrite Z.add_comm; binary (fun d1 d2 => s32 (d1 + d2))|].
  split; [binary (fun d1 d2 => s32 (d2 - d1))|].
  split; [rewrite Z.mul_comm; binary (fun d1 d2 => s32 (d1 * d2))|].
  split.
  { intros Hb below H. cbn [app] in H.
    destruct (binary_effect (fun d2 d1 => s32 (Z.quot d1 d2)) _ _ _ _ H)
      as (s' & E & T & D & B).
    exists s'. unfold do_prim. rewrite prim_of_code_prim_code.
    split; [|split; [exact T|split; [cbn; lia|exact B]]].
    rewrite <- E.
    destruct (pop_step
                (fun d2 =>
                   (if d2 =? 0 then zf_abort ZF_ABORT_DIVISION_BY_ZERO
                    else ret tt) ;;
                   d1 <- zf_pop ;; zf_push (s32 (Z.quot d1 d2))) s b _ H)
      as [E1 _].
    destruct (pop_step
                (fun d2 => d1 <- zf_pop ;; zf_push (s32 (Z.quot d1 d2)))
                s b _ H) as [E2 _].
    rewrite E1, E2. destruct (Z.eqb_spec b 0); [contradiction|].
    reflexivity. }
  split.
  { intros Hb below H. cbn [app] in H.
    destruct (binary_effect (fun d2 d1 => s32 (Z.rem d1 d2)) _ _ _ _ H)
      as (s' & E & T & D & B).
    exists s'. unfold do_prim. rewrite prim_of_code_prim_code.
    split; [|split; [exact T|split; [cbn; lia|exact B]]].
    rewrite <- E.
    destruct (pop_step
                (fun d2 =>
                   (if d2 =? 0 then zf_abort ZF_ABORT_DIVISION_BY_ZERO
                    else ret tt) ;;
                   d1 <- zf_pop ;; zf_push (s32 (Z.rem d1 d2))) s b _ H)
      as [E1 _].
    destruct (pop_step
                (fun d2 => d1 <- zf_pop ;; zf_push (s32 (Z.rem d1 d2)))
                s b _ H) as [E2 _].
    rewrite E1, E2. destruct (Z.eqb_spec b 0); [contradiction|].
    reflexivity. }
  split.
  { intros below H. unfold do_prim. rewrite prim_of_code_prim_code.
    destruct (pop_step
                (fun d2 =>
                   (if d2 =? 0 then zf_abort ZF_ABORT_DIVISION_BY_ZERO
                    else ret tt) ;;
                   d1 <- zf_pop ;; zf_push (s32 (Z.rem d1 d2))) s 0 _ H)
      as [E1 _].
    rewrite E1. reflexivity. }
  split.
  { rewrite Z.eqb_sym.
    replace (if b =? a then 1 else 0) with (bool_cell (b =? a))
      by reflexivity.
    binary (fun x y => bool_cell (x =? y)). }
  split; [rewrite Z.land_comm; binary Z.land|].
  split; [rewrite Z.lor_comm; binary Z.lor|].
  split; [rewrite Z.lxor_comm; binary Z.lxor|].
  intros below H. cbn [app] in H.
  destruct (unary_effect (fun v => bool_cell (v <? 0)) _ _ _ H)
    as (s' & E & T & D & B).
  exists s'. unfold do_prim. rewrite prim_of_code_prim_code.
  split; [exact E|]. split; [exact T|].
  split; [cbn [length Z.of_nat Pos.of_succ_nat Pos.succ]; lia|exact B].
Qed.

(** X23.  The arithmetic and logic primitives take the cell [b] on top of the
    data stack and the cell [a] below it and leave one cell: [+], [-] and
    [*] the sum, the difference [a - b] and the product, when that is a
    cell; [/] and [%] the quotient rounded towards zero and the remainder
    that goes with it, for a divisor [b] other than 0 and a quotient that
    is a cell; [=] the flag 1 or 0; and the bitwise operators their
    result.  [<0] replaces the top cell by the flag of its sign.  With 0
    on top, [%] pops the divisor only and aborts with DIVISION_BY_ZERO. *)
Theorem arithmetic_primitives (fuel : nat) (input : option (list Z))
  (a b : Z) (s : state) :
  (is_cell (a + b) -> stack_effect fuel input PRIM_ADD s [b; a] [a + b]) /\
  (is_cell (a - b) -> stack_effect fuel input PRIM_SUB s [b; a] [a - b]) /\
  (is_cell (a * b) -> stack_effect fuel input PRIM_MUL s [b; a] [a * b]) /\
  (b <> 0 -> is_cell (Z.quot a b) ->
   stack_effect fuel input PRIM_DIV s [b; a] [Z.quot a b]) /\
  (b <> 0 -> is_cell (Z.quot a b) -> is_cell (Z.rem a b) ->
   stack_effect fuel input PRIM_MOD s [b; a] [Z.rem a b]) /\
  (forall below,
     dstack_top s (0 :: a :: below) ->
     do_prim fuel (prim_code PRIM_MOD) input s
     = Abort ZF_ABORT_DIVISION_BY_ZERO (set_dsp (dsp s - 1) s)) /\
  stack_effect fuel input PRIM_EQUAL s [b; a] [if a =? b then 1 else 0] /\
  stack_effect fuel input PRIM_AND s [b; a] [Z.land a b] /\
  stack_effect fuel input PRIM_OR s [b; a] [Z.lor a b] /\
  stack_effect fuel input PRIM_XOR s [b; a] [Z.lxor a b] /\
  stack_effect fuel input PRIM_LTZ s [a] [if a <? 0 then 1 else 0].
Proof.
  destruct (arithmetic_wrapped fuel input a b s)
    as (A & S & M & D & R & Z0 & Q & L & O & X & N).
  split; [intros H; rewrite <- (s32_cell _ H); exact A|].
  split; [intros H; rewrite <- (s32_cell _ H); exact S|].
  split; [intros H; rewrite <- (s32_cell _ H); exact M|].
  split; [intros Hb H; rewrite <- (s32_cell _ H); exact (D Hb)|].
  split; [intros Hb _ H; rewrite <- (s32_cell _ H); exact (R Hb)|].
  repeat split; assumption.
Qed.

Lemma push_step {B : Type} (k : unit -> M B) s v vs :
  dstack_top s vs -> dsp s < ZF_DSTACK_SIZE ->
  exists s',
    bind (zf_push v) k s = k tt s' /\ dstack_top s' (v :: vs) /\
    dsp s' = dsp s + 1 /\ beside_dstack s' = beside_dstack s.
Proof.
  intros H Hroom.
  destruct (zf_push_top s v vs H Hroom) as (s' & Hp & Ht & Hd & Hs').
  exists s'. split; [now apply bind_Ok|]. split; [exact Ht|].
  split; [exact Hd|]. subst s'. reflexivity.
Qed.

Lemma dsp_bounds s vs :
  dstack_top s vs -> Z.of_nat (length vs) <= dsp s <= ZF_DSTACK_SIZE.
Proof. intros H. apply H. Qed.

(** X24.  The primitives that rearrange the data stack: [drop] removes the top
    cell, [dup] doubles it, [swap] exchanges the two upper cells, [rot]
    brings the third cell to the top, and [pick] replaces the index [i]
    on top by a copy of the cell [i] places below it.  [dup] needs a free
    cell above the stack pointer: the overflow is not caught. *)
Theorem stack_shuffles (fuel : nat) (input : option (list Z))
  (a b c : Z) (i : nat) (xs : list Z) (s : state) :
  stack_effect fuel input PRIM_DROP s [a] [] /\
  (dsp s < ZF_DSTACK_SIZE -> stack_effect fuel input PRIM_DUP s [a] [a; a]) /\
  stack_effect fuel input PRIM_SWAP s [b; a] [a; b] /\
  stack_effect fuel input PRIM_ROT s [c; b; a] [a; c; b] /\
  ((i < length xs)%nat ->
   stack_effect fuel input PRIM_PICK s (Z.of_nat i :: xs) (nth i xs 0 :: xs)).
Proof.
  split; [|split; [|split; [|split]]].
  - intros below H. cbn [app] in H.
    destruct (pop_step (fun _ => ret tt) s a _ H) as [E1 H1].
    eexists. unfold do_prim. rewrite prim_of_code_prim_code.
    split; [exact E1|]. split; [exact H1|].
    split; [cbn [dsp set_dsp length Z.of_nat Pos.of_succ_nat]; lia|].
    reflexivity.
  - intros Hroom below H. cbn [app] in H.
    pose proof (dsp_bounds _ _ H) as Hb. cbn [length] in Hb.
    destruct (pop_step (fun d1 => zf_push d1 ;; zf_push d1) s a _ H)
      as [E1 H1].
    destruct (push_step (fun _ => zf_push a) _ a _ H1) as (s1 & E2 & H2 & D2 & B2).
    { cbn [dsp set_dsp]. lia. }
    destruct (zf_push_top s1 a _ H2) as (s2 & E3 & H3 & D3 & Hs2).
    { rewrite D2. cbn [dsp set_dsp]. lia. }
    exists s2. unfold do_prim. rewrite prim_of_code_prim_code.
    split; [rewrite E1, E2; exact E3|]. split; [exact H3|].
    split; [rewrite D3, D2; cbn [dsp set_dsp length Z.of_nat Pos.of_succ_nat Pos.succ]; lia|].
    subst s2. transitivity (beside_dstack s1);
      [reflexivity|rewrite B2; reflexivity].
  - intros below H. cbn [app] in H.
    pose proof (dsp_bounds _ _ H) as Hb. cbn [length] in Hb.
    destruct (pop_step (fun d1 => d2 <- zf_pop ;; zf_push d1 ;; zf_push d2)
                s b _ H) as [E1 H1].
    destruct (pop_step (fun d2 => zf_push b ;; zf_push d2) _ a _ H1)
      as [E2 H2].
    destruct (push_step (fun _ => zf_push a) _ b _ H2) as (s1 & E3 & H3 & D3 & B3).
    { cbn [dsp set_dsp]. unfold ZF_DSTACK_SIZE in *. lia. }
    destruct (zf_push_top s1 a _ H3) as (s2 & E4 & H4 & D4 & Hs2).
    { rewrite D3. cbn [dsp set_dsp]. unfold ZF_DSTACK_SIZE in *. lia. }
    exists s2. unfold do_prim. rewrite prim_of_code_prim_code.
    split; [rewrite E1, E2, E3; exact E4|]. split; [exact H4|].
    split; [rewrite D4, D3; cbn [dsp set_dsp length Z.of_nat Pos.of_succ_nat Pos.succ]; lia|].
    subst s2. transitivity (beside_dstack s1);
      [reflexivity|rewrite B3; reflexivity].
  - intros below H. cbn [app] in H.
    pose proof (dsp_bounds _ _ H) as Hb. cbn [length] in Hb.
    destruct (pop_step
                (fun d1 => d2 <- zf_pop ;; d3 <- zf_pop ;;
                           zf_push d2 ;; zf_push d1 ;; zf_push d3)
                s c _ H) as [E1 H1].
    destruct (pop_step
                (fun d2 => d3 <- zf_pop ;;
                           zf_push d2 ;; zf_push c ;; zf_push d3)
                _ b _ H1) as [E2 H2].
    destruct (pop_step
                (fun d3 => zf_push b ;; zf_push c ;; zf_push d3)
                _ a _ H2) as [E3 H3].
    destruct (push_step (fun _ => zf_push c ;; zf_push a) _ b _ H3)
      as (s1 & E4 & H4 & D4 & B4).
    { cbn [dsp set_dsp]. unfold ZF_DSTACK_SIZE in *. lia. }
    destruct (push_step (fun _ => zf_push a) _ c _ H4)
      as (s2 & E5 & H5 & D5 & B5).
    { rewrite D4. cbn [dsp set_dsp]. unfold ZF_DSTACK_SIZE in *. lia. }
    destruct (zf_push_top s2 a _ H5) as (s3 & E6 & H6 & D6 & Hs3).
    { rewrite D5, D4. cbn [dsp set_dsp]. unfold ZF_DSTACK_SIZE in *. lia. }
    exists s3. unfold do_prim. rewrite prim_of_code_prim_code.
    split; [rewrite E1, E2, E3, E4, E5; exact E6|]. split; [exact H6|].
    split; [rewrite D6, D5, D4; cbn [dsp set_dsp length Z.of_nat Pos.of_succ_nat Pos.succ]; lia|].
    subst s3. transitivity (beside_dstack s2);
      [reflexivity|rewrite B5, B4; reflexivity].
  - intros Hi below H. cbn [app] in H.
    pose proof (dsp_bounds _ _ H) as Hb. cbn [length] in Hb.
    rewrite length_app in Hb.
    destruct (pop_step (fun addr => v <- zf_pick (u32 addr) ;; zf_push v)
                s (Z.of_nat i) _ H) as [E1 H1].
    assert (Hpick : zf_pick (Z.of_nat i) (set_dsp (dsp s - 1) s)
                    = Ok (nth i (xs ++ below) 0) (set_dsp (dsp s - 1) s)).
    { apply zf_pick_top; [exact H1|]. rewrite length_app. lia. }
    rewrite app_nth1 in Hpick by assumption.
    destruct (zf_push_top _ (nth i xs 0) _ H1) as (s1 & E2 & H2 & D2 & Hs1).
    { cbn [dsp set_dsp]. lia. }
    exists s1. unfold do_prim. rewrite prim_of_code_prim_code.
    split.
    { rewrite E1. rewrite u32_small
        by (unfold ZF_DSTACK_SIZE in *; pow2; lia).
      erewrite bind_Ok by exact Hpick. exact E2. }
    split; [exact H2|].
    split; [rewrite D2; cbn [dsp set_dsp length]; lia|].
    subst s1. reflexivity.
Qed.

(** *** The primitives of the device *)


(** *** Size selectors that are none *)

Lemma not_a_selector size :
  ~ (ZF_MEM_SIZE_VAR <= size <= ZF_MEM_SIZE_S32) ->
  (size =? ZF_MEM_SIZE_VAR) = false /\ (size =? ZF_MEM_SIZE_CELL) = false /\
  (size =? ZF_MEM_SIZE_U8) = false /\ (size =? ZF_MEM_SIZE_U16) = false /\
  (size =? ZF_MEM_SIZE_U32) = false /\ (size =? ZF_MEM_SIZE_S8) = false /\
  (size =? ZF_MEM_SIZE_S16) = false /\ (size =? ZF_MEM_SIZE_S32) = false.
Proof.
  unfold ZF_MEM_SIZE_VAR, ZF_MEM_SIZE_CELL, ZF_MEM_SIZE_U8, ZF_MEM_SIZE_U16,
    ZF_MEM_SIZE_U32, ZF_MEM_SIZE_S8, ZF_MEM_SIZE_S16, ZF_MEM_SIZE_S32.
  intros H. repeat split; apply Z.eqb_neq; lia.
Qed.

(** X26.  A size selector outside the eight of [zf_mem_size] makes the typed
    accessors abort with INVALID_SIZE: the writer before it stores a byte,
    the reader after it has fetched its two bytes.  So [!!] at an address
    above the user variables pops its three cells and aborts, the
    dictionary being as it was, and [@@] pops its two cells and
    aborts. *)
Theorem invalid_size_aborts (fuel : nat) (input : option (list Z))
  (addr v size : Z) (vs : list Z) (s : state) :
  ~ (ZF_MEM_SIZE_VAR <= size <= ZF_MEM_SIZE_S32) -> is_cell size ->
  dict_sized s -> ZF_USERVAR_COUNT <= addr -> addr + 2 <= ZF_DICT_SIZE ->
  dict_put_cell_typed addr v size s = Abort ZF_ABORT_INVALID_SIZE s /\
  dict_get_cell_typed addr size s = Abort ZF_ABORT_INVALID_SIZE s /\
  (dstack_top s (size :: addr :: v :: vs) ->
   do_prim fuel (prim_code PRIM_POKE) input s
   = Abort ZF_ABORT_INVALID_SIZE (set_dsp (dsp s - 3) s)) /\
  (dstack_top s (size :: addr :: vs) ->
   do_prim fuel (prim_code PRIM_PEEK) input s
   = Abort ZF_ABORT_INVALID_SIZE (set_dsp (dsp s - 2) s)).
Proof.
  intros Hsize Hcell Hs Ha Hfit.
  destruct (not_a_selector size Hsize)
    as (N0 & N1 & N2 & N3 & N4 & N5 & N6 & N7).
  assert (Hua : u32 addr = addr).
  { apply u32_small. unfold ZF_USERVAR_COUNT in Ha.
    change ZF_DICT_SIZE with 4096 in Hfit. pow2. lia. }
  assert (Hput : forall st, dict_put_cell_typed addr v size st
                            = Abort ZF_ABORT_INVALID_SIZE st).
  { intros st. unfold dict_put_cell_typed.
    rewrite N0, N1, N2, N3, N4, N5, N6, N7. reflexivity. }
  assert (Hget : forall st, dict st = dict s ->
                   dict_get_cell_typed addr size st
                   = Abort ZF_ABORT_INVALID_SIZE st).
  { intros st Hd. unfold dict_get_cell_typed.
    erewrite bind_Ok
      by (apply dict_get_bytes_inside;
          [unfold dict_sized in *; congruence
          |unfold ZF_USERVAR_COUNT in Ha; lia|exact Hfit]).
    rewrite N0, N1, N2, N3, N4, N5, N6, N7. reflexivity. }
  split; [apply Hput|]. split; [now apply Hget|]. split.
  - intros H.
    destruct (pop_step
                (fun d2 => a0 <- zf_pop ;; d1 <- zf_pop ;;
                   if u32 a0 <? ZF_USERVAR_COUNT
                   then modify (set_uservar (u32 a0) d1)
                   else dict_put_cell_typed (u32 a0) d1 d2 ;; ret tt)
                s size _ H) as [E1 H1].
    destruct (pop_step
                (fun a0 => d1 <- zf_pop ;;
                   if u32 a0 <? ZF_USERVAR_COUNT
                   then modify (set_uservar (u32 a0) d1)
                   else dict_put_cell_typed (u32 a0) d1 size ;; ret tt)
                _ addr _ H1) as [E2 H2].
    destruct (pop_step
                (fun d1 =>
                   if u32 addr <? ZF_USERVAR_COUNT
                   then modify (set_uservar (u32 addr) d1)
                   else dict_put_cell_typed (u32 addr) d1 size ;; ret tt)
                _ v _ H2) as [E3 H3].
    unfold do_prim. rewrite prim_of_code_prim_code.
    rewrite E1, E2, E3, Hua.
    destruct (Z.ltb_spec addr ZF_USERVAR_COUNT); [lia|].
    unfold bind. rewrite Hput. cbn [dsp set_dsp].
    replace (dsp s - 1 - 1 - 1) with (dsp s - 3) by lia. reflexivity.
  - intros H.
    destruct (pop_step
                (fun len => a0 <- zf_pop ;;
                   r <- peek (u32 a0) (s32 (u32 len)) ;; zf_push (fst r))
                s size _ H) as [E1 H1].
    destruct (pop_step
                (fun a0 =>
                   r <- peek (u32 a0) (s32 (u32 size)) ;; zf_push (fst r))
                _ addr _ H1) as [E2 H2].
    unfold do_prim. rewrite prim_of_code_prim_code.
    rewrite E1, E2, Hua, s32_u32, s32_cell by assumption.
    unfold peek. destruct (Z.ltb_spec addr ZF_USERVAR_COUNT); [lia|].
    unfold bind. rewrite Hget by reflexivity. cbn [dsp set_dsp].
    replace (dsp s - 1 - 1) with (dsp s - 2) by lia. reflexivity.
Qed.

End PrimMore.

(** ** The text interpreter *)

Lemma bind_ret_tt (m : M unit) s : (m ;; ret tt) s = m s.
Proof.
  unfold bind. destruct (m s) as [[] s'|r s'| |]; reflexivity.
Qed.

Lemma set_tok_same s : set_tok (tok s) s = s.
Proof. destruct s. reflexivity. Qed.

Lemma set_tok_same_nil s : tok s = [] -> set_tok [] s = s.
Proof. intros <-. apply set_tok_same. Qed.

Lemma nth_after (pre cs : list Z) :
  nth (Z.to_nat (Z.of_nat (length pre))) (pre ++ cs) 0 = nth 0 cs 0.
Proof.
  rewrite Nat2Z.id, app_nth2 by lia. now rewrite Nat.sub_diag.
Qed.

Lemma input_not_pass_char s :
  input_state s <> ZF_INPUT_PASS_CHAR ->
  input_eqb (input_state s) ZF_INPUT_PASS_CHAR = false.
Proof. destruct (input_state s); intros H; congruence || reflexivity. Qed.

Section TextFacts.

Variable DATA_SIZE : Z.

Local Abbreviation handle_word := (handle_word DATA_SIZE).
Local Abbreviation handle_char := (handle_char DATA_SIZE).

(** A character of a token. *)
Lemma handle_char_token fuel c s :
  input_state s <> ZF_INPUT_PASS_CHAR -> c <> 0 -> isspace c = false ->
  handle_char fuel c s
  = Ok tt (if Z.of_nat (length (tok s)) <? 31
           then set_tok (tok s ++ [c]) s else s).
Proof.
  intros Hi Hc Hs. unfold handle_char. mstep.
  rewrite input_not_pass_char by assumption.
  destruct (Z.eqb_spec c 0); [contradiction|]. rewrite Hs. cbn [negb andb].
  mstep. change (32 - 1) with 31.
  destruct (Z.of_nat (length (tok s)) <? 31); reflexivity.
Qed.

(** The end of a token. *)
Lemma handle_char_separator fuel c s :
  input_state s <> ZF_INPUT_PASS_CHAR -> c = 0 \/ isspace c = true ->
  handle_char fuel c s
  = match tok s with
    | [] => Ok tt s
    | _ => handle_word fuel (tok s) (set_tok [] s)
    end.
Proof.
  intros Hi Hc. unfold handle_char. mstep.
  rewrite input_not_pass_char by assumption.
  assert (E : negb (c =? 0) && negb (isspace c) = false).
  { destruct Hc as [-> | ->]; [reflexivity|]. apply andb_false_r. }
  rewrite E. mstep.
  destruct (tok s) as [|x t]; [reflexivity|].
  cbn [length]. destruct (Z.ltb_spec 0 (Z.of_nat (S (length t)))); [|lia].
  mstep. reflexivity.
Qed.

Lemma zf_eval_loop_S fuel buf i :
  zf_eval_loop DATA_SIZE (S fuel) buf i
  = (c <- char_at buf i ;;
     handle_char fuel c ;;
     c' <- char_at buf i ;;
     if c' =? 0 then ret tt else zf_eval_loop DATA_SIZE fuel buf (i + 1)).
Proof. reflexivity. Qed.

Lemma token_loop (f : nat) : forall (cs pre : list Z) (s : state),
  Forall (fun c => c <> 0 /\ isspace c = false) cs ->
  input_state s <> ZF_INPUT_PASS_CHAR ->
  (length (tok s) <= 31)%nat -> tok s ++ cs <> [] ->
  zf_eval_loop DATA_SIZE (S (length cs + f)) (Literal (pre ++ cs))
    (Z.of_nat (length pre)) s
  = handle_word f (firstn 31 (tok s ++ cs)) (set_tok [] s).
Proof.
  induction cs as [|c cs IH]; intros pre s Hcs Hi Ht Hne.
  - cbn [length Nat.add].
    rewrite zf_eval_loop_S. cbn [char_at].
    mstep.
    rewrite nth_after. cbn [nth].
    rewrite !app_nil_r. rewrite app_nil_r in Hne.
    unfold bind at 1.
    rewrite handle_char_separator by (assumption || now left).
    destruct (tok s) as [|x t] eqn:E; [contradiction|].
    rewrite firstn_all2 by exact Ht.
    destruct (handle_word f (x :: t) (set_tok [] s)) as [[] s'|r s'| |];
      reflexivity.
  - inversion Hcs as [|? ? [Hc Hsp] Hcs']; subst.
    cbn [length Nat.add]. rewrite zf_eval_loop_S. cbn [char_at].
    erewrite bind_Ok by reflexivity. cbv beta.
    rewrite nth_after. cbn [nth].
    erewrite bind_Ok by (now apply handle_char_token).
    erewrite bind_Ok by reflexivity. cbv beta.
    destruct (Z.eqb_spec c 0); [contradiction|].
    replace (pre ++ c :: cs) with ((pre ++ [c]) ++ cs)
      by (now rewrite <- app_assoc).
    replace (Z.of_nat (length pre) + 1) with (Z.of_nat (length (pre ++ [c])))
      by (rewrite length_app; cbn [length]; lia).
    destruct (Z.ltb_spec (Z.of_nat (length (tok s))) 31).
    + rewrite IH; cbn [tok set_tok input_state]; try assumption.
      * rewrite <- app_assoc. reflexivity.
      * rewrite length_app. cbn [length]. lia.
      * destruct (tok s); discriminate.
    + rewrite IH; try assumption.
      * f_equal. rewrite !firstn_app.
        replace (31 - length (tok s))%nat with 0%nat by lia.
        reflexivity.
      * destruct (tok s); [cbn [length] in *; lia|discriminate].
Qed.

Lemma isspace_not_nul c : isspace c = true -> c <> 0.
Proof. intros H ->. discriminate. Qed.

Lemma blank_loop (f : nat) (rest : list Z) : forall (bs pre : list Z) s,
  Forall (fun c => isspace c = true) bs ->
  input_state s <> ZF_INPUT_PASS_CHAR -> tok s = [] ->
  zf_eval_loop DATA_SIZE (length bs + f) (Literal (pre ++ bs ++ rest))
    (Z.of_nat (length pre)) s
  = zf_eval_loop DATA_SIZE f (Literal ((pre ++ bs) ++ rest))
      (Z.of_nat (length (pre ++ bs))) s.
Proof.
  induction bs as [|c bs IH]; intros pre s Hbs Hi Ht.
  - cbn [length Nat.add app]. now rewrite app_nil_r.
  - inversion Hbs as [|? ? Hc Hbs']; subst.
    cbn [length Nat.add]. rewrite zf_eval_loop_S. cbn [char_at].
    mstep. rewrite nth_after. cbn [app nth].
    erewrite bind_Ok
      by (rewrite handle_char_separator by (assumption || now right);
          rewrite Ht; reflexivity).
    mstep. destruct (Z.eqb_spec c 0) as [E|_];
      [now apply isspace_not_nul in Hc|].
    replace (pre ++ c :: bs ++ rest) with ((pre ++ [c]) ++ bs ++ rest)
      by (now rewrite <- app_assoc).
    replace (Z.of_nat (length pre) + 1) with (Z.of_nat (length (pre ++ [c])))
      by (rewrite length_app; cbn [length]; lia).
    rewrite IH by assumption. now rewrite <- (app_assoc pre [c] bs).
Qed.

(** X27.  A text of white space only is evaluated to [ZF_OK] and leaves
    every variable as it was, whichever word the interpreter is in the
    middle of compiling. *)
Theorem blank_text_does_nothing (f : nat) (bs : list Z) (s : state) :
  Forall (fun c => isspace c = true) bs ->
  input_state s <> ZF_INPUT_PASS_CHAR -> tok s = [] ->
  zf_eval DATA_SIZE (length bs + S f) (Literal bs) s = Ok ZF_OK s.
Proof.
  intros Hbs Hi Ht. unfold zf_eval.
  pose proof (blank_loop (S f) [] bs [] s Hbs Hi Ht) as H.
  cbn [app length Z.of_nat] in H. rewrite app_nil_r in H. rewrite H.
  rewrite zf_eval_loop_S. cbn [char_at]. mstep.
  rewrite Nat2Z.id, nth_overflow by lia.
  erewrite bind_Ok
    by (rewrite handle_char_separator by (assumption || now left);
        rewrite Ht; reflexivity).
  mstep. reflexivity.
Qed.

(** X28.  A text of one token, after any white space, hands the first 31
    characters of the token to [handle_word] and drops the others; so a
    longer token is evaluated exactly as its first 31 characters are. *)
Theorem long_token_is_cut (f : nat) (bs cs : list Z) (s : state) :
  Forall (fun c => isspace c = true) bs ->
  Forall (fun c => c <> 0 /\ isspace c = false) cs -> cs <> [] ->
  input_state s <> ZF_INPUT_PASS_CHAR -> tok s = [] ->
  zf_eval_loop DATA_SIZE (length bs + S (length cs + f)) (Literal (bs ++ cs))
    0 s
  = handle_word f (firstn 31 cs) s
  /\ zf_eval DATA_SIZE (length bs + S (length cs + f)) (Literal (bs ++ cs)) s
    = zf_eval DATA_SIZE (S (length (firstn 31 cs) + f))
        (Literal (firstn 31 cs)) s.
Proof.
  intros Hbs Hcs Hne Hi Ht.
  assert (L : forall pre ds, Forall (fun c => isspace c = true) pre ->
            Forall (fun c => c <> 0 /\ isspace c = false) ds -> ds <> [] ->
            zf_eval_loop DATA_SIZE (length pre + S (length ds + f))
              (Literal (pre ++ ds)) 0 s
            = handle_word f (firstn 31 ds) s).
  { intros pre ds Hpre Hds Hd.
    pose proof (blank_loop (S (length ds + f)) ds pre [] s Hpre Hi Ht) as H.
    cbn [app length Z.of_nat] in H. rewrite H.
    rewrite token_loop; rewrite ?Ht; cbn [app length];
      try assumption; try lia.
    now rewrite set_tok_same_nil by assumption. }
  split; [now apply L|].
  unfold zf_eval. rewrite (L bs cs) by assumption.
  assert (L' : zf_eval_loop DATA_SIZE (S (length (firstn 31 cs) + f))
                 (Literal (firstn 31 cs)) 0 s
               = handle_word f (firstn 31 (firstn 31 cs)) s).
  { apply (L [] (firstn 31 cs)).
    - constructor.
    - rewrite <- (firstn_skipn 31 cs) in Hcs.
      now apply Forall_app in Hcs.
    - destruct cs; [contradiction|discriminate]. }
  rewrite L'. now rewrite firstn_firstn, Nat.min_id.
Qed.

End TextFacts.

(** ** The dictionary at start-up *)

Lemma with_vm_cold v s : with_vm v s = with_vm v (with_vm s s).
Proof. destruct s. reflexivity. Qed.

(** From zeroed variables, whatever the node's are, start-up leaves the
    interpreter's variables of [Sample.started]. *)
Lemma init_interpreter_cold DATA_SIZE s :
  cold s ->
  init_interpreter DATA_SIZE Sample.fuel s
  = Ok tt (with_vm Sample.started s).
Proof.
  destruct s. unfold cold, vm_part. simpl_state.
  intros H. injection H as -> -> -> -> -> -> -> ->.
  vm_compute. reflexivity.
Qed.

(** X29.  After start-up from zeroed variables each of the 41 primitives
    is found in the dictionary under its name of [prim_names] (without the
    underscore that marks [;], [immediate] and [(] as immediate), none is
    hidden by a word of [std_lib], and its code is the primitive's
    enumerator followed by [PRIM_EXIT]. *)
Theorem primitives_are_named (DATA_SIZE : Z) (s : state) :
  cold s ->
  exists s1,
    init_interpreter DATA_SIZE Sample.fuel s = Ok tt s1
    /\ Forall (names_primitive Sample.fuel s1) primitive_words
    /\ map (fun e => snd (fst e)) primitive_words = prim_table
    /\ map (fun e => str (fst (fst e))) primitive_words
       = map (fun n => match n with
                       | 95 :: tl => tl
                       | _ => n
                       end) prim_names.
Proof.
  intros Hs. exists (with_vm Sample.started s).
  split; [now apply init_interpreter_cold|].
  split; [|split; reflexivity].
  unfold primitive_words.
  repeat (apply Forall_cons || apply Forall_nil);
    unfold names_primitive;
    do 4 eexists; (split; [vm_compute; reflexivity|]);
    (split; [vm_compute; reflexivity|]);
    repeat split; vm_compute; reflexivity.
Qed.

Lemma run_S DATA_SIZE fuel input s :
  run DATA_SIZE (S fuel) input s
  = (ip_org <- gets ip ;;
     if ip_org =? 0 then ret tt
     else
       c <- dict_get_cell ip_org ;;
       let code := u32 (fst c) in
       modify (set_ip (u32 (ip_org + snd c))) ;;
       if code <=? PRIM_COUNT then
         do_prim DATA_SIZE fuel code input ;;
         st <- gets input_state ;;
         if negb (input_eqb st ZF_INPUT_INTERPRET) then
           modify (set_ip ip_org)
         else run DATA_SIZE fuel None
       else
         i <- gets ip ;;
         zf_pushr (s32 i) ;;
         modify (set_ip code) ;;
         run DATA_SIZE fuel None) s.
Proof. reflexivity. Qed.

Lemma do_prim_SUB DATA_SIZE fuel input :
  do_prim DATA_SIZE fuel (prim_code PRIM_SUB) input
  = (d1 <- zf_pop ;; d2 <- zf_pop ;; zf_push (s32 (d2 - d1))).
Proof. reflexivity. Qed.

(** Run the first step of a sequence by evaluation. *)
Ltac vstep :=
  rewrite ?bind_assoc; erewrite bind_Ok by (vm_compute; reflexivity);
  cbv beta.

(** Decide the condition of the first conditional by evaluation. *)
Ltac vcond :=
  match goal with
  | |- context [if ?c then _ else _] =>
      let v := eval vm_compute in c in
      change c with v; cbv iota
  end.

(** X30.  After start-up, the word [<] of [std_lib] on two cells whose
    difference is a cell leaves one cell in their place: 1 when the lower
    one is the smaller, 0 otherwise. *)
Theorem less_than_compares (DATA_SIZE : Z) (s : state) (a b : Z)
  (fuel : nat) :
  cold s -> is_cell a -> is_cell b -> is_cell (a - b) ->
  (100 <= fuel)%nat ->
  exists s1 s2,
    init_interpreter DATA_SIZE Sample.fuel s = Ok tt s1
    /\ (zf_push a ;; zf_push b ;;
        zf_eval DATA_SIZE fuel (Literal (str "<"))) s1 = Ok ZF_OK s2
    /\ dstack_top s2 [bool_cell (a <? b)]
    /\ dsp s2 = 1
    /\ dict s2 = dict s1.
Proof.
  intros Hs Ha Hb Hab Hf.
  assert (E : bool_cell (a <? b) = bool_cell (s32 (a - b) <? 0)).
  { rewrite s32_cell by exact Hab. f_equal.
    destruct (Z.ltb_spec a b), (Z.ltb_spec (a - b) 0); reflexivity || lia. }
  rewrite E. clear E Ha Hb Hab.
  assert (exists f, fuel = (100 + f)%nat) as [f ->]
    by (exists (fuel - 100)%nat; lia).
  clear Hf.
  exists (with_vm Sample.started s).
  set (s1 := with_vm Sample.started s).
  assert (R : match (zf_push a ;; zf_push b ;;
                     zf_eval DATA_SIZE (100 + f) (Literal (str "<"))) s1 with
              | Ok ZF_OK s2 =>
                  dstack_top s2 [bool_cell (s32 (a - b) <? 0)]
                  /\ dsp s2 = 1 /\ dict s2 = dict s1
              | _ => False
              end).
  { do 2 vstep. unfold zf_eval.
    change (100 + f)%nat with (length (str "<") + S (98 + f))%nat at 1.
    rewrite (token_loop DATA_SIZE (98 + f) (str "<") []);
      [|repeat constructor; discriminate|vm_compute; discriminate
       |vm_compute; lia|vm_compute; discriminate].
    match goal with |- context [handle_word _ _ ?t ?st] =>
      let t' := eval vm_compute in t in
      let st' := eval vm_compute in st in
      change (handle_word DATA_SIZE (98 + f) t st)
        with (handle_word DATA_SIZE (S (S (96 + f))) t' st')
    end.
    unfold handle_word.
    vstep. vcond.
    vstep. cbv beta iota. vstep. cbv zeta. do 2 vstep. vcond.
    unfold execute. do 3 vstep.
    rewrite run_S. vstep. vcond. vstep. cbv zeta. vstep. vcond.
    match goal with |- context [do_prim _ _ ?c _] =>
      change c with (prim_code PRIM_SUB) end.
    rewrite do_prim_SUB. do 2 vstep.
    generalize (s32 (a - b)). intros v.
    vm_compute. repeat split; try reflexivity; discriminate. }
  destruct ((zf_push a ;; zf_push b ;;
             zf_eval DATA_SIZE (100 + f) (Literal (str "<"))) s1)
    as [[] s2| | |]; try contradiction.
  exists s2. split; [now apply init_interpreter_cold|].
  split; [reflexivity|exact R].
Qed.

(** * The properties on the sample platform *)

Section SamplePlatform.

Import Sample.

(** Close a goal between constants by evaluation. *)
Ltac evaluated :=
  vm_compute; repeat split; first [reflexivity | discriminate].

Lemma sample_tags :
  tags_ok PING READ WRITE SENSORS LOAD EXEC RETR ACK ERR.
Proof.
  split.
  - repeat constructor; cbn [In]; intuition discriminate.
  - repeat constructor; evaluated.
Qed.

Lemma bootstrapped_is_bootstrap :
  (zf_init 0 ;; zf_bootstrap) (power_on ramp) = Ok tt bootstrapped.
Proof. vm_compute. reflexivity. Qed.

Lemma started_is_init :
  init_interpreter DATA_SIZE fuel (power_on ramp) = Ok tt started.
Proof. vm_compute. reflexivity. Qed.

Lemma parse_send_packet_witness :
  packet_wf DATA_SIZE some_packet /\
  (let Q := parse_packet DATA_SIZE (send_packet DATA_SIZE some_packet) in
   send_packet DATA_SIZE some_packet
   = [command some_packet] ++ [pic some_packet]
     ++ le_bytes 4 (options some_packet) ++ uid some_packet
     ++ data some_packet ++ le_bytes 2 (checksum some_packet) /\
   command Q = command some_packet /\ pic Q = pic some_packet /\
   options Q = options some_packet /\ uid Q = uid some_packet /\
   data Q = data some_packet).
Proof.
  assert (H : packet_wf DATA_SIZE some_packet) by evaluated.
  split; [exact H|].
  exact (parse_send_packet DATA_SIZE some_packet H).
Defined.

Lemma cell_roundtrip_witness :
  dict_sized bootstrapped /\ is_cell (-300) /\
  exists s',
    dict_put_cell_typed 1000 (-300) ZF_MEM_SIZE_S8 bootstrapped
    = Ok (stored_bytes ZF_MEM_SIZE_S8 (-300)) s' /\
    dict_get_cell_typed 1000 ZF_MEM_SIZE_S8 s'
    = Ok (truncated ZF_MEM_SIZE_S8 (-300), stored_bytes ZF_MEM_SIZE_S8 (-300))
         s'.
Proof.
  assert (H1 : dict_sized bootstrapped) by reflexivity.
  assert (H2 : is_cell (-300)) by evaluated.
  split; [exact H1|]. split; [exact H2|].
  apply (cell_roundtrip bootstrapped 1000 (-300) ZF_MEM_SIZE_S8 H1 H2);
    evaluated.
Defined.

Lemma no_boundary_abort_witness :
  zf_eval DATA_SIZE fuel (Literal (str "1 0 /")) bootstrapped
  = Ok ZF_ABORT_DIVISION_BY_ZERO
      (state_of (zf_eval DATA_SIZE fuel (Literal (str "1 0 /")) bootstrapped)
         bootstrapped) /\
  ~ In ZF_ABORT_DIVISION_BY_ZERO boundary_reasons.
Proof.
  assert (H : zf_eval DATA_SIZE fuel (Literal (str "1 0 /")) bootstrapped
              = Ok ZF_ABORT_DIVISION_BY_ZERO
                  (state_of (zf_eval DATA_SIZE fuel (Literal (str "1 0 /"))
                               bootstrapped) bootstrapped))
    by (vm_compute; reflexivity).
  split; [exact H|].
  exact (proj1 (proj2 (proj2 (no_boundary_abort DATA_SIZE fuel _ _ _ _ H)))).
Defined.

Lemma abort_returns_to_eval_witness :
  let buf := Literal (str "1 0 /") in
  let s1 := abort_state (zf_eval_loop DATA_SIZE fuel buf 0 bootstrapped)
              bootstrapped in
  dict_sized bootstrapped /\
  zf_eval_loop DATA_SIZE fuel buf 0 bootstrapped
  = Abort ZF_ABORT_DIVISION_BY_ZERO s1 /\
  zf_eval DATA_SIZE fuel buf bootstrapped
  = Ok ZF_ABORT_DIVISION_BY_ZERO (unwound s1) /\
  COMPILING (unwound s1) = 0 /\ dsp (unwound s1) = 0 /\ rsp (unwound s1) = 0.
Proof.
  intros buf s1.
  assert (H1 : dict_sized bootstrapped) by reflexivity.
  assert (H2 : zf_eval_loop DATA_SIZE fuel buf 0 bootstrapped
               = Abort ZF_ABORT_DIVISION_BY_ZERO s1)
    by (vm_compute; reflexivity).
  split; [exact H1|]. split; [exact H2|].
  destruct (abort_returns_to_eval DATA_SIZE fuel buf bootstrapped s1
              ZF_ABORT_DIVISION_BY_ZERO H1 H2) as (E & C & D & R & _).
  auto.
Defined.

Lemma uservar_peek_poke_witness :
  let s := with_stack [77; 3; 99] in
  dict_sized s /\ 0 <= 3 < ZF_USERVAR_COUNT /\
  dstack_top s [99; 3; 77] /\
  do_prim DATA_SIZE fuel (prim_code PRIM_POKE) None s
  = Ok tt (set_uservar 3 77 (set_dsp (dsp s - 3) s)) /\
  uservar 3 (set_uservar 3 77 (set_dsp (dsp s - 3) s)) = u32 77.
Proof.
  intros s.
  assert (H1 : dict_sized s) by reflexivity.
  assert (H2 : 0 <= 3 < ZF_USERVAR_COUNT) by evaluated.
  assert (H3 : dstack_top s [99; 3; 77]) by evaluated.
  split; [exact H1|]. split; [exact H2|]. split; [exact H3|].
  destruct (uservar_peek_poke DATA_SIZE fuel None s 3 99 77 [] H1 H2)
    as (_ & _ & _ & Hpoke).
  destruct (Hpoke H3) as (E & U & _). auto.
Defined.

Lemma emit_and_exec_reset_witness :
  let s := with_stack [42] in
  dstack_top s [42] /\
  Z.of_nat (length exec_reset) = PACKET_SIZE DATA_SIZE /\
  intact DATA_SIZE crc16_byte exec_reset /\
  (exists s',
     do_prim DATA_SIZE fuel (prim_code PRIM_EMIT) None s = Ok tt s' /\
     dstack_top s' [] /\ dsp s' = dsp s - 1 /\
     sram s' = overwrite (sram s)
                 (Z.to_nat (WRITE_BUF DATA_SIZE + 4 * write_pos s))
                 (le_bytes 4 42) /\
     write_pos s'
     = (if write_pos s + 1 =? DATA_SIZE then 0 else write_pos s + 1)) /\
  write_pos (set_write_pos 0 (arrived DATA_SIZE crc16_byte exec_reset
                                bootstrapped)) = 0.
Proof.
  intros s.
  assert (H0 : 0 <= DATA_SIZE) by evaluated.
  assert (H1 : dstack_top s [42]) by evaluated.
  assert (H2 : 0 <= write_pos s < 2 ^ 32 - 1) by evaluated.
  assert (H3 : 0 <= WRITE_BUF DATA_SIZE + 4 * write_pos s) by evaluated.
  assert (H4 : WRITE_BUF DATA_SIZE + 4 * write_pos s + 4
               <= Z.of_nat (length (sram s))) by evaluated.
  assert (H5 : Z.of_nat (length exec_reset) = PACKET_SIZE DATA_SIZE)
    by reflexivity.
  assert (H6 : 0 <= bytes_rx bootstrapped) by evaluated.
  assert (H7 : intact DATA_SIZE crc16_byte exec_reset)
    by (vm_compute; reflexivity).
  assert (H8 : command (parse_packet DATA_SIZE exec_reset) = EXEC)
    by reflexivity.
  assert (H9 : uid (parse_packet DATA_SIZE exec_reset) = UID)
    by reflexivity.
  assert (H10 : options (parse_packet DATA_SIZE exec_reset) = 1)
    by reflexivity.
  split; [exact H1|]. split; [exact H5|]. split; [exact H7|].
  pose proof (emit_and_exec_reset DATA_SIZE crc16_byte PING READ WRITE
                SENSORS LOAD EXEC RETR ACK ERR OWN ALL TEMP VDD g_pfnVectors0
                vdd_cal temp30_cal temp110_cal chip_id sample_tags H0
                fuel None s 42 [] exec_reset bootstrapped
                H1 H2 H3 H4 H5 H6 H7 H8 H9 H10) as (Hemit & _ & Hwp).
  split; [exact Hemit|exact Hwp].
Defined.

Lemma foreign_packet_goes_down_witness :
  let s := power_on ramp in
  let p := parse_packet DATA_SIZE read_for_other in
  intact DATA_SIZE crc16_byte read_for_other /\
  In (command p) [READ; WRITE; SENSORS; LOAD; EXEC; RETR] /\
  uid p <> UID /\
  exists s',
    serve read_for_other s = Ok tt s' /\
    trace s'
    = trace s ++ [Transmit huart3
                    (send_packet DATA_SIZE
                       (sealed DATA_SIZE crc16_byte (hop p)));
                  RESET_DOWNWARDS; RESET_UPWARDS] /\
    data (sealed DATA_SIZE crc16_byte (hop p)) = data p /\
    untouched s s'.
Proof.
  intros s p.
  assert (H0 : 0 <= DATA_SIZE) by evaluated.
  assert (H1 : Z.of_nat (length read_for_other) = PACKET_SIZE DATA_SIZE)
    by reflexivity.
  assert (H2 : 0 <= bytes_rx s) by evaluated.
  assert (H3 : intact DATA_SIZE crc16_byte read_for_other)
    by (vm_compute; reflexivity).
  assert (H4 : In (command p) [READ; WRITE; SENSORS; LOAD; EXEC; RETR])
    by (left; reflexivity).
  assert (H5 : uid p <> UID) by (vm_compute; discriminate).
  split; [exact H3|]. split; [exact H4|]. split; [exact H5|].
  exact (foreign_packet_goes_down DATA_SIZE crc16_byte PING READ WRITE
           SENSORS LOAD EXEC RETR ACK ERR OWN ALL TEMP VDD g_pfnVectors0
           vdd_cal temp30_cal temp110_cal chip_id sample_tags H0
           fuel read_for_other s H1 H2 H3 H4 H5).
Defined.

Lemma ping_all_answers_and_forwards_witness :
  let s := power_on ramp in
  intact DATA_SIZE crc16_byte ping_all /\
  command (parse_packet DATA_SIZE ping_all) = PING /\
  options (parse_packet DATA_SIZE ping_all) = ALL /\ OWN <> ALL /\
  exists s' ack fwd,
    serve ping_all s = Ok tt s' /\
    trace s'
    = trace s ++ [Transmit huart1 (send_packet DATA_SIZE ack);
                  RESET_UPWARDS;
                  Transmit huart3 (send_packet DATA_SIZE fwd);
                  RESET_DOWNWARDS] /\
    command ack = ACK /\ uid ack = UID /\
    options ack = u32 (u32 g_pfnVectors0 - SRAM_ADDRESS) /\
    command fwd = PING /\ options fwd = ALL.
Proof.
  intros s.
  assert (H0 : 0 <= DATA_SIZE) by evaluated.
  assert (H1 : Z.of_nat (length ping_all) = PACKET_SIZE DATA_SIZE)
    by reflexivity.
  assert (H2 : 0 <= bytes_rx s) by evaluated.
  assert (H3 : intact DATA_SIZE crc16_byte ping_all)
    by (vm_compute; reflexivity).
  assert (H4 : command (parse_packet DATA_SIZE ping_all) = PING)
    by reflexivity.
  assert (H5 : options (parse_packet DATA_SIZE ping_all) = ALL)
    by reflexivity.
  assert (H6 : OWN <> ALL) by discriminate.
  split; [exact H3|]. split; [exact H4|]. split; [exact H5|].
  split; [exact H6|].
  exact (ping_all_answers_and_forwards DATA_SIZE crc16_byte PING READ WRITE
           SENSORS LOAD EXEC RETR ACK ERR OWN ALL TEMP VDD g_pfnVectors0
           vdd_cal temp30_cal temp110_cal chip_id sample_tags H0
           fuel ping_all s H1 H2 H3 H4 H5 H6).
Defined.

(** C1.  The SENSORS request with a byte changed on the way fails the
    checksum test, and the node sends its ERR packet (options 1) on the
    up-link twice: once from the branch of the test, once more from the
    ERR label of the switch the branch runs into. *)
Theorem damaged_frame_gets_two_replies :
  exists s' err,
    serve damaged (power_on ramp) = Ok tt s' /\
    command err = ERR /\ options err = 1 /\
    trace s' = [Transmit huart1 (send_packet DATA_SIZE err); RESET_UPWARDS;
                Transmit huart1 (send_packet DATA_SIZE err); RESET_UPWARDS].
Proof.
  assert (H0 : 0 <= DATA_SIZE) by evaluated.
  assert (H1 : Z.of_nat (length damaged) = PACKET_SIZE DATA_SIZE)
    by reflexivity.
  assert (H2 : 0 <= bytes_rx (power_on ramp)) by evaluated.
  assert (H3 : ~ intact DATA_SIZE crc16_byte damaged)
    by (vm_compute; discriminate).
  destruct (corrupt_frame_answered_twice DATA_SIZE crc16_byte PING READ
              WRITE SENSORS LOAD EXEC RETR ACK ERR OWN ALL TEMP VDD
              g_pfnVectors0 vdd_cal temp30_cal temp110_cal chip_id
              sample_tags H0 fuel damaged (power_on ramp) H1 H2 H3)
    as (s' & err & E & C & O & T & _).
  exists s', err. auto.
Qed.

(** C2.  RETR with the block index 1 for this node: the payload of the ACK
    holds the bytes that lie [4 * DATA_SIZE] bytes after the start of the
    write buffer, which are not the bytes [DATA_SIZE] bytes after it. *)
Theorem retr_block_1_is_read_four_blocks_on :
  exists s' ack,
    serve retr_block_1 (power_on ramp) = Ok tt s' /\
    trace s' = [Transmit huart1 (send_packet DATA_SIZE ack); RESET_UPWARDS] /\
    command ack = ACK /\
    slice ramp (WRITE_BUF DATA_SIZE + 4 * DATA_SIZE) DATA_SIZE
    = Some (data ack) /\
    slice ramp (WRITE_BUF DATA_SIZE + DATA_SIZE) DATA_SIZE
    <> Some (data ack).
Proof.
  assert (H0 : 0 <= DATA_SIZE) by evaluated.
  assert (H1 : Z.of_nat (length retr_block_1) = PACKET_SIZE DATA_SIZE)
    by reflexivity.
  assert (H2 : 0 <= bytes_rx (power_on ramp)) by evaluated.
  assert (H3 : intact DATA_SIZE crc16_byte retr_block_1)
    by (vm_compute; reflexivity).
  assert (H4 : command (parse_packet DATA_SIZE retr_block_1) = RETR)
    by reflexivity.
  assert (H5 : uid (parse_packet DATA_SIZE retr_block_1) = UID)
    by reflexivity.
  assert (H6 : u32 (WRITE_BUF DATA_SIZE
                    + 4 * u32 (DATA_SIZE
                               * options (parse_packet DATA_SIZE
                                            retr_block_1)))
               + DATA_SIZE <= Z.of_nat (length (sram (power_on ramp))))
    by evaluated.
  destruct (retr_reads_scaled_offset DATA_SIZE crc16_byte PING READ
              WRITE SENSORS LOAD EXEC RETR ACK ERR OWN ALL TEMP VDD
              g_pfnVectors0 vdd_cal temp30_cal temp110_cal chip_id
              sample_tags H0 fuel retr_block_1 (power_on ramp)
              H1 H2 H3 H4 H5 H6)
    as (s' & ack & E & T & C & D).
  exists s', ack. split; [exact E|]. split; [exact T|]. split; [exact C|].
  rewrite D. split; vm_compute; [reflexivity|discriminate].
Qed.

(** The scenario of the spec: a division by zero, then a program that
    defines a word and prints 42; the interpreter has recovered and the
    first cell of the write buffer holds 42. *)
Example division_by_zero_then_recovery :
  exists s1 s2,
    zf_eval DATA_SIZE fuel (Literal (str "1 0 /")) started
    = Ok ZF_ABORT_DIVISION_BY_ZERO s1 /\
    zf_eval DATA_SIZE fuel (Literal (str ": inc 1 + ; 41 inc . ")) s1
    = Ok ZF_OK s2 /\
    slice (sram s2) (WRITE_BUF DATA_SIZE) 4 = Some (le_bytes 4 42) /\
    write_pos s2 = 1.
Proof.
  eexists. eexists.
  split; [vm_compute; reflexivity|].
  split; [vm_compute; reflexivity|].
  split; vm_compute; reflexivity.
Qed.

(** A word that pops from the empty stack: no result comes back, the
    access leaves the array. *)
Example drop_on_empty_stack :
  zf_eval DATA_SIZE fuel (Literal (str "drop")) started = Undefined.
Proof. vm_compute. reflexivity. Qed.

(** The scenario of the spec: the controller loads a program, has it run
    with the option 1 and retrieves the block 0; the ACK of EXEC carries
    ZF_OK and the first cell of the retrieved block is 42. *)
Example load_exec_retr :
  exists s1 s2 s3 ack_exec ack_retr,
    serve load_program started = Ok tt s1 /\
    serve exec_reset s1 = Ok tt s2 /\
    serve retr_block_0 s2 = Ok tt s3 /\
    nth 4 (trace s3) RESET_UPWARDS
    = Transmit huart1 (send_packet DATA_SIZE ack_retr) /\
    nth 2 (trace s3) RESET_UPWARDS
    = Transmit huart1 (send_packet DATA_SIZE ack_exec) /\
    command ack_exec = ACK /\ options ack_exec = zf_result_code ZF_OK /\
    command ack_retr = ACK /\ firstn 4 (data ack_retr) = le_bytes 4 42.
Proof.
  exists (state_of (serve load_program started) started).
  exists (state_of ((serve load_program ;; serve exec_reset) started)
            started).
  exists (state_of ((serve load_program ;; serve exec_reset ;;
                     serve retr_block_0) started) started).
  exists (parse_packet DATA_SIZE
            (match nth 2 (trace (state_of
                                   ((serve load_program ;; serve exec_reset)
                                      started) started)) RESET_UPWARDS with
             | Transmit _ bytes => bytes
             | _ => []
             end)).
  exists (parse_packet DATA_SIZE
            (match nth 4 (trace (state_of
                                   ((serve load_program ;; serve exec_reset ;;
                                     serve retr_block_0) started) started))
                     RESET_UPWARDS with
             | Transmit _ bytes => bytes
             | _ => []
             end)).
  vm_compute. repeat split; reflexivity.
Qed.

End SamplePlatform.

(** * Further properties on the sample platform *)

Section SamplePlatformMore.

Import Sample.
Import Bench.

(** Close a goal between constants by evaluation. *)
Ltac evaluated :=
  vm_compute; repeat split; first [reflexivity | discriminate].

Ltac frame_taken :=
  split; [reflexivity|split; [evaluated|vm_compute; reflexivity]].

Lemma sample_data_size : 0 <= DATA_SIZE.
Proof. evaluated. Qed.

Lemma send_parse_packet_witness :
  Z.of_nat (length read_for_other) = PACKET_SIZE DATA_SIZE /\
  Forall is_byte read_for_other /\
  send_packet DATA_SIZE (parse_packet DATA_SIZE read_for_other)
  = read_for_other.
Proof.
  assert (H1 : Z.of_nat (length read_for_other) = PACKET_SIZE DATA_SIZE)
    by reflexivity.
  assert (H2 : Forall is_byte read_for_other)
    by (repeat constructor; evaluated).
  split; [exact H1|]. split; [exact H2|].
  exact (send_parse_packet DATA_SIZE sample_data_size read_for_other H1 H2).
Defined.


Lemma read_answers_with_block_witness :
  let s := power_on ramp in
  let p := parse_packet DATA_SIZE read_block_3 in
  taken DATA_SIZE crc16_byte read_block_3 s /\
  command p = READ /\ uid p = UID /\
  u16 (options p) * DATA_SIZE + DATA_SIZE <= Z.of_nat (length (sram s)) /\
  exists s' ack,
    serve read_block_3 s = Ok tt s' /\
    trace s'
    = trace s ++ [Transmit huart1 (send_packet DATA_SIZE ack);
                  RESET_UPWARDS] /\
    command ack = ACK /\
    data ack = sub (sram s) (Z.to_nat (3 * DATA_SIZE)) (Z.to_nat DATA_SIZE).
Proof.
  intros s p.
  assert (H1 : taken DATA_SIZE crc16_byte read_block_3 s) by frame_taken.
  assert (H2 : command p = READ) by reflexivity.
  assert (H3 : uid p = UID) by reflexivity.
  assert (H4 : u16 (options p) * DATA_SIZE + DATA_SIZE
               <= Z.of_nat (length (sram s))) by evaluated.
  split; [exact H1|]. split; [exact H2|]. split; [exact H3|].
  split; [exact H4|].
  destruct (read_answers_with_block DATA_SIZE crc16_byte PING READ WRITE
              SENSORS LOAD EXEC RETR ACK ERR OWN ALL TEMP VDD g_pfnVectors0
              vdd_cal temp30_cal temp110_cal chip_id sample_tags
              sample_data_size fuel read_block_3 s H1 H2 H3 H4)
    as (s' & ack & E & T & C & _ & _ & _ & D & _).
  exists s', ack. split; [exact E|]. split; [exact T|].
  split; [exact C|exact D].
Defined.



Lemma sensors_reports_words_witness :
  let s := power_on ramp in
  let p := parse_packet DATA_SIZE sensors_all in
  taken DATA_SIZE crc16_byte sensors_all s /\
  command p = SENSORS /\ uid p = UID /\
  NoDup [ALL; TEMP; VDD] /\ 10 <= DATA_SIZE /\
  exists s' ack,
    serve sensors_all s = Ok tt s' /\
    command ack = ACK /\
    data ack
    = le_bytes 2 temp110_cal ++ le_bytes 2 temp30_cal
      ++ le_bytes 2 (fst (sensors s)) ++ le_bytes 2 vdd_cal
      ++ le_bytes 2 (snd (sensors s)) ++ skipn 10 (data p).
Proof.
  intros s p.
  assert (H1 : taken DATA_SIZE crc16_byte sensors_all s) by frame_taken.
  assert (H2 : command p = SENSORS) by reflexivity.
  assert (H3 : uid p = UID) by reflexivity.
  assert (H4 : NoDup [ALL; TEMP; VDD])
    by (repeat constructor; cbn [In]; intuition discriminate).
  assert (H5 : 10 <= DATA_SIZE) by evaluated.
  repeat (split; [assumption|]).
  destruct (sensors_reports_words DATA_SIZE crc16_byte PING READ WRITE
              SENSORS LOAD EXEC RETR ACK ERR OWN ALL TEMP VDD g_pfnVectors0
              vdd_cal temp30_cal temp110_cal chip_id sample_tags
              sample_data_size fuel sensors_all s H1 H2 H3 H4 H5)
    as (s' & ack & E & _ & C & _ & A & _).
  exists s', ack. split; [exact E|]. split; [exact C|].
  apply A. reflexivity.
Defined.


Lemma ping_own_probe_witness :
  let s := power_on ramp in
  let p := parse_packet DATA_SIZE ping_own in
  taken DATA_SIZE crc16_byte ping_own s /\
  command p = PING /\ options p = OWN /\ uid p = UID /\
  exists s' ack,
    serve ping_own s = Ok tt s' /\
    trace s'
    = trace s ++ [Transmit huart1 (send_packet DATA_SIZE ack);
                  RESET_UPWARDS] /\
    command ack = ACK /\
    options ack = u32 (u32 g_pfnVectors0 - SRAM_ADDRESS).
Proof.
  intros s p.
  assert (H1 : taken DATA_SIZE crc16_byte ping_own s) by frame_taken.
  assert (H2 : command p = PING) by reflexivity.
  assert (H3 : options p = OWN) by reflexivity.
  assert (H4 : uid p = UID) by reflexivity.
  repeat (split; [assumption|]).
  destruct (ping_own_probe DATA_SIZE crc16_byte PING READ WRITE
              SENSORS LOAD EXEC RETR ACK ERR OWN ALL TEMP VDD g_pfnVectors0
              vdd_cal temp30_cal temp110_cal chip_id sample_tags
              sample_data_size fuel ping_own s H1 H2 H3)
    as (s' & E & _ & L & _).
  destruct (L H4) as (ack & T & C & O & _).
  exists s', ack. split; [exact E|]. split; [exact T|].
  split; [exact C|exact O].
Defined.

Lemma ping_without_selector_is_dropped_witness :
  let s := power_on ramp in
  let p := parse_packet DATA_SIZE ping_nothing in
  taken DATA_SIZE crc16_byte ping_nothing s /\
  command p = PING /\ options p <> OWN /\ options p <> ALL /\
  exists s',
    serve ping_nothing s = Ok tt s' /\ trace s' = trace s /\
    bytes_rx s' = 0.
Proof.
  intros s p.
  assert (H1 : taken DATA_SIZE crc16_byte ping_nothing s) by frame_taken.
  assert (H2 : command p = PING) by reflexivity.
  assert (H3 : options p <> OWN) by (vm_compute; discriminate).
  assert (H4 : options p <> ALL) by (vm_compute; discriminate).
  repeat (split; [assumption|]).
  destruct (ping_without_selector_is_dropped DATA_SIZE crc16_byte PING READ
              WRITE SENSORS LOAD EXEC RETR ACK ERR OWN ALL TEMP VDD
              g_pfnVectors0 vdd_cal temp30_cal temp110_cal chip_id
              sample_data_size fuel ping_nothing s H1 H2 H3 H4)
    as (s' & E & T & _ & B & _).
  exists s'. split; [exact E|]. split; [exact T|exact B].
Defined.

Lemma other_tags_are_sent_back_witness :
  let s := power_on ramp in
  let p := parse_packet DATA_SIZE unknown_tag in
  taken DATA_SIZE crc16_byte unknown_tag s /\
  ~ In (command p) [PING; READ; WRITE; SENSORS; LOAD; EXEC; RETR] /\
  exists s' back,
    serve unknown_tag s = Ok tt s' /\
    trace s'
    = trace s ++ [Transmit huart1 (send_packet DATA_SIZE back);
                  RESET_UPWARDS] /\
    command back = 77 /\ pic back = 1 /\ data back = payload.
Proof.
  intros s p.
  assert (H1 : taken DATA_SIZE crc16_byte unknown_tag s) by frame_taken.
  assert (H2 : ~ In (command p)
                 [PING; READ; WRITE; SENSORS; LOAD; EXEC; RETR])
    by (vm_compute; intuition discriminate).
  repeat (split; [assumption|]).
  destruct (other_tags_are_sent_back DATA_SIZE crc16_byte PING READ
              WRITE SENSORS LOAD EXEC RETR ACK ERR OWN ALL TEMP VDD
              g_pfnVectors0 vdd_cal temp30_cal temp110_cal chip_id
              sample_data_size fuel unknown_tag s H1 H2)
    as (s' & back & E & T & C & P & _ & _ & D & _).
  exists s', back. split; [exact E|]. split; [exact T|].
  split; [exact C|]. split; [exact P|exact D].
Defined.


Lemma downlink_is_passed_up_witness :
  let s := power_on ramp in
  bytes_rx s < PACKET_SIZE DATA_SIZE /\
  (HAL_UART_RxCpltCallback DATA_SIZE huart3 (PACKET_SIZE DATA_SIZE)
     read_for_other ;;
   main_loop DATA_SIZE crc16_byte PING READ WRITE SENSORS LOAD EXEC RETR ACK
     ERR OWN ALL TEMP VDD g_pfnVectors0 vdd_cal temp30_cal temp110_cal
     chip_id fuel) s
  = Ok tt (logged [Transmit huart1 read_for_other; RESET_DOWNWARDS] s).
Proof.
  intros s.
  assert (H : bytes_rx s < PACKET_SIZE DATA_SIZE) by evaluated.
  split; [exact H|].
  exact (proj1 (downlink_is_passed_up DATA_SIZE crc16_byte PING READ WRITE
                  SENSORS LOAD EXEC RETR ACK ERR OWN ALL TEMP VDD
                  g_pfnVectors0 vdd_cal temp30_cal temp110_cal chip_id
                  fuel (PACKET_SIZE DATA_SIZE) read_for_other s H)).
Defined.

Lemma dict_add_cell_appends_witness :
  let s := bootstrapped in
  dict_sized s /\ is_cell 70000 /\ ZF_USERVAR_END <= HERE s /\
  HERE s + 5 <= ZF_DICT_SIZE /\
  exists s',
    dict_add_cell 70000 s = Ok tt s' /\ HERE s' = HERE s + 5 /\
    dict_get_cell (HERE s) s' = Ok (70000, 5) s'.
Proof.
  intros s.
  assert (H1 : dict_sized s) by reflexivity.
  assert (H2 : is_cell 70000) by evaluated.
  assert (H3 : ZF_USERVAR_END <= HERE s) by evaluated.
  assert (H4 : HERE s + 5 <= ZF_DICT_SIZE) by evaluated.
  repeat (split; [assumption|]).
  destruct (dict_add_cell_appends 70000 s H1 H2 H3 H4)
    as (s' & E & A & G & _).
  exists s'. split; [exact E|]. split; [exact A|exact G].
Defined.

Lemma created_word_is_found_witness :
  let s := bootstrapped in
  let name := str "blink" in
  dict_sized s /\ ZF_USERVAR_END <= HERE s /\
  (0 < length name < 32)%nat /\ 0 <= 0 < 2 ^ 31 /\ Z.land 0 31 = 0 /\
  HERE s + 10 + Z.of_nat (length name) <= ZF_DICT_SIZE /\
  exists s',
    create name 0 s = Ok tt s' /\ LATEST s' = HERE s /\
    find_word (S fuel) name s' = Ok (Some (HERE s, HERE s')) s'.
Proof.
  intros s name.
  assert (H1 : dict_sized s) by reflexivity.
  assert (H2 : ZF_USERVAR_END <= HERE s) by evaluated.
  assert (H3 : (0 < length name < 32)%nat) by (cbn; lia).
  assert (H4 : 0 <= 0 < 2 ^ 31) by evaluated.
  assert (H5 : Z.land 0 31 = 0) by reflexivity.
  assert (H6 : HERE s + 10 + Z.of_nat (length name) <= ZF_DICT_SIZE)
    by evaluated.
  repeat (split; [assumption|]).
  destruct (created_word_is_found fuel name 0 s H1 H2 H3 H4 H5 H6)
    as (s' & E & L & _ & F & _).
  exists s'. split; [exact E|]. split; [exact L|exact F].
Defined.

Lemma make_immediate_sets_flag_witness :
  let s := bootstrapped in
  dict_sized s /\ ZF_USERVAR_END <= LATEST s /\
  LATEST s + 2 <= ZF_DICT_SIZE /\ 0 <= 9 < 128 /\
  holds s (LATEST s) [9] /\
  exists s',
    make_immediate s = Ok tt s' /\
    dict_get_cell (LATEST s) s' = Ok (Z.lor 9 ZF_FLAG_IMMEDIATE, 1) s' /\
    ZF_FLAG_LEN (Z.lor 9 ZF_FLAG_IMMEDIATE) = 9.
Proof.
  intros s.
  assert (H1 : dict_sized s) by reflexivity.
  assert (H2 : ZF_USERVAR_END <= LATEST s) by evaluated.
  assert (H3 : LATEST s + 2 <= ZF_DICT_SIZE) by evaluated.
  assert (H4 : 0 <= 9 < 128) by evaluated.
  assert (H5 : holds s (LATEST s) [9]) by (vm_compute; reflexivity).
  repeat (split; [assumption|]).
  destruct (make_immediate_sets_flag 9 s H1 H2 H3 H4 H5)
    as (s' & E & G & L & _).
  exists s'. split; [exact E|]. split; [exact G|exact L].
Defined.

Lemma zf_init_resets_witness :
  let s := started in
  dict_sized s /\
  exists s',
    zf_init 1 s = Ok tt s' /\ HERE s' = ZF_USERVAR_END /\ LATEST s' = 0 /\
    find_word (S fuel) (str "dup") s' = Ok None s'.
Proof.
  intros s.
  assert (H : dict_sized s) by reflexivity.
  split; [exact H|].
  destruct (zf_init_resets 1 fuel (str "dup") s H)
    as (s' & E & A & L & _ & _ & _ & _ & F & _).
  exists s'. split; [exact E|]. split; [exact A|]. split; [exact L|exact F].
Defined.

Lemma uservar_set_get_witness :
  let s := started in
  dict_sized s /\ 0 <= ZF_USERVAR_TRACE /\
  exists s',
    zf_uservar_set ZF_USERVAR_TRACE 1 s = Ok ZF_OK s' /\
    zf_uservar_get ZF_USERVAR_TRACE true s' = Ok (ZF_OK, Some (s32 1)) s'.
Proof.
  intros s.
  assert (H1 : dict_sized s) by reflexivity.
  assert (H2 : 0 <= ZF_USERVAR_TRACE) by evaluated.
  split; [exact H1|]. split; [exact H2|].
  destruct (uservar_set_get ZF_USERVAR_TRACE 1 true s H1 H2) as (A & _).
  destruct A as (s' & E & G & _); [reflexivity|].
  exists s'. split; [exact E|exact G].
Defined.

Lemma push_pop_roundtrip_witness :
  let s := with_stack [1; 2] in
  dstack_top s [2; 1] /\
  exists s1,
    zf_push 5 s = Ok tt s1 /\ dstack_top s1 [5; 2; 1] /\
    zf_pop s1 = Ok 5 (set_dsp (dsp s) s1).
Proof.
  intros s.
  assert (H : dstack_top s [2; 1]) by evaluated.
  split; [exact H|].
  destruct (push_pop_roundtrip 5 [2; 1] s H) as (A & _).
  destruct A as (s1 & E & _ & T & _ & P & _); [reflexivity|].
  exists s1. split; [exact E|]. split; [exact T|exact P].
Defined.

Lemma to_return_stack_and_back_witness :
  let s := with_stack [7; 8] in
  dstack_top s [8; 7] /\ rstack_top s [] /\ rsp s < ZF_RSTACK_SIZE /\
  exists s1 s2,
    do_prim DATA_SIZE fuel (prim_code PRIM_PUSHR) None s = Ok tt s1 /\
    rstack_top s1 [8] /\
    do_prim DATA_SIZE fuel (prim_code PRIM_POPR) None s1 = Ok tt s2 /\
    dstack_top s2 [8; 7].
Proof.
  intros s.
  assert (H1 : dstack_top s [8; 7]) by evaluated.
  assert (H2 : rstack_top s []) by evaluated.
  assert (H3 : rsp s < ZF_RSTACK_SIZE) by reflexivity.
  repeat (split; [assumption|]).
  destruct (to_return_stack_and_back DATA_SIZE fuel None 8 [7] [] s
              H1 H2 H3)
    as (s1 & s2 & E1 & _ & R & _ & _ & E2 & T & _).
  exists s1, s2. split; [exact E1|]. split; [exact R|].
  split; [exact E2|exact T].
Defined.

Lemma arithmetic_primitives_witness :
  let s := with_stack [7; 3] in
  is_cell (7 - 3) /\ dstack_top s [3; 7] /\
  exists s',
    do_prim DATA_SIZE fuel (prim_code PRIM_SUB) None s = Ok tt s' /\
    dstack_top s' [4].
Proof.
  intros s.
  assert (H1 : is_cell (7 - 3)) by evaluated.
  assert (H2 : dstack_top s [3; 7]) by evaluated.
  split; [exact H1|]. split; [exact H2|].
  destruct (arithmetic_primitives DATA_SIZE fuel None 7 3 s)
    as (_ & S & _).
  destruct (S H1 [] H2) as (s' & E & T & _).
  exists s'. split; [exact E|exact T].
Defined.

Lemma stack_shuffles_witness :
  let s := with_stack [1; 2; 3] in
  dstack_top s [3; 2; 1] /\
  exists s',
    do_prim DATA_SIZE fuel (prim_code PRIM_ROT) None s = Ok tt s' /\
    dstack_top s' [1; 3; 2].
Proof.
  intros s.
  assert (H : dstack_top s [3; 2; 1]) by evaluated.
  split; [exact H|].
  destruct (stack_shuffles DATA_SIZE fuel None 1 2 3 0 [] s)
    as (_ & _ & _ & R & _).
  destruct (R [] H) as (s' & E & T & _).
  exists s'. split; [exact E|exact T].
Defined.


Lemma invalid_size_aborts_witness :
  let s := with_stack [1; 100; 9] in
  ~ (ZF_MEM_SIZE_VAR <= 9 <= ZF_MEM_SIZE_S32) /\ is_cell 9 /\
  dict_sized s /\ ZF_USERVAR_COUNT <= 100 /\ 100 + 2 <= ZF_DICT_SIZE /\
  dstack_top s [9; 100; 1] /\
  dict_put_cell_typed 100 1 9 s = Abort ZF_ABORT_INVALID_SIZE s /\
  do_prim DATA_SIZE fuel (prim_code PRIM_POKE) None s
  = Abort ZF_ABORT_INVALID_SIZE (set_dsp (dsp s - 3) s).
Proof.
  intros s.
  assert (H1 : ~ (ZF_MEM_SIZE_VAR <= 9 <= ZF_MEM_SIZE_S32))
    by (vm_compute; intuition congruence).
  assert (H2 : is_cell 9) by evaluated.
  assert (H3 : dict_sized s) by reflexivity.
  assert (H4 : ZF_USERVAR_COUNT <= 100) by evaluated.
  assert (H5 : 100 + 2 <= ZF_DICT_SIZE) by evaluated.
  assert (H6 : dstack_top s [9; 100; 1]) by evaluated.
  repeat (split; [assumption|]).
  destruct (invalid_size_aborts DATA_SIZE fuel None 100 1 9 [] s
              H1 H2 H3 H4 H5) as (P & _ & K & _).
  split; [exact P|exact (K H6)].
Defined.

Lemma blank_text_does_nothing_witness :
  let bs := [32; 9; 10; 32] in
  Forall (fun c => isspace c = true) bs /\
  input_state started <> ZF_INPUT_PASS_CHAR /\ tok started = [] /\
  zf_eval DATA_SIZE (length bs + S 0) (Literal bs) started
  = Ok ZF_OK started.
Proof.
  intros bs.
  assert (H1 : Forall (fun c => isspace c = true) bs)
    by (repeat constructor).
  assert (H2 : input_state started <> ZF_INPUT_PASS_CHAR) by discriminate.
  assert (H3 : tok started = []) by reflexivity.
  repeat (split; [assumption|]).
  exact (blank_text_does_nothing DATA_SIZE 0 bs started H1 H2 H3).
Defined.

Lemma long_token_is_cut_witness :
  let bs := [32] in
  Forall (fun c => isspace c = true) bs /\
  Forall (fun c => c <> 0 /\ isspace c = false) long_token /\
  long_token <> [] /\
  input_state started <> ZF_INPUT_PASS_CHAR /\ tok started = [] /\
  firstn 31 long_token = repeat 49 31 /\
  zf_eval DATA_SIZE (length bs + S (length long_token + fuel))
    (Literal (bs ++ long_token)) started
  = zf_eval DATA_SIZE (S (length (firstn 31 long_token) + fuel))
      (Literal (firstn 31 long_token)) started.
Proof.
  intros bs.
  assert (H1 : Forall (fun c => isspace c = true) bs)
    by (repeat constructor).
  assert (H2 : Forall (fun c => c <> 0 /\ isspace c = false) long_token)
    by (repeat constructor; discriminate).
  assert (H3 : long_token <> []) by discriminate.
  assert (H4 : input_state started <> ZF_INPUT_PASS_CHAR) by discriminate.
  assert (H5 : tok started = []) by reflexivity.
  repeat (split; [assumption|]).
  split; [reflexivity|].
  exact (proj2 (long_token_is_cut DATA_SIZE fuel bs long_token started
                  H1 H2 H3 H4 H5)).
Defined.

Lemma primitives_are_named_witness :
  let s := power_on ramp in
  cold s /\
  exists s1,
    init_interpreter DATA_SIZE fuel s = Ok tt s1 /\
    Forall (names_primitive fuel s1) primitive_words.
Proof.
  intros s.
  assert (H : cold s) by reflexivity.
  split; [exact H|].
  destruct (primitives_are_named DATA_SIZE s H) as (s1 & E & F & _).
  exists s1. split; [exact E|exact F].
Defined.

Lemma less_than_compares_witness :
  let s := power_on ramp in
  cold s /\ is_cell (-3) /\ is_cell 5 /\ is_cell (-3 - 5) /\
  (100 <= 100)%nat /\
  exists s1 s2,
    init_interpreter DATA_SIZE fuel s = Ok tt s1 /\
    (zf_push (-3) ;; zf_push 5 ;;
     zf_eval DATA_SIZE 100 (Literal (str "<"))) s1 = Ok ZF_OK s2 /\
    dstack_top s2 [1].
Proof.
  intros s.
  assert (H1 : cold s) by reflexivity.
  assert (H2 : is_cell (-3)) by evaluated.
  assert (H3 : is_cell 5) by evaluated.
  assert (H4 : is_cell (-3 - 5)) by evaluated.
  assert (H5 : (100 <= 100)%nat) by lia.
  repeat (split; [assumption|]).
  destruct (less_than_compares DATA_SIZE s (-3) 5 100 H1 H2 H3 H4 H5)
    as (s1 & s2 & E1 & E2 & T & _).
  exists s1, s2. split; [exact E1|]. split; [exact E2|exact T].
Defined.

End SamplePlatformMore.
